(** * Threat scoring and explanation engine: a shallow embedding

    This development embeds the decision logic of the social-engineering
    detector (the service module [services/threatDetection], the scanner form,
    the threat card and the dashboard that call it, and the tables of the
    migration it reads and writes) and proves the properties its
    specification states, and further properties of the code.

    - JavaScript [number]s are kept behind the interface [JSNumber], with two
      instances: IEEE binary64 (the arithmetic the engine really runs, on Rocq's
      primitive floats) and exact rationals.  What the analysis reports of
      the catalog is proved for any instance; the scorer's formula, its
      thresholds and its numeric bounds are proved on the doubles, through
      the specification of their operations.
    - Strings are sequences of code units ([string]); the builtins that depend
      on the Unicode tables, [toLowerCase], [toUpperCase] and [trim], sit behind
      [JSStringOps], with an ASCII instance used for the worked examples.
    - The Supabase client is a state monad [DB] over a [World] holding the
      three tables, the clock, and the trace of the requests issued.  A table
      may be marked faulty: its requests are then refused.  The counters of
      [detection_stats] are integers; the rounding of the stored confidence to
      two decimals and the React state of the callers are left out: the
      dashboard's functions take the list of records and the reading of the
      clock as arguments, and [Date] sits behind [JSDate].

    The file has three parts: the program, the notions and sample data the
    statements use, and the lemmas and theorems. *)

From Stdlib Require Import String Ascii List ZArith QArith Qminmax Lia Lqa Uint63 Floats.
From stdpp Require Import gmap strings pretty sorting.

Local Open Scope string_scope.
Local Open Scope Z_scope.

(** ** JavaScript numbers *)

(** The operations the service performs on [number]s.  [num_lit] reads a
    decimal literal (or a JSON number), [num_of_nat] is the value of an array's
    [length]. *)
Class JSNumber (N : Type) := {
  num_lit : Q -> N;
  num_of_nat : nat -> N;
  num_add : N -> N -> N;
  num_mul : N -> N -> N;
  num_div : N -> N -> N;
  num_min : N -> N -> N;
  num_ge : N -> N -> bool
}.

(** IEEE binary64, as every JavaScript engine implements [number]. *)
Definition float_of_Z (z : Z) : float :=
  match z with
  | Z0 => PrimFloat.zero
  | Zpos _ => PrimFloat.of_uint63 (Uint63.of_Z z)
  | Zneg p => PrimFloat.opp (PrimFloat.of_uint63 (Uint63.of_Z (Zpos p)))
  end.

(** A decimal literal denotes the double nearest to it; the correctly rounded
    quotient of its (exactly representable) numerator and denominator is that
    double. *)
Definition float_of_Q (q : Q) : float :=
  PrimFloat.div (float_of_Z (Qnum q)) (float_of_Z (Zpos (Qden q))).

(** [Math.min] on two arguments: NaN is contagious and -0 is below +0. *)
Definition float_min (a b : float) : float :=
  if (PrimFloat.is_nan a || PrimFloat.is_nan b)%bool then PrimFloat.nan
  else if PrimFloat.ltb a b then a
  else if PrimFloat.ltb b a then b
  else if PrimFloat.get_sign a then a else b.

#[global] Instance JSNumber_float : JSNumber float := {
  num_lit := float_of_Q;
  num_of_nat n := float_of_Z (Z.of_nat n);
  num_add := PrimFloat.add;
  num_mul := PrimFloat.mul;
  num_div := PrimFloat.div;
  num_min := float_min;
  num_ge a b := PrimFloat.leb b a
}.

(** Exact rational arithmetic: the numbers the formulas of the specification
    are written in. *)
#[global] Instance JSNumber_Q : JSNumber Q := {
  num_lit q := q;
  num_of_nat n := inject_Z (Z.of_nat n);
  num_add := Qplus;
  num_mul := Qmult;
  num_div := Qdiv;
  num_min := Qmin;
  num_ge a b := Qle_bool b a
}.

(** ** JavaScript strings and arrays *)

(** [s.includes(searchString)]: [searchString] occurs somewhere in [s]. *)
Fixpoint includes (s searchString : string) : bool :=
  if String.prefix searchString s then true
  else match s with
       | EmptyString => false
       | String _ s' => includes s' searchString
       end.

(** [xs.join(sep)]. *)
Definition join (sep : string) (xs : list string) : string := String.concat sep xs.

(** [s.split(sep)[0]] for a one-character separator: the text before the
    first [sep], the whole of [s] when there is none. *)
Fixpoint split_head (sep : ascii) (s : string) : string :=
  match s with
  | EmptyString => EmptyString
  | String c s' => if Ascii.eqb c sep then EmptyString else String c (split_head sep s')
  end.

(** The builtins whose result depends on the Unicode tables. *)
Class JSStringOps := {
  toLowerCase : string -> string;
  toUpperCase : string -> string;
  trim : string -> string
}.

Definition ascii_lower (c : ascii) : ascii :=
  let n := nat_of_ascii c in
  if ((65 <=? n) && (n <=? 90))%nat then ascii_of_nat (n + 32) else c.

Definition ascii_upper (c : ascii) : ascii :=
  let n := nat_of_ascii c in
  if ((97 <=? n) && (n <=? 122))%nat then ascii_of_nat (n - 32) else c.

Fixpoint string_map (f : ascii -> ascii) (s : string) : string :=
  match s with
  | EmptyString => EmptyString
  | String c s' => String (f c) (string_map f s')
  end.

Definition is_white_space (c : ascii) : bool :=
  let n := nat_of_ascii c in
  ((n =? 32) || ((9 <=? n) && (n <=? 13)))%nat.

Fixpoint trim_start (s : string) : string :=
  match s with
  | EmptyString => EmptyString
  | String c s' => if is_white_space c then trim_start s' else s
  end.

Fixpoint trim_end (s : string) : string :=
  match s with
  | EmptyString => EmptyString
  | String c s' =>
      match trim_end s' with
      | EmptyString => if is_white_space c then EmptyString else String c EmptyString
      | t => String c t
      end
  end.

#[global] Instance JSStringOps_ascii : JSStringOps := {
  toLowerCase := string_map ascii_lower;
  toUpperCase := string_map ascii_upper;
  trim s := trim_end (trim_start s)
}.

(** Characters that cannot be written inside a string literal. *)
Definition nl : string := String (ascii_of_nat 10) EmptyString.
Definition dquote : string := String (ascii_of_nat 34) EmptyString.

(** ** Data model *)

Inductive SeverityLevel := safe | low | medium | high | critical.

(** The string a severity level is on the wire and as an object key. *)
Definition severity_name (s : SeverityLevel) : string :=
  match s with
  | safe => "safe"
  | low => "low"
  | medium => "medium"
  | high => "high"
  | critical => "critical"
  end.

Inductive Status := status_new | acknowledged | resolved | false_positive.

(** The scanner form's source type, a union of four string literals. *)
Inductive SourceType := email | message | link | other.

Definition source_type_name (s : SourceType) : string :=
  match s with
  | email => "email"
  | message => "message"
  | link => "link"
  | other => "other"
  end.

(** A row of [detection_stats].  The counters are integer columns; the
    per-severity breakdown is a JSON object keyed by severity name. *)
Record DetectionStats := {
  stats_id : string;
  stats_user_id : string;
  date : string;
  total_scanned : Z;
  threats_detected : Z;
  false_positives : Z;
  threats_by_severity : gmap string Z
}.

(** The payload of the insert into [detection_stats]. *)
Record DetectionStatsInsert := {
  new_stats_user_id : string;
  new_date : string;
  new_total_scanned : Z;
  new_threats_detected : Z;
  new_false_positives : Z;
  new_threats_by_severity : gmap string Z
}.

Inductive Table := T_threat_patterns | T_threat_detections | T_detection_stats.

(** One request sent to the store. *)
Inductive Request := Select (t : Table) | Insert (t : Table) | Update (t : Table).

(** What a request resolves to: [{ data, error }]. *)
Record Response (A : Type) := { data : option A; error : option string }.
Arguments data {A} _.
Arguments error {A} _.

Definition fresh_uuid (n : nat) : string := "uuid-" +:+ pretty n.

(** The object literal [{ safe: 0, low: 0, medium: 0, high: 0, critical: 0 }]. *)
Definition zero_counts : gmap string Z :=
  <["critical" := 0]> (<["high" := 0]> (<["medium" := 0]>
    (<["low" := 0]> (<["safe" := 0]> ∅)))).

Section Engine.
Context {N : Type}.

(** A row of [threat_patterns]. *)
Record ThreatPattern := {
  pattern_name : string;
  pattern_type : string;
  indicators : list string;
  severity_weight : N;
  is_active : bool
}.

(** A row of [threat_detections]. *)
Record ThreatDetection := {
  threat_id : string;
  user_id : string;
  threat_type : string;
  severity_level : SeverityLevel;
  source_type : string;
  source_content : string;
  detected_patterns : list string;
  confidence_score : N;
  nlp_explanation : string;
  status : Status;
  detected_at : string;
  resolved_at : option string
}.

(** The payload of the insert into [threat_detections]. *)
Record ThreatDetectionInsert := {
  new_user_id : string;
  new_threat_type : string;
  new_severity_level : SeverityLevel;
  new_source_type : string;
  new_source_content : string;
  new_detected_patterns : list string;
  new_confidence_score : N;
  new_nlp_explanation : string;
  new_status : Status
}.

(** ** The store and its client *)

(** [now] is the clock, as the ISO-8601 text [new Date().toISOString()]
    returns; [faulty t] tells that requests on table [t] are refused (the
    store is unreachable, or a policy or constraint rejects them); [requests]
    is the trace of the requests issued so far, oldest first. *)
Record World := {
  now : string;
  next_uuid : nat;
  faulty : Table -> bool;
  threat_patterns : list ThreatPattern;
  threat_detections : list ThreatDetection;
  detection_stats : list DetectionStats;
  requests : list Request;
  console : list string
}.

Definition DB (A : Type) : Type := World -> A * World.

Definition ret {A} (a : A) : DB A := fun w => (a, w).

Definition bind {A B} (m : DB A) (k : A -> DB B) : DB B :=
  fun w => let (a, w') := m w in k a w'.

Definition issue (r : Request) : DB unit := fun w =>
  (tt, {| now := now w; next_uuid := next_uuid w; faulty := faulty w;
          threat_patterns := threat_patterns w;
          threat_detections := threat_detections w;
          detection_stats := detection_stats w;
          requests := requests w ++ [r]; console := console w |}).

Definition console_error (msg : string) : DB unit := fun w =>
  (tt, {| now := now w; next_uuid := next_uuid w; faulty := faulty w;
          threat_patterns := threat_patterns w;
          threat_detections := threat_detections w;
          detection_stats := detection_stats w;
          requests := requests w; console := console w ++ [msg] |}).

Definition is_faulty (t : Table) : DB bool := fun w => (faulty w t, w).

(** [new Date().toISOString()]. *)
Definition toISOString_now : DB string := fun w => (now w, w).

Definition set_threat_detections (rows : list ThreatDetection) (n : nat) : DB unit := fun w =>
  (tt, {| now := now w; next_uuid := n; faulty := faulty w;
          threat_patterns := threat_patterns w;
          threat_detections := rows;
          detection_stats := detection_stats w;
          requests := requests w; console := console w |}).

Definition set_detection_stats (rows : list DetectionStats) (n : nat) : DB unit := fun w =>
  (tt, {| now := now w; next_uuid := n; faulty := faulty w;
          threat_patterns := threat_patterns w;
          threat_detections := threat_detections w;
          detection_stats := rows;
          requests := requests w; console := console w |}).

Definition read {A} (f : World -> A) : DB A := fun w => (f w, w).

End Engine.

Arguments ThreatPattern N : clear implicits.
Arguments ThreatDetection N : clear implicits.
Arguments ThreatDetectionInsert N : clear implicits.
Arguments World N : clear implicits.
Arguments DB N A : clear implicits.

Notation "'let*' x ':=' c 'in' k" := (bind c (fun x => k))
  (at level 10, x name, c at level 100, k at level 200, only parsing).
Notation "c ;; k" := (bind c (fun _ => k))
  (at level 100, k at level 200, only parsing).

Section Client.
Context {N : Type}.

(** [.from('threat_patterns').select('*').eq('is_active', true)]: the active
    rows in table order, or no data when the request is refused. *)
Definition select_active_patterns : DB N (option (list (ThreatPattern N))) :=
  issue (Select T_threat_patterns) ;;
  let* down := is_faulty T_threat_patterns in
  if down then ret None
  else let* rows := read threat_patterns in
       ret (Some (List.filter is_active rows)).

(** [.from('threat_detections').insert(row).select().single()]: the store
    assigns [id] and [detected_at] and answers with the stored row. *)
Definition insert_threat_detection (row : ThreatDetectionInsert N)
  : DB N (Response (ThreatDetection N)) :=
  issue (Insert T_threat_detections) ;;
  let* down := is_faulty T_threat_detections in
  if down then ret {| data := None; error := Some "insert refused" |}
  else
    let* n := read next_uuid in
    let* t := read now in
    let* rows := read threat_detections in
    let stored :=
      {| threat_id := fresh_uuid n;
         user_id := new_user_id row;
         threat_type := new_threat_type row;
         severity_level := new_severity_level row;
         source_type := new_source_type row;
         source_content := new_source_content row;
         detected_patterns := new_detected_patterns row;
         confidence_score := new_confidence_score row;
         nlp_explanation := new_nlp_explanation row;
         status := new_status row;
         detected_at := t;
         resolved_at := None |} in
    set_threat_detections (rows ++ [stored]) (S n) ;;
    ret {| data := Some stored; error := None |}.

(** [.from('threat_detections').update(patch).eq('id', threatId)]. *)
Definition update_threat_detection (threatId : string)
    (patch : ThreatDetection N -> ThreatDetection N) : DB N unit :=
  issue (Update T_threat_detections) ;;
  let* down := is_faulty T_threat_detections in
  if down then ret tt
  else
    let* n := read next_uuid in
    let* rows := read threat_detections in
    set_threat_detections
      (map (fun r => if String.eqb (threat_id r) threatId then patch r else r) rows) n.

(** The rows of [detection_stats] for one user and day. *)
Definition stats_rows (userId today : string) (rows : list DetectionStats)
  : list DetectionStats :=
  List.filter (fun r => String.eqb (stats_user_id r) userId && String.eqb (date r) today) rows.

(** [.maybeSingle()]: the row when exactly one matches, no data otherwise. *)
Definition maybeSingle {A} (rows : list A) : option A :=
  match rows with
  | [r] => Some r
  | _ => None
  end.

(** [.from('detection_stats').select('*').eq('user_id', u).eq('date', d).maybeSingle()]. *)
Definition select_detection_stats (userId today : string) : DB N (option DetectionStats) :=
  issue (Select T_detection_stats) ;;
  let* down := is_faulty T_detection_stats in
  if down then ret None
  else let* rows := read detection_stats in
       ret (maybeSingle (stats_rows userId today rows)).

(** [.from('detection_stats').update({...}).eq('id', id)]: the three columns
    the service sends. *)
Definition update_detection_stats (id : string) (total threats : Z)
    (bySeverity : gmap string Z) : DB N unit :=
  issue (Update T_detection_stats) ;;
  let* down := is_faulty T_detection_stats in
  if down then ret tt
  else
    let* n := read next_uuid in
    let* rows := read detection_stats in
    set_detection_stats
      (map (fun r =>
              if String.eqb (stats_id r) id
              then {| stats_id := stats_id r; stats_user_id := stats_user_id r;
                      date := date r; total_scanned := total;
                      threats_detected := threats;
                      false_positives := false_positives r;
                      threats_by_severity := bySeverity |}
              else r) rows) n.

(** [.from('detection_stats').insert(row)]: refused as well when a row for
    the same user and day exists (the table's UNIQUE(user_id, date)). *)
Definition insert_detection_stats (row : DetectionStatsInsert) : DB N unit :=
  issue (Insert T_detection_stats) ;;
  let* down := is_faulty T_detection_stats in
  if down then ret tt
  else
    let* n := read next_uuid in
    let* rows := read detection_stats in
    match stats_rows (new_stats_user_id row) (new_date row) rows with
    | _ :: _ => ret tt
    | [] =>
        set_detection_stats
          (rows ++ [{| stats_id := fresh_uuid n;
                       stats_user_id := new_stats_user_id row;
                       date := new_date row;
                       total_scanned := new_total_scanned row;
                       threats_detected := new_threats_detected row;
                       false_positives := new_false_positives row;
                       threats_by_severity := new_threats_by_severity row |}])
          (S n)
    end.

End Client.

Declare Scope js_scope.
Delimit Scope js_scope with js.
Arguments num_lit {N JSNumber} _%_Q.
Infix "+" := num_add : js_scope.
Infix "*" := num_mul : js_scope.
Infix "/" := num_div : js_scope.
Infix ">=?" := num_ge (at level 70, no associativity) : js_scope.

(** ** The service: [services/threatDetection] *)

Section Service.
Context {N : Type} {num : JSNumber N} {str : JSStringOps}.

(** What [analyzeThreatWithNLP] resolves to. *)
Record Analysis := {
  threatType : string;
  severityLevel : SeverityLevel;
  detectedPatterns : list string;
  confidenceScore : N;
  nlpExplanation : string
}.

(** An entry of the local array [detectedPatterns]: [{ pattern, matches }]. *)
Record MatchResult := {
  pattern : ThreatPattern N;
  matches : list string
}.

(** The inner [indicators.forEach]: push every indicator the lower-cased
    content includes. *)
Definition matchIndicators (contentLower : string) (indicators : list string) : list string :=
  fold_left
    (fun matches indicator =>
       if includes contentLower (toLowerCase indicator)
       then (matches ++ [indicator])%list else matches)
    indicators [].

(** The outer [patterns.forEach]: push a pattern with its matches when there
    is at least one. *)
Definition matchPatterns (contentLower : string) (patterns : list (ThreatPattern N))
  : list MatchResult :=
  fold_left
    (fun detected p =>
       let matches := matchIndicators contentLower (indicators p) in
       if (0 <? length matches)%nat
       then (detected ++ [{| pattern := p; matches := matches |}])%list else detected)
    patterns [].

(** The [switch (severityLevel)] of [generateNLPExplanation]:
    [(severityDescription, recommendation)]. *)
Definition severityTable (severityLevel : string) : string * string :=
  if String.eqb severityLevel "critical" then
    ("CRITICAL THREAT - This communication exhibits multiple high-risk social engineering tactics commonly used in sophisticated attacks.",
     "DO NOT interact with this message. Do not click any links, download attachments, or provide any information. Report this immediately to your security team and delete it.")
  else if String.eqb severityLevel "high" then
    ("HIGH RISK - This communication shows strong indicators of a social engineering attack designed to manipulate you into taking harmful actions.",
     "Exercise extreme caution. Verify the sender through a separate, trusted communication channel before taking any action. Do not click links or provide sensitive information.")
  else if String.eqb severityLevel "medium" then
    ("MEDIUM RISK - This communication contains suspicious elements that may indicate a social engineering attempt.",
     "Be cautious. Independently verify the legitimacy of this communication before responding or taking action. Look for additional warning signs.")
  else if String.eqb severityLevel "low" then
    ("LOW RISK - Minor indicators detected that warrant attention, though the threat level is relatively low.",
     "Remain alert. While not immediately dangerous, verify the authenticity if the message requests any action or information from you.")
  else
    ("Safe communication detected.",
     "No immediate action required.").

(** One line of the per-pattern block. *)
Definition patternDescription (p : MatchResult) : string :=
  let matchList := join ", " (map (fun m => dquote +:+ m +:+ dquote) (firstn 3 (matches p))) in
  "• " +:+ pattern_name (pattern p) +:+ ": Detected " +:+ pretty (length (matches p))
       +:+ " indicator(s) including " +:+ matchList.

Definition generateNLPExplanation (detectedPatterns : list MatchResult)
    (severityLevel sourceType : string) : string :=
  let patternDescriptions := join nl (map patternDescription detectedPatterns) in
  let (severityDescription, recommendation) := severityTable severityLevel in
  join nl
    [ "🎯 THREAT ANALYSIS SUMMARY";
      "";
      severityDescription;
      "";
      "📊 SOURCE TYPE: " +:+ toUpperCase sourceType;
      "";
      "🔍 DETECTED ATTACK PATTERNS:";
      patternDescriptions;
      "";
      "💡 WHY THIS IS A THREAT:";
      "Social engineering attacks exploit human psychology rather than technical vulnerabilities. Attackers use manipulation techniques like urgency, authority, fear, or reward to bypass your natural skepticism and trick you into:";
      "- Revealing sensitive information (passwords, financial data)";
      "- Clicking malicious links that install malware";
      "- Transferring money or making unauthorized purchases";
      "- Granting access to secure systems";
      "";
      "The patterns detected in this communication are consistent with known social engineering tactics used by cybercriminals to compromise individuals and organizations.";
      "";
      "✅ RECOMMENDED ACTION:";
      recommendation;
      "";
      "🛡️ REMEMBER: Legitimate organizations will never:";
      "- Demand immediate action with threats";
      "- Ask for passwords or sensitive data via email";
      "- Use urgent language to prevent you from thinking clearly";
      "- Send unsolicited links requiring immediate clicks" ].

(** [reduce((sum, p) => sum + p.pattern.severity_weight, 0)]. *)
Definition totalWeight (detected : list MatchResult) : N :=
  fold_left (fun sum p => (sum + severity_weight (pattern p))%js) detected (num_lit 0).

Definition analyzeThreatWithNLP (content sourceType : string) : DB N Analysis :=
  let* patterns := select_active_patterns in
  match patterns with
  | None =>
      ret {| threatType := "none";
             severityLevel := safe;
             detectedPatterns := [];
             confidenceScore := num_lit 0;
             nlpExplanation := "No threats detected. This communication appears safe." |}
  | Some patterns =>
      let contentLower := toLowerCase content in
      let detected := matchPatterns contentLower patterns in
      match detected with
      | [] =>
          ret {| threatType := "none";
                 severityLevel := safe;
                 detectedPatterns := [];
                 confidenceScore := num_lit 95;
                 nlpExplanation := "Analysis complete: No social engineering indicators detected. This communication appears legitimate and safe." |}
      | first :: _ =>
          let count := num_of_nat (length detected) in
          let avgWeight := (totalWeight detected / count)%js in
          let confidenceScore :=
            num_min (num_lit 95) (num_lit 50 + count * num_lit 15 + avgWeight * num_lit 20)%js in
          let severityLevel :=
            if (avgWeight >=? num_lit 0.9)%js then critical
            else if (avgWeight >=? num_lit 0.75)%js then high
            else if (avgWeight >=? num_lit 0.5)%js then medium
            else low in
          let patternNames := map (fun p => pattern_name (pattern p)) detected in
          let threatType := pattern_type (pattern first) in
          let explanation :=
            generateNLPExplanation detected (severity_name severityLevel) sourceType in
          ret {| threatType := threatType;
                 severityLevel := severityLevel;
                 detectedPatterns := patternNames;
                 confidenceScore := confidenceScore;
                 nlpExplanation := explanation |}
      end
  end.

Definition updateUserStats (userId severityLevel : string) : DB N unit :=
  let* iso := toISOString_now in
  let today := split_head "T" iso in
  let* existing := select_detection_stats userId today in
  match existing with
  | Some existing =>
      let threatsBySeverity := threats_by_severity existing in
      let threatsBySeverity :=
        <[severityLevel := default 0 (threatsBySeverity !! severityLevel) + 1]>
          threatsBySeverity in
      update_detection_stats (stats_id existing)
        (total_scanned existing + 1)
        (threats_detected existing + (if String.eqb severityLevel "safe" then 0 else 1))
        threatsBySeverity
  | None =>
      let threatsBySeverity := zero_counts in
      let threatsBySeverity := <[severityLevel := 1]> threatsBySeverity in
      insert_detection_stats
        {| new_stats_user_id := userId;
           new_date := today;
           new_total_scanned := 1;
           new_threats_detected := (if String.eqb severityLevel "safe" then 0 else 1);
           new_false_positives := 0;
           new_threats_by_severity := threatsBySeverity |}
  end.

Definition scanCommunication (userId content sourceType : string)
  : DB N (option (ThreatDetection N)) :=
  let* analysis := analyzeThreatWithNLP content sourceType in
  let* response :=
    insert_threat_detection
      {| new_user_id := userId;
         new_threat_type := threatType analysis;
         new_severity_level := severityLevel analysis;
         new_source_type := sourceType;
         new_source_content := content;
         new_detected_patterns := detectedPatterns analysis;
         new_confidence_score := confidenceScore analysis;
         new_nlp_explanation := nlpExplanation analysis;
         new_status := status_new |} in
  match error response with
  | Some e =>
      console_error "Error saving threat detection:" ;;
      ret None
  | None =>
      updateUserStats userId (severity_name (severityLevel analysis)) ;;
      ret (data response)
  end.

Definition markThreatResolved (threatId : string) : DB N unit :=
  let* iso := toISOString_now in
  update_threat_detection threatId
    (fun r =>
       {| threat_id := threat_id r; user_id := user_id r; threat_type := threat_type r;
          severity_level := severity_level r; source_type := source_type r;
          source_content := source_content r; detected_patterns := detected_patterns r;
          confidence_score := confidence_score r; nlp_explanation := nlp_explanation r;
          status := resolved;
          detected_at := detected_at r;
          resolved_at := Some iso |}).

Definition markThreatAcknowledged (threatId : string) : DB N unit :=
  update_threat_detection threatId
    (fun r =>
       {| threat_id := threat_id r; user_id := user_id r; threat_type := threat_type r;
          severity_level := severity_level r; source_type := source_type r;
          source_content := source_content r; detected_patterns := detected_patterns r;
          confidence_score := confidence_score r; nlp_explanation := nlp_explanation r;
          status := acknowledged;
          detected_at := detected_at r;
          resolved_at := resolved_at r |}).

(** ** The callers: the scanner form and the threat card *)

(** [handleScan] of the scanner form: nothing happens on blank content. *)
Definition handleScan (userId content : string) (sourceType : SourceType) : DB N unit :=
  if String.eqb (trim content) "" then ret tt
  else scanCommunication userId content (source_type_name sourceType) ;; ret tt.

Inductive CardAction := Acknowledge | Resolve.

(** The buttons the threat card renders for a record. *)
Definition cardActions (st : Status) : list CardAction :=
  match st with
  | status_new => [Acknowledge; Resolve]
  | acknowledged => [Resolve]
  | _ => []
  end.



End Service.

Arguments Analysis N : clear implicits.
Arguments MatchResult N : clear implicits.

(** ** Sample data: the catalog the migration seeds *)

Section Samples.
Context {N : Type} {num : JSNumber N}.

Definition urgent_action : ThreatPattern N :=
  {| pattern_name := "Urgent Action Required";
     pattern_type := "urgency_manipulation";
     indicators := ["urgent"; "immediately"; "act now"; "expires today";
                    "final notice"; "account suspended"; "verify now"];
     severity_weight := num_lit 0.75;
     is_active := true |}.

Definition authority_impersonation : ThreatPattern N :=
  {| pattern_name := "Authority Impersonation";
     pattern_type := "pretexting";
     indicators := ["from: ceo"; "from: it department"; "from: security team";
                    "official notice"; "compliance required"; "mandatory update"];
     severity_weight := num_lit 0.85;
     is_active := true |}.

Definition suspicious_links : ThreatPattern N :=
  {| pattern_name := "Suspicious Links";
     pattern_type := "phishing";
     indicators := ["bit.ly"; "tinyurl"; "click here"; "verify account";
                    "confirm identity"; "unusual login"; "security alert"];
     severity_weight := num_lit 0.90;
     is_active := true |}.

Definition financial_request : ThreatPattern N :=
  {| pattern_name := "Financial Request";
     pattern_type := "baiting";
     indicators := ["wire transfer"; "payment urgent"; "invoice attached";
                    "refund processing"; "prize winner"; "unclaimed money"; "tax refund"];
     severity_weight := num_lit 0.95;
     is_active := true |}.

Definition credential_harvesting : ThreatPattern N :=
  {| pattern_name := "Credential Harvesting";
     pattern_type := "phishing";
     indicators := ["reset password"; "confirm password"; "update payment";
                    "verify credit card"; "login credentials"; "username and password"];
     severity_weight := num_lit 0.95;
     is_active := true |}.

Definition emotional_manipulation : ThreatPattern N :=
  {| pattern_name := "Emotional Manipulation";
     pattern_type := "manipulation";
     indicators := ["help needed"; "emergency"; "family member"; "sick relative";
                    "in trouble"; "need help"; "please help"];
     severity_weight := num_lit 0.70;
     is_active := true |}.

Definition seed_patterns : list (ThreatPattern N) :=
  [ urgent_action; authority_impersonation; suspicious_links;
    financial_request; credential_harvesting; emotional_manipulation ].

(** A freshly migrated store on 3 November 2025, every table reachable. *)
Definition fresh_world : World N :=
  {| now := "2025-11-03T10:19:26.000Z";
     next_uuid := 0;
     faulty := fun _ => false;
     threat_patterns := seed_patterns;
     threat_detections := [];
     detection_stats := [];
     requests := [];
     console := [] |}.

(** The same store with one table out of reach. *)
Definition without_table (t : Table) (w : World N) : World N :=
  {| now := now w; next_uuid := next_uuid w;
     faulty := fun t' => match t, t' with
                         | T_threat_patterns, T_threat_patterns => true
                         | T_threat_detections, T_threat_detections => true
                         | T_detection_stats, T_detection_stats => true
                         | _, _ => faulty w t'
                         end;
     threat_patterns := threat_patterns w;
     threat_detections := threat_detections w;
     detection_stats := detection_stats w;
     requests := requests w; console := console w |}.

End Samples.

(** The two messages of the specification's scenarios, and one that meets
    the patterns weighted 0.85 and 0.95. *)
Definition urgent_mail : string :=
  "URGENT: verify your account now, click http://bit.ly/xyz".
Definition coffee_mail : string := "Let's meet for coffee tomorrow".
Definition notice_mail : string := "Official notice: wire transfer pending".

(** ** Notions the specification speaks of *)

Section Notions.
Context {N : Type} {num : JSNumber N} {str : JSStringOps}.

(** [indicator] occurs in [content] as a case-insensitive substring: the
    lower-cased indicator lies somewhere inside the lower-cased content. *)
Definition occurs_in (content indicator : string) : Prop :=
  exists before after : string,
    toLowerCase content = before +:+ toLowerCase indicator +:+ after.

(** The test the matcher runs for one indicator. *)
Definition occurs (content indicator : string) : bool :=
  includes (toLowerCase content) (toLowerCase indicator).

(** A pattern matches when one of its indicators occurs. *)
Definition matched (content : string) (p : ThreatPattern N) : bool :=
  existsb (occurs content) (indicators p).

(** The active patterns of the catalog, in catalog order. *)
Definition active_patterns (w : World N) : list (ThreatPattern N) :=
  List.filter is_active (threat_patterns w).

(** The matched patterns of a scan, in catalog order. *)
Definition matched_patterns (content : string) (w : World N) : list (ThreatPattern N) :=
  List.filter (matched content) (active_patterns w).

(** The mean of a list of weights: their sum from left to right, divided by
    their number. *)
Definition mean (ws : list N) : N :=
  (fold_left num_add ws (num_lit 0) / num_of_nat (length ws))%js.

(** What the scorer sees of the catalog: the matcher's result on the active
    patterns. *)
Definition detected_of (content : string) (w : World N) : list (MatchResult N) :=
  matchPatterns (toLowerCase content) (active_patterns w).

(** The world once request [r] is on the trace. *)
Definition logged (r : Request) (w : World N) : World N :=
  snd (issue r w).

(** The record a scan hands to the store. *)
Definition scan_row (userId content sourceType : string) (w : World N)
  : ThreatDetectionInsert N :=
  let analysis := fst (analyzeThreatWithNLP content sourceType w) in
  {| new_user_id := userId;
     new_threat_type := threatType analysis;
     new_severity_level := severityLevel analysis;
     new_source_type := sourceType;
     new_source_content := content;
     new_detected_patterns := detectedPatterns analysis;
     new_confidence_score := confidenceScore analysis;
     new_nlp_explanation := nlpExplanation analysis;
     new_status := status_new |}.

End Notions.

(** *** The daily counters *)

Section StatsNotions.
Context {N : Type}.


(** The row of [detection_stats] for a user and a day, when there is one. *)
Definition stats_row (userId day : string) (w : World N) : option DetectionStats :=
  maybeSingle (stats_rows userId day (detection_stats w)).


(** The world when the clock reads [t]. *)
Definition at_clock (t : string) (w : World N) : World N :=
  {| now := t; next_uuid := next_uuid w; faulty := faulty w;
     threat_patterns := threat_patterns w;
     threat_detections := threat_detections w;
     detection_stats := detection_stats w;
     requests := requests w; console := console w |}.

(** One call of the aggregator, at instant [fst ev] with severity [snd ev]. *)
Definition record_scan (userId : string) (ev : string * string) (w : World N) : World N :=
  snd (updateUserStats userId (snd ev) (at_clock (fst ev) w)).

Definition record_scans (userId : string) (evs : list (string * string)) (w : World N)
  : World N :=
  fold_left (fun w ev => record_scan userId ev w) evs w.

(** The row a first scan creates. *)
Definition created_row (id userId day severity : string) : DetectionStats :=
  {| stats_id := id; stats_user_id := userId; date := day;
     total_scanned := 1;
     threats_detected := (if String.eqb severity "safe" then 0 else 1);
     false_positives := 0;
     threats_by_severity := <[severity := 1]> zero_counts |}.

(** The row after one more scan. *)
Definition bumped_row (severity : string) (r : DetectionStats) : DetectionStats :=
  {| stats_id := stats_id r; stats_user_id := stats_user_id r; date := date r;
     total_scanned := total_scanned r + 1;
     threats_detected :=
       threats_detected r + (if String.eqb severity "safe" then 0 else 1);
     false_positives := false_positives r;
     threats_by_severity :=
       <[severity := default 0 (threats_by_severity r !! severity) + 1]>
         (threats_by_severity r) |}.

End StatsNotions.

(** *** Doubles *)

(** The exponent of the last bit a double keeps of a number below [2 ^ e]. *)
Definition fexp64 (e : Z) : Z := Z.max (e - 53) (-1074).

(** The right shift that brings [m * 2 ^ e] to its target exponent. *)
Definition gap (m e : Z) : Z := Z.max 0 (fexp64 (Zdigits2 m + e) - e).

(** Non-negative results: a zero, a positive finite number or +infinity. *)
Definition nonneg (f : spec_float) : Prop :=
  match f with
  | S754_zero _ => True
  | S754_infinity false => True
  | S754_finite false _ _ => True
  | _ => False
  end.

(** [v <= m * 2 ^ e], over the integers. *)
Definition le_scaled (v m e : Z) : Prop :=
  v * 2 ^ Z.max 0 (- e) <= m * 2 ^ Z.max 0 e.

(** A float at least equal to the integer [v]. *)
Definition at_least (v : Z) (f : spec_float) : Prop :=
  match f with
  | S754_infinity false => True
  | S754_finite false m e => le_scaled v (Zpos m) e
  | _ => False
  end.

(** *** The stores and scans of the worked examples *)

Definition store : World float := fresh_world.

(** The store after one scan, and after that scan's record was resolved. *)
Definition scanned_store : World float :=
  snd (scanCommunication "u1" "need help" "email" store).
Definition resolved_store : World float :=
  snd (markThreatResolved "uuid-0" scanned_store).

Definition urgent_analysis : Analysis float :=
  fst (analyzeThreatWithNLP urgent_mail "email" store).
Definition coffee_analysis : Analysis float :=
  fst (analyzeThreatWithNLP coffee_mail "email" store).
Definition offline_analysis : Analysis float :=
  fst (analyzeThreatWithNLP urgent_mail "email" (without_table T_threat_patterns store)).

(** What the examples show of a record. *)
Definition status_view (r : ThreatDetection float) : string * Status * option string :=
  (threat_id r, status r, resolved_at r).

(** Two scans of one user on 3 November 2025. *)
Definition morning_scan : string * string := ("2025-11-03T10:19:26.000Z", "high").
Definition evening_scan : string * string := ("2025-11-03T18:30:00.000Z", "safe").

(** ** The listing: [getUserThreats] *)

Section Listing.
Context {N : Type}.

(** [a] was detected no earlier than [b]: the order of
    [.order('detected_at', { ascending: false })], read on the text of the
    stamps (stamps of one format and one time zone compare as their
    instants do). *)
Definition newer_first (a b : ThreatDetection N) : Prop :=
  String.leb (detected_at b) (detected_at a) = true.

#[global] Instance newer_first_dec (a b : ThreatDetection N) : Decision (newer_first a b) :=
  decide (String.leb (detected_at b) (detected_at a) = true).

(** [.from('threat_detections').select('*').eq('user_id', userId)
     .order('detected_at', { ascending: false }).limit(50)]: the store leaves
    the order of rows with equal stamps open; here they come sorted by a
    merge sort. *)
Definition select_user_threats (userId : string)
  : DB N (Response (list (ThreatDetection N))) :=
  issue (Select T_threat_detections) ;;
  let* down := is_faulty T_threat_detections in
  if down then ret {| data := None; error := Some "select refused" |}
  else
    let* rows := read threat_detections in
    let own := List.filter (fun r => String.eqb (user_id r) userId) rows in
    ret {| data := Some (take 50 (merge_sort newer_first own)); error := None |}.

Definition getUserThreats (userId : string) : DB N (list (ThreatDetection N)) :=
  let* response := select_user_threats userId in
  match error response with
  | Some e =>
      console_error "Error fetching threats:" ;;
      ret []
  | None => ret (default [] (data response))
  end.

(** The records of one user, in table order. *)
Definition records_of (userId : string) (w : World N) : list (ThreatDetection N) :=
  List.filter (fun r => String.eqb (user_id r) userId) (threat_detections w).

End Listing.

(** ** The dashboard and the status indicator *)

(** [Date.now()] when the clock reads a given text, [new Date(s).getTime()],
    and the two operations on numbers the dashboard uses beyond the
    scorer's. *)
Class JSDate (N : Type) := {
  Date_now : string -> N;
  getTime : string -> N;
  num_sub : N -> N -> N;
  num_lt : N -> N -> bool
}.

(** Stamps as [toISOString] writes them, [YYYY-MM-DDTHH:mm:ss.sssZ]: the
    milliseconds since the epoch. *)
Definition digit (c : ascii) : option Z :=
  let n := Z.of_nat (nat_of_ascii c) in
  if (48 <=? n) && (n <=? 57) then Some (n - 48) else None.

Fixpoint number_from (acc : Z) (s : string) : option Z :=
  match s with
  | EmptyString => Some acc
  | String c s' =>
      match digit c with
      | Some d => number_from (10 * acc + d) s'
      | None => None
      end
  end.

(** The days from 1 January 1970 to a date of the Gregorian calendar. *)
Definition days_from_civil (y m d : Z) : Z :=
  let y := if m <=? 2 then y - 1 else y in
  let era := y / 400 in
  let yoe := y - era * 400 in
  let doy := (153 * (if 2 <? m then m - 3 else m + 9) + 2) / 5 + d - 1 in
  let doe := yoe * 365 + yoe / 4 - yoe / 100 + doy in
  era * 146097 + doe - 719468.

Definition parse_iso (s : string) : option Z :=
  let sep i c := String.eqb (substring i 1 s) c in
  let field i n := number_from 0 (substring i n s) in
  if (String.length s =? 24)%nat && sep 4%nat "-" && sep 7%nat "-" && sep 10%nat "T"
     && sep 13%nat ":" && sep 16%nat ":" && sep 19%nat "." && sep 23%nat "Z"
  then
    match field 0%nat 4%nat, field 5%nat 2%nat, field 8%nat 2%nat,
          field 11%nat 2%nat, field 14%nat 2%nat, field 17%nat 2%nat,
          field 20%nat 3%nat with
    | Some y, Some mo, Some d, Some h, Some mi, Some sec, Some ms =>
        if (1 <=? mo) && (mo <=? 12) && (1 <=? d) && (d <=? 31)
           && (h <=? 23) && (mi <=? 59) && (sec <=? 59)
        then Some ((((days_from_civil y mo d * 24 + h) * 60 + mi) * 60 + sec) * 1000 + ms)
        else None
    | _, _, _, _, _, _, _ => None
    end
  else None.

(** On doubles, for stamps in that format: this instance reads no other
    format and gives NaN, the time of an invalid date, for any other text. *)
Definition iso_time (s : string) : float :=
  match parse_iso s with
  | Some ms => float_of_Z ms
  | None => PrimFloat.nan
  end.

#[global] Instance JSDate_float : JSDate float := {
  Date_now := iso_time;
  getTime := iso_time;
  num_sub := PrimFloat.sub;
  num_lt := PrimFloat.ltb
}.

(** ['safe' | 'warning' | 'danger']. *)
Inductive OverallStatus := overall_safe | warning | danger.

(** [===] on statuses and on severity levels. *)
Definition status_eqb (a b : Status) : bool :=
  match a, b with
  | status_new, status_new => true
  | acknowledged, acknowledged => true
  | resolved, resolved => true
  | false_positive, false_positive => true
  | _, _ => false
  end.

Definition severity_eqb (a b : SeverityLevel) : bool :=
  match a, b with
  | safe, safe => true
  | low, low => true
  | medium, medium => true
  | high, high => true
  | critical, critical => true
  | _, _ => false
  end.

(** The five numbers of the dashboard's [stats]. *)
Record DashboardStats := {
  total : nat;
  stats_critical : nat;
  stats_high : nat;
  stats_medium : nat;
  stats_resolved : nat
}.

Section Dashboard.
Context {N : Type} {num : JSNumber N} {date : JSDate N}.

Definition hoursSinceDetection (clock : string) (t : ThreatDetection N) : N :=
  (num_sub (Date_now clock) (getTime (detected_at t))
   / (num_lit 1000 * num_lit 60 * num_lit 60))%js.

(** [getOverallStatus], on the component's [threats] when the clock reads
    [clock]. *)
Definition getOverallStatus (clock : string) (threats : list (ThreatDetection N))
  : OverallStatus :=
  let recentThreats :=
    List.filter
      (fun t => num_lt (hoursSinceDetection clock t) (num_lit 24)
                && status_eqb (status t) status_new)
      threats in
  let hasCritical := existsb (fun t => severity_eqb (severity_level t) critical) recentThreats in
  let hasHigh := existsb (fun t => severity_eqb (severity_level t) high) recentThreats in
  let hasMedium := existsb (fun t => severity_eqb (severity_level t) medium) recentThreats in
  if hasCritical || hasHigh then danger
  else if hasMedium then warning
  else overall_safe.

Definition stats (threats : list (ThreatDetection N)) : DashboardStats :=
  {| total := length threats;
     stats_critical :=
       length (List.filter (fun t => severity_eqb (severity_level t) critical
                                     && status_eqb (status t) status_new) threats);
     stats_high :=
       length (List.filter (fun t => severity_eqb (severity_level t) high
                                     && status_eqb (status t) status_new) threats);
     stats_medium :=
       length (List.filter (fun t => severity_eqb (severity_level t) medium
                                     && status_eqb (status t) status_new) threats);
     stats_resolved :=
       length (List.filter (fun t => status_eqb (status t) resolved) threats) |}.

(** The record is one of the last 24 hours that is still [new]. *)
Definition recent_and_new (clock : string) (t : ThreatDetection N) : Prop :=
  num_lt (hoursSinceDetection clock t) (num_lit 24) = true /\ status t = status_new.

End Dashboard.

(** [configs[status]] of the status indicator: its title and description. *)
Definition configs (s : OverallStatus) : string * string :=
  match s with
  | overall_safe =>
      ("System Status: SECURE",
       "No active threats detected. Your communications are being monitored and protected.")
  | warning =>
      ("System Status: CAUTION",
       "Medium-risk threats detected. Review alerts and proceed with caution.")
  | danger =>
      ("System Status: ALERT",
       "High-risk or critical threats detected. Immediate attention required!")
  end.

(** ** The threat card's buttons *)

Section Card.
Context {N : Type} {num : JSNumber N} {str : JSStringOps}.


End Card.

(** ** Notions of the further properties *)

Section FurtherNotions.
Context {N : Type} {num : JSNumber N} {str : JSStringOps}.

(** A record once acknowledged, and once resolved at instant [iso]. *)
Definition acknowledged_as (r : ThreatDetection N) : ThreatDetection N :=
  {| threat_id := threat_id r; user_id := user_id r; threat_type := threat_type r;
     severity_level := severity_level r; source_type := source_type r;
     source_content := source_content r; detected_patterns := detected_patterns r;
     confidence_score := confidence_score r; nlp_explanation := nlp_explanation r;
     status := acknowledged;
     detected_at := detected_at r;
     resolved_at := resolved_at r |}.

Definition resolved_as (iso : string) (r : ThreatDetection N) : ThreatDetection N :=
  {| threat_id := threat_id r; user_id := user_id r; threat_type := threat_type r;
     severity_level := severity_level r; source_type := source_type r;
     source_content := source_content r; detected_patterns := detected_patterns r;
     confidence_score := confidence_score r; nlp_explanation := nlp_explanation r;
     status := resolved;
     detected_at := detected_at r;
     resolved_at := Some iso |}.

(** The fields a status update leaves alone. *)
Definition same_detection (r r' : ThreatDetection N) : Prop :=
  threat_id r' = threat_id r /\ user_id r' = user_id r
  /\ threat_type r' = threat_type r /\ severity_level r' = severity_level r
  /\ source_type r' = source_type r /\ source_content r' = source_content r
  /\ detected_patterns r' = detected_patterns r
  /\ confidence_score r' = confidence_score r
  /\ nlp_explanation r' = nlp_explanation r
  /\ detected_at r' = detected_at r.

(** The record the store keeps of a scan it accepts. *)
Definition stored_record (userId content sourceType : string) (w : World N)
  : ThreatDetection N :=
  let analysis := fst (analyzeThreatWithNLP content sourceType w) in
  {| threat_id := fresh_uuid (next_uuid w);
     user_id := userId;
     threat_type := threatType analysis;
     severity_level := severityLevel analysis;
     source_type := sourceType;
     source_content := content;
     detected_patterns := detectedPatterns analysis;
     confidence_score := confidenceScore analysis;
     nlp_explanation := nlpExplanation analysis;
     status := status_new;
     detected_at := now w;
     resolved_at := None |}.

(** The world once the catalog was read and record [r] was accepted. *)
Definition filed (r : ThreatDetection N) (w : World N) : World N :=
  {| now := now w; next_uuid := S (next_uuid w); faulty := faulty w;
     threat_patterns := threat_patterns w;
     threat_detections := (threat_detections w ++ [r])%list;
     detection_stats := detection_stats w;
     requests := (requests w ++ [Select T_threat_patterns; Insert T_threat_detections])%list;
     console := console w |}.

(** Scans of one user, each given as the reading of the clock, the content
    and the source type. *)
Definition scan_at (userId : string) (w : World N) (ev : string * string * string)
  : World N :=
  snd (scanCommunication userId (snd (fst ev)) (snd ev) (at_clock (fst (fst ev)) w)).

Definition scan_all (userId : string) (evs : list (string * string * string))
    (w : World N) : World N :=
  fold_left (scan_at userId) evs w.

(** The records of a user that are not rated [safe]. *)
Definition threats_of (userId : string) (w : World N) : list (ThreatDetection N) :=
  List.filter (fun r => negb (severity_eqb (severity_level r) safe)) (records_of userId w).

End FurtherNotions.

(** *** The stores and scans of the further examples *)


Definition evening_store : World float :=
  snd (scanCommunication "u1" urgent_mail "email"
         (at_clock "2025-11-03T18:30:00.000Z" scanned_store)).

(** The scanned store on the next morning. *)
Definition next_day_store : World float :=
  at_clock "2025-11-04T08:00:00.000Z" scanned_store.

(** A message that meets four patterns of the catalog. *)
Definition alarm_mail : string :=
  "URGENT official notice: wire transfer pending, click here".



(** Two scans of one day, with their content and source type. *)
Definition morning_event : string * string * string :=
  ("2025-11-03T10:19:26.000Z", urgent_mail, "email").
Definition evening_event : string * string * string :=
  ("2025-11-03T18:30:00.000Z", coffee_mail, "message").

(** ** Strings *)

Lemma app_cons (c : ascii) (t r : string) : String c t +:+ r = String c (t +:+ r).
Proof. reflexivity. Qed.

Lemma app_empty (r : string) : "" +:+ r = r.
Proof. reflexivity. Qed.

Lemma prefix_true_app (t s : string) :
  String.prefix t s = true <-> exists rest, s = t +:+ rest.
Proof.
  revert s. induction t as [|c t IH]; intros s.
  - split; [intros _; exists s; reflexivity | intros _; now destruct s].
  - destruct s as [|d s]; simpl.
    + split; [discriminate | intros [rest H]; discriminate].
    + destruct (ascii_dec c d) as [->|Hne].
      * rewrite IH. split; intros [rest H]; exists rest.
        -- rewrite app_cons. now rewrite H.
        -- rewrite app_cons in H. now inversion H.
      * split; [discriminate|]. intros [rest H]. rewrite app_cons in H. congruence.
Qed.

Lemma includes_unfold (s t : string) :
  includes s t =
  if String.prefix t s then true
  else match s with
       | EmptyString => false
       | String _ s' => includes s' t
       end.
Proof. destruct s; reflexivity. Qed.

(** [includes] decides the substring relation. *)
Lemma includes_true_iff (s t : string) :
  includes s t = true <-> exists before after, s = before +:+ t +:+ after.
Proof.
  induction s as [|c s IH]; rewrite includes_unfold.
  - destruct (String.prefix t "") eqn:Hp.
    + split; [intros _|reflexivity].
      apply prefix_true_app in Hp as [rest H]. exists "", rest. exact H.
    + split; [discriminate|]. intros (before & after & H).
      destruct before as [|d before].
      * rewrite app_empty in H.
        assert (String.prefix t "" = true) by (apply prefix_true_app; eauto).
        congruence.
      * rewrite app_cons in H. discriminate.
  - destruct (String.prefix t (String c s)) eqn:Hp.
    + split; [intros _|reflexivity].
      apply prefix_true_app in Hp as [rest H]. exists "", rest. exact H.
    + rewrite IH. split.
      * intros (before & after & H). exists (String c before), after.
        rewrite app_cons. now rewrite H.
      * intros (before & after & H). destruct before as [|d before].
        -- rewrite app_empty in H.
           assert (String.prefix t (String c s) = true) by (apply prefix_true_app; eauto).
           congruence.
        -- rewrite app_cons in H. inversion H. eauto.
Qed.

(** ** The matcher *)

Section MatcherFacts.
Context {N : Type} {num : JSNumber N} {str : JSStringOps}.

Lemma occurs_iff (content indicator : string) :
  occurs content indicator = true <-> occurs_in content indicator.
Proof. apply includes_true_iff. Qed.

(** A push-when loop is a filter appended to what was there. *)
Lemma push_loop_filter {A B} (keep : A -> bool) (item : A -> B) (l : list A) (acc : list B) :
  fold_left (fun acc x => if keep x then (acc ++ [item x])%list else acc) l acc
  = (acc ++ map item (List.filter keep l))%list.
Proof.
  revert acc. induction l as [|x l IH]; intros acc; simpl.
  - now rewrite app_nil_r.
  - rewrite IH. destruct (keep x); simpl; [|reflexivity].
    now rewrite <- app_assoc.
Qed.

Lemma matchIndicators_filter (content : string) (inds : list string) :
  matchIndicators (toLowerCase content) inds = List.filter (occurs content) inds.
Proof.
  pose proof (push_loop_filter (occurs content) (fun i => i) inds []) as H.
  simpl in H. rewrite map_id in H. exact H.
Qed.

Lemma nonempty_filter_existsb {A} (f : A -> bool) (l : list A) :
  (0 <? length (List.filter f l))%nat = existsb f l.
Proof.
  induction l as [|x l IH]; simpl; [reflexivity|].
  destruct (f x); simpl; [reflexivity | exact IH].
Qed.

Lemma matchPatterns_loop (content : string) (patterns : list (ThreatPattern N))
    (acc : list (MatchResult N)) :
  fold_left
    (fun detected p =>
       let matches := matchIndicators (toLowerCase content) (indicators p) in
       if (0 <? length matches)%nat
       then (detected ++ [{| pattern := p; matches := matches |}])%list else detected)
    patterns acc
  = (acc ++ map (fun p => {| pattern := p;
                             matches := List.filter (occurs content) (indicators p) |})
                (List.filter (matched content) patterns))%list.
Proof.
  revert acc. induction patterns as [|p ps IH]; intros acc; simpl.
  - now rewrite app_nil_r.
  - rewrite IH, matchIndicators_filter, nonempty_filter_existsb.
    fold (matched content p). destruct (matched content p); simpl; [|reflexivity].
    now rewrite <- app_assoc.
Qed.

(** The matcher's loops, as a filter and a map over the catalog. *)
Lemma matchPatterns_filter (content : string) (patterns : list (ThreatPattern N)) :
  matchPatterns (toLowerCase content) patterns
  = map (fun p => {| pattern := p;
                     matches := List.filter (occurs content) (indicators p) |})
        (List.filter (matched content) patterns).
Proof. apply (matchPatterns_loop content patterns []). Qed.

Lemma matchPatterns_patterns (content : string) (patterns : list (ThreatPattern N)) :
  map pattern (matchPatterns (toLowerCase content) patterns)
  = List.filter (matched content) patterns.
Proof.
  rewrite matchPatterns_filter, map_map. simpl. apply map_id.
Qed.

End MatcherFacts.

(** ** The scorer *)

Section ScorerFacts.
Context {N : Type} {num : JSNumber N} {str : JSStringOps}.

Lemma matched_iff (content : string) (p : ThreatPattern N) :
  matched content p = true <-> exists i, In i (indicators p) /\ occurs_in content i.
Proof.
  unfold matched. rewrite existsb_exists.
  split; intros (i & Hi & Ho); exists i; split; auto; now apply occurs_iff.
Qed.

Lemma detected_of_matched (content : string) (w : World N) :
  detected_of content w
  = map (fun p => {| pattern := p;
                     matches := List.filter (occurs content) (indicators p) |})
        (matched_patterns content w).
Proof. apply matchPatterns_filter. Qed.

Lemma totalWeight_fold (mk : ThreatPattern N -> MatchResult N) (ps : list (ThreatPattern N)) :
  (forall p, pattern (mk p) = p) ->
  totalWeight (map mk ps) = fold_left num_add (map severity_weight ps) (num_lit 0).
Proof.
  intros Hmk. unfold totalWeight. generalize (num_lit (N:=N) 0) as acc.
  induction ps as [|p ps IH]; intros acc; simpl; [reflexivity|].
  now rewrite Hmk, IH.
Qed.

(** The analysis, in each of its three cases. *)
Lemma analyze_unavailable (content sourceType : string) (w : World N) :
  faulty w T_threat_patterns = true ->
  analyzeThreatWithNLP content sourceType w
  = ({| threatType := "none"; severityLevel := safe; detectedPatterns := [];
        confidenceScore := num_lit 0;
        nlpExplanation := "No threats detected. This communication appears safe." |},
     logged (Select T_threat_patterns) w).
Proof.
  intros Hf. unfold analyzeThreatWithNLP, select_active_patterns, bind, issue, is_faulty.
  simpl. rewrite Hf. reflexivity.
Qed.

Lemma analyze_no_match (content sourceType : string) (w : World N) :
  faulty w T_threat_patterns = false ->
  matched_patterns content w = [] ->
  analyzeThreatWithNLP content sourceType w
  = ({| threatType := "none"; severityLevel := safe; detectedPatterns := [];
        confidenceScore := num_lit 95;
        nlpExplanation := "Analysis complete: No social engineering indicators detected. This communication appears legitimate and safe." |},
     logged (Select T_threat_patterns) w).
Proof.
  intros Hf Hm. pose proof (detected_of_matched content w) as Hd.
  rewrite Hm in Hd. unfold detected_of, active_patterns in Hd.
  unfold analyzeThreatWithNLP, select_active_patterns, bind, issue, is_faulty, read, ret.
  simpl. rewrite Hf. simpl. rewrite Hd. reflexivity.
Qed.

Lemma analyze_match (content sourceType : string) (w : World N)
    (p : ThreatPattern N) (ps : list (ThreatPattern N)) :
  faulty w T_threat_patterns = false ->
  matched_patterns content w = p :: ps ->
  let avg := mean (map severity_weight (p :: ps)) in
  let level :=
    if (avg >=? num_lit 0.9)%js then critical
    else if (avg >=? num_lit 0.75)%js then high
    else if (avg >=? num_lit 0.5)%js then medium
    else low in
  analyzeThreatWithNLP content sourceType w
  = ({| threatType := pattern_type p;
        severityLevel := level;
        detectedPatterns := map pattern_name (p :: ps);
        confidenceScore :=
          num_min (num_lit 95)
            (num_lit 50 + num_of_nat (length (p :: ps)) * num_lit 15 + avg * num_lit 20)%js;
        nlpExplanation :=
          generateNLPExplanation (detected_of content w) (severity_name level) sourceType |},
     logged (Select T_threat_patterns) w).
Proof.
  intros Hf Hm avg level. pose proof (detected_of_matched content w) as Hd.
  rewrite Hm in Hd.
  assert (Hlen : length (detected_of content w) = length (p :: ps))
    by (rewrite Hd; apply length_map).
  assert (Htot : totalWeight (detected_of content w)
                 = fold_left num_add (map severity_weight (p :: ps)) (num_lit 0))
    by (rewrite Hd; now apply totalWeight_fold).
  assert (Hnames : map (fun r => pattern_name (pattern r)) (detected_of content w)
                   = map pattern_name (p :: ps))
    by (rewrite Hd, map_map; reflexivity).
  unfold analyzeThreatWithNLP, select_active_patterns, bind, issue, is_faulty, read, ret.
  simpl. rewrite Hf. simpl. fold (active_patterns w). fold (detected_of content w).
  destruct (detected_of content w) as [|first rest] eqn:Hdet; [discriminate Hlen|].
  rewrite Hlen, Htot, Hnames.
  assert (Hfirst : pattern first = p) by (simpl in Hd; now inversion Hd).
  rewrite Hfirst. subst avg level. unfold mean. rewrite length_map. reflexivity.
Qed.

End ScorerFacts.

(** ** Properties of the matcher and the scorer *)

Section ScanProperties.
Context {N : Type} {num : JSNumber N} {str : JSStringOps}.

(** C4.  The matcher keeps exactly the patterns of which an indicator occurs
    in the content as a case-insensitive substring, in catalog order; each
    result carries all the occurring indicators of its pattern, in the order
    the pattern declares them. *)
Theorem matcher_reports_occurring_indicators
    (content : string) (patterns : list (ThreatPattern N)) :
  let results := matchPatterns (toLowerCase content) patterns in
  map pattern results = List.filter (matched content) patterns
  /\ (forall p, In p (map pattern results) <->
                In p patterns /\ exists i, In i (indicators p) /\ occurs_in content i)
  /\ (forall r, In r results ->
        matches r = List.filter (occurs content) (indicators (pattern r))
        /\ forall i, In i (matches r) <->
                     In i (indicators (pattern r)) /\ occurs_in content i).
Proof.
  intros results. subst results. split; [apply matchPatterns_patterns|]. split.
  - intros p. rewrite matchPatterns_patterns, filter_In, matched_iff. reflexivity.
  - intros r Hr. rewrite matchPatterns_filter in Hr.
    apply in_map_iff in Hr as (p & <- & _). simpl. split; [reflexivity|].
    intros i. rewrite filter_In, occurs_iff. reflexivity.
Qed.

(** C2.  The two safe outcomes: confidence 0 when the catalog could not be
    read, confidence 95 when it was read and nothing matched. *)
Theorem safe_outcomes (content sourceType : string) (w : World N) :
  let a := fst (analyzeThreatWithNLP content sourceType w) in
  (faulty w T_threat_patterns = true ->
     severityLevel a = safe /\ confidenceScore a = num_lit 0 /\ threatType a = "none")
  /\ (faulty w T_threat_patterns = false -> matched_patterns content w = [] ->
     severityLevel a = safe /\ confidenceScore a = num_lit 95 /\ threatType a = "none").
Proof.
  intros a. subst a. split.
  - intros Hf. rewrite (analyze_unavailable content sourceType w Hf). simpl. auto.
  - intros Hf Hm. rewrite (analyze_no_match content sourceType w Hf Hm). simpl. auto.
Qed.

(** C3.  The threat type is the category of the first matched pattern in
    catalog order, whatever the weights of the later ones. *)
Theorem threat_type_is_first_match (content sourceType : string) (w : World N)
    (p : ThreatPattern N) (later : list (ThreatPattern N)) :
  faulty w T_threat_patterns = false ->
  matched_patterns content w = p :: later ->
  threatType (fst (analyzeThreatWithNLP content sourceType w)) = pattern_type p.
Proof.
  intros Hf Hm. now rewrite (analyze_match content sourceType w p later Hf Hm).
Qed.

(** C9, as the code has it.  A scan without a match returns a fixed sentence
    of its own (one when the catalog could not be read, another when nothing
    matched): it has no per-pattern block and takes nothing from the severity
    table.  The table is consulted only when a pattern matched, and then
    never at its [safe] entry. *)
Theorem no_match_explanation_is_fixed_text (content sourceType : string) (w : World N) :
  let a := fst (analyzeThreatWithNLP content sourceType w) in
  (faulty w T_threat_patterns = true ->
     nlpExplanation a = "No threats detected. This communication appears safe.")
  /\ (faulty w T_threat_patterns = false -> matched_patterns content w = [] ->
     nlpExplanation a = "Analysis complete: No social engineering indicators detected. This communication appears legitimate and safe.")
  /\ (faulty w T_threat_patterns = true \/ matched_patterns content w = [] ->
     includes (nlpExplanation a) "DETECTED ATTACK PATTERNS" = false
     /\ includes (nlpExplanation a) "•" = false
     /\ includes (nlpExplanation a) (fst (severityTable (severity_name safe))) = false
     /\ includes (nlpExplanation a) (snd (severityTable (severity_name safe))) = false)
  /\ (faulty w T_threat_patterns = false -> matched_patterns content w <> [] ->
     severityLevel a <> safe
     /\ nlpExplanation a
        = generateNLPExplanation (detected_of content w)
            (severity_name (severityLevel a)) sourceType).
Proof.
  intros a. subst a. split; [|split; [|split]].
  - intros Hf. now rewrite (analyze_unavailable content sourceType w Hf).
  - intros Hf Hm. now rewrite (analyze_no_match content sourceType w Hf Hm).
  - intros H. destruct (faulty w T_threat_patterns) eqn:Hf.
    + rewrite (analyze_unavailable content sourceType w Hf). simpl.
      repeat split; vm_compute; reflexivity.
    + destruct H as [H|Hm]; [discriminate|].
      rewrite (analyze_no_match content sourceType w Hf Hm). simpl.
      repeat split; vm_compute; reflexivity.
  - intros Hf Hm. destruct (matched_patterns content w) as [|p ps] eqn:E; [contradiction|].
    rewrite (analyze_match content sourceType w p ps Hf E). simpl. split; [|reflexivity].
    repeat match goal with |- context [if ?c then _ else _] => destruct c end; discriminate.
Qed.

End ScanProperties.

(** ** Bounds, over exact arithmetic *)

Section ExactArithmetic.
Context {str : JSStringOps}.

Lemma sum_nonneg (ws : list Q) (acc : Q) :
  (0 <= acc)%Q -> (forall x, In x ws -> (0 <= x)%Q) ->
  (0 <= fold_left Qplus ws acc)%Q.
Proof.
  revert acc. induction ws as [|x ws IH]; intros acc Hacc Hws; simpl; [exact Hacc|].
  apply IH.
  - assert (0 <= x)%Q by (apply Hws; now left). lra.
  - intros y Hy. apply Hws. now right.
Qed.

Lemma count_at_least_one (k : nat) : (1 <= inject_Z (Z.of_nat (S k)))%Q.
Proof. unfold Qle. simpl. lia. Qed.

Lemma mean_nonneg (ws : list Q) :
  ws <> [] -> (forall x, In x ws -> (0 <= x)%Q) -> (0 <= mean ws)%Q.
Proof.
  intros Hne Hws. unfold mean.
  destruct ws as [|x ws']; [contradiction|].
  pose proof (count_at_least_one (length ws')) as Hc.
  change (num_of_nat (length (x :: ws'))) with (inject_Z (Z.of_nat (S (length ws')))).
  set (n := inject_Z (Z.of_nat (S (length ws')))) in *.
  change (@num_div Q JSNumber_Q) with Qdiv. change (@num_add Q JSNumber_Q) with Qplus.
  change (@num_lit Q JSNumber_Q 0) with 0%Q.
  apply Qle_shift_div_l; [lra|].
  rewrite Qmult_0_l. apply sum_nonneg; [lra | exact Hws].
Qed.

(** With a match and weights in [0,1] the confidence is at least 65 and the
    severity is not [safe]; here in exact arithmetic, on doubles below. *)
Lemma exact_confidence_floor (content sourceType : string) (w : World Q) :
  faulty w T_threat_patterns = false ->
  matched_patterns content w <> [] ->
  (forall p, In p (matched_patterns content w) ->
             (0 <= severity_weight p)%Q /\ (severity_weight p <= 1)%Q) ->
  let a := fst (analyzeThreatWithNLP content sourceType w) in
  (65 <= confidenceScore a)%Q
  /\ ~ ((0 < confidenceScore a)%Q /\ (confidenceScore a < 65)%Q)
  /\ severityLevel a <> safe.
Proof.
  intros Hf Hm Hw a.
  assert (Hfloor : (65 <= confidenceScore a)%Q).
  { subst a. destruct (matched_patterns content w) as [|p ps] eqn:E; [contradiction|].
    rewrite (analyze_match content sourceType w p ps Hf E). simpl confidenceScore.
    assert (Havg : (0 <= mean (map severity_weight (p :: ps)))%Q).
    { apply mean_nonneg; [discriminate|].
      intros x Hx. apply in_map_iff in Hx as (q & <- & Hq). now apply Hw. }
    pose proof (count_at_least_one (length ps)) as Hc.
    change (num_of_nat (length (p :: ps))) with (inject_Z (Z.of_nat (S (length ps)))).
    set (n := inject_Z (Z.of_nat (S (length ps)))) in *.
    set (avg := mean (map severity_weight (p :: ps))) in *.
    change (65 <= Qmin 95 (50 + n * 15 + avg * 20))%Q.
    apply Q.min_glb; lra. }
  split; [exact Hfloor|]. split; [lra|].
  subst a. destruct (matched_patterns content w) as [|p ps] eqn:E; [contradiction|].
  rewrite (analyze_match content sourceType w p ps Hf E). simpl.
  repeat match goal with |- context [if ?c then _ else _] => destruct c end; discriminate.
Qed.

End ExactArithmetic.

(** ** IEEE binary64: what the rounding of a positive quantity guarantees *)

(** The scorer adds, multiplies and divides non-negative doubles.  Over the
    specification of these operations, this module shows that the result of
    each stays non-negative, and at or above any integer below [2 ^ 53] that
    the exact result reaches: rounding is to the nearest double, and such an
    integer is one. *)
Module Binary64.

(** The number of binary digits. *)
Lemma digits2_bounds (p : positive) :
  2 ^ (Zpos (digits2_pos p) - 1) <= Zpos p < 2 ^ Zpos (digits2_pos p).
Proof.
  induction p as [p IH|p IH|]; simpl digits2_pos.
  - rewrite Pos2Z.inj_succ.
    replace (Z.succ (Zpos (digits2_pos p)) - 1) with (Z.succ (Zpos (digits2_pos p) - 1)) by lia.
    rewrite !Z.pow_succ_r by lia. lia.
  - rewrite Pos2Z.inj_succ.
    replace (Z.succ (Zpos (digits2_pos p)) - 1) with (Z.succ (Zpos (digits2_pos p) - 1)) by lia.
    rewrite !Z.pow_succ_r by lia. lia.
  - simpl. lia.
Qed.

Lemma Zdigits2_nonneg (m : Z) : 0 <= Zdigits2 m.
Proof. destruct m; simpl; lia. Qed.

Lemma Zdigits2_lt_pow (m : Z) : 0 <= m -> m < 2 ^ Zdigits2 m.
Proof.
  destruct m as [|p|p]; simpl; intros H; try lia.
  apply digits2_bounds.
Qed.

Lemma Zdigits2_le (m k : Z) : 0 <= m -> 0 <= k -> m < 2 ^ k -> Zdigits2 m <= k.
Proof.
  intros Hm Hk Hlt. destruct m as [|p|p]; simpl; try lia.
  destruct (Z_le_gt_dec (Zpos (digits2_pos p)) k) as [|Hgt]; [assumption|].
  pose proof (digits2_bounds p) as [Hlo _].
  assert (2 ^ k <= 2 ^ (Zpos (digits2_pos p) - 1)) by (apply Z.pow_le_mono_r; lia).
  lia.
Qed.

(** [shr_1] halves, [iter_pos shr_1 p] divides by [2 ^ p]. *)
Lemma shr_1_m (mrs : shr_record) :
  0 <= shr_m mrs -> shr_m (shr_1 mrs) = shr_m mrs / 2.
Proof.
  destruct mrs as [m r s]. simpl. intros Hm.
  destruct m as [|p|p]; try lia; [reflexivity|].
  destruct p as [p|p|]; simpl shr_m.
  - rewrite (Pos2Z.inj_xI p). apply Z.div_unique with (r := 1); lia.
  - rewrite (Pos2Z.inj_xO p). apply Z.div_unique with (r := 0); lia.
  - reflexivity.
Qed.

Lemma pow2_xI (p : positive) : 2 ^ Zpos p~1 = 2 * 2 ^ Zpos p * 2 ^ Zpos p.
Proof.
  rewrite (Pos2Z.inj_xI p), Z.add_1_r, Z.pow_succ_r, Z.pow_twice_r by lia. ring.
Qed.

Lemma pow2_xO (p : positive) : 2 ^ Zpos p~0 = 2 ^ Zpos p * 2 ^ Zpos p.
Proof.
  rewrite (Pos2Z.inj_xO p). apply Z.pow_twice_r.
Qed.

Lemma pow2_pos (k : Z) : 0 <= k -> 0 < 2 ^ k.
Proof. intros. apply Z.pow_pos_nonneg; lia. Qed.

Lemma iter_shr_1_m (p : positive) : forall mrs,
  0 <= shr_m mrs ->
  shr_m (SpecFloat.iter_pos shr_1 p mrs) = shr_m mrs / 2 ^ Zpos p.
Proof.
  induction p as [p IH|p IH|]; intros mrs Hm; simpl SpecFloat.iter_pos.
  - pose proof (pow2_pos (Zpos p) ltac:(lia)) as Hp.
    assert (H1 : 0 <= shr_m (shr_1 mrs)) by (rewrite shr_1_m by lia; apply Z.div_pos; lia).
    assert (H2 : 0 <= shr_m (SpecFloat.iter_pos shr_1 p (shr_1 mrs)))
      by (rewrite IH by lia; apply Z.div_pos; lia).
    rewrite IH, IH, shr_1_m by lia.
    rewrite pow2_xI, !Z.div_div by lia. f_equal. ring.
  - pose proof (pow2_pos (Zpos p) ltac:(lia)) as Hp.
    assert (H2 : 0 <= shr_m (SpecFloat.iter_pos shr_1 p mrs))
      by (rewrite IH by lia; apply Z.div_pos; lia).
    rewrite IH, IH by lia.
    rewrite pow2_xO, !Z.div_div by lia. f_equal.
  - rewrite shr_1_m by lia. reflexivity.
Qed.

Lemma shr_record_of_loc_m (m : Z) (l : location) : shr_m (shr_record_of_loc m l) = m.
Proof. destruct l as [|[]]; reflexivity. Qed.

(** One [shr_fexp]: the mantissa is divided by [2 ^ k], the exponent raised
    by [k], with [k] the gap to the target exponent when positive. *)
Lemma shr_fexp_spec (m e : Z) (l : location) :
  0 <= m ->
  let k := Z.max 0 (fexp prec emax (Zdigits2 m + e) - e) in
  shr_m (fst (shr_fexp prec emax m e l)) = m / 2 ^ k
  /\ snd (shr_fexp prec emax m e l) = e + k.
Proof.
  intros Hm k. unfold shr_fexp, shr. subst k.
  destruct (fexp prec emax (Zdigits2 m + e) - e) as [|p|p] eqn:E; simpl fst; simpl snd.
  - rewrite shr_record_of_loc_m. simpl. rewrite Z.div_1_r. lia.
  - rewrite iter_shr_1_m by (rewrite shr_record_of_loc_m; lia).
    rewrite shr_record_of_loc_m. rewrite Z.max_r by lia. split; reflexivity.
  - rewrite shr_record_of_loc_m. rewrite Z.max_l by lia. simpl. rewrite Z.div_1_r. lia.
Qed.

Lemma round_nearest_even_bounds (m : Z) (l : location) :
  m <= round_nearest_even m l <= m + 1.
Proof. destruct l as [|[]]; simpl; try lia. destruct (Z.even m); lia. Qed.

Lemma fexp64_eq (e : Z) : fexp prec emax e = fexp64 e.
Proof. reflexivity. Qed.

Lemma gap_nonneg (m e : Z) : 0 <= gap m e.
Proof. unfold gap. lia. Qed.

(** [binary_round_aux] on a non-negative mantissa, step by step: shift,
    round to [m2], shift again. *)
Lemma binary_round_aux_steps (mx ex : Z) (lx : location) :
  0 <= mx ->
  exists m2 : Z,
    mx / 2 ^ gap mx ex <= m2 <= mx / 2 ^ gap mx ex + 1
    /\ binary_round_aux prec emax false mx ex lx
       = match m2 / 2 ^ gap m2 (ex + gap mx ex) with
         | Z0 => S754_zero false
         | Zpos m =>
             if ex + gap mx ex + gap m2 (ex + gap mx ex) <=? 971
             then S754_finite false m (ex + gap mx ex + gap m2 (ex + gap mx ex))
             else S754_infinity false
         | Zneg _ => S754_nan
         end.
Proof.
  intros Hm. unfold binary_round_aux.
  pose proof (shr_fexp_spec mx ex lx Hm) as [H1 H1e].
  destruct (shr_fexp prec emax mx ex lx) as [mrs' e'] eqn:E1.
  simpl fst in H1. simpl snd in H1e. rewrite fexp64_eq in H1, H1e.
  fold (gap mx ex) in H1, H1e.
  set (m2 := round_nearest_even (shr_m mrs') (loc_of_shr_record mrs')).
  exists m2.
  pose proof (round_nearest_even_bounds (shr_m mrs') (loc_of_shr_record mrs')) as Hb.
  fold m2 in Hb. rewrite H1 in Hb.
  assert (Hm1 : 0 <= mx / 2 ^ gap mx ex)
    by (apply Z.div_pos; [lia | apply pow2_pos, gap_nonneg]).
  split; [exact Hb|].
  pose proof (shr_fexp_spec m2 e' loc_Exact ltac:(lia)) as [H2 H2e].
  destruct (shr_fexp prec emax m2 e' loc_Exact) as [mrs'' e''] eqn:E2.
  simpl fst in H2. simpl snd in H2e. rewrite fexp64_eq in H2, H2e.
  fold (gap m2 e') in H2, H2e. rewrite H1e in H2, H2e.
  rewrite H2, H2e. reflexivity.
Qed.

(** Rounding keeps the sign. *)
Lemma binary_round_aux_nonneg (mx ex : Z) (lx : location) :
  0 <= mx -> nonneg (binary_round_aux prec emax false mx ex lx).
Proof.
  intros Hm. destruct (binary_round_aux_steps mx ex lx Hm) as (m2 & Hb & ->).
  assert (0 <= mx / 2 ^ gap mx ex)
    by (apply Z.div_pos; [lia | apply pow2_pos, gap_nonneg]).
  assert (0 <= m2 / 2 ^ gap m2 (ex + gap mx ex))
    by (apply Z.div_pos; [lia | apply pow2_pos, gap_nonneg]).
  destruct (m2 / 2 ^ gap m2 (ex + gap mx ex)); simpl; try lia; auto.
  destruct (_ <=? 971); simpl; auto.
Qed.

Lemma Zdigits2_pos (m : Z) : 0 < m -> 1 <= Zdigits2 m.
Proof. destruct m as [|p|p]; intros H; try lia. unfold Zdigits2. lia. Qed.

(** A value of at least 1 has its leading bit at exponent 0 or above. *)
Lemma le_scaled_digits (v m e : Z) :
  1 <= v -> 0 < m -> le_scaled v m e -> 1 <= Zdigits2 m + e.
Proof.
  unfold le_scaled. intros Hv Hm H.
  destruct (Z_lt_le_dec (Zdigits2 m + e) 1) as [Hlt|]; [|assumption]. exfalso.
  pose proof (Zdigits2_lt_pow m ltac:(lia)) as Hd.
  pose proof (Zdigits2_pos m Hm) as Hn.
  assert (He : e < 0) by lia.
  rewrite (Z.max_r 0 (- e)), (Z.max_l 0 e) in H by lia.
  rewrite Z.pow_0_r, Z.mul_1_r in H.
  assert (2 ^ Zdigits2 m <= 2 ^ (- e)) by (apply Z.pow_le_mono_r; lia).
  pose proof (pow2_pos (- e) ltac:(lia)). nia.
Qed.

Lemma Zdigits2_ge_pow (m : Z) : 0 < m -> 2 ^ (Zdigits2 m - 1) <= m.
Proof.
  destruct m as [|p|p]; intros H; try lia. apply digits2_bounds.
Qed.

Lemma div_pow2_ge_1 (m k : Z) : 0 < m -> 0 <= k -> k <= Zdigits2 m - 1 -> 1 <= m / 2 ^ k.
Proof.
  intros Hm Hk Hd. apply Z.div_le_lower_bound; [apply pow2_pos; lia|].
  pose proof (Zdigits2_ge_pow m Hm).
  assert (2 ^ k <= 2 ^ (Zdigits2 m - 1)) by (apply Z.pow_le_mono_r; lia). lia.
Qed.

(** Rounding never goes below an integer the exact value reaches. *)
Lemma binary_round_aux_at_least (v mx ex : Z) (lx : location) :
  1 <= v < 2 ^ 53 -> 0 < mx -> le_scaled v mx ex ->
  valid_binary (binary_round_aux prec emax false mx ex lx) = true ->
  at_least v (binary_round_aux prec emax false mx ex lx).
Proof.
  intros Hv Hm Hle Hvalid.
  destruct (binary_round_aux_steps mx ex lx ltac:(lia)) as (m2 & Hb & Heq).
  rewrite Heq in *. clear Heq.
  pose proof (le_scaled_digits v mx ex ltac:(lia) Hm Hle) as HD.
  pose proof (Zdigits2_pos mx Hm) as Hdx.
  set (k1 := gap mx ex) in *.
  assert (Hk1 : 0 <= k1 <= Zdigits2 mx - 1) by (unfold k1, gap, fexp64; lia).
  assert (He1 : -1074 <= ex + k1) by (unfold k1, gap, fexp64; lia).
  assert (Hm1 : 1 <= mx / 2 ^ k1) by (apply div_pow2_ge_1; lia).
  assert (Hm2 : 0 < m2) by lia.
  pose proof (Zdigits2_pos m2 Hm2) as Hd2.
  set (k2 := gap m2 (ex + k1)) in *.
  assert (Hk2 : 0 <= k2 <= Zdigits2 m2 - 1) by (unfold k2, gap, fexp64; lia).
  assert (Hm3 : 1 <= m2 / 2 ^ k2) by (apply div_pow2_ge_1; lia).
  assert (Hfloor : mx / 2 ^ (k1 + k2) <= m2 / 2 ^ k2).
  { rewrite Z.pow_add_r, <- Z.div_div by (try lia; apply pow2_pos; lia).
    apply Z.div_le_mono; [apply pow2_pos; lia | lia]. }
  destruct (m2 / 2 ^ k2) as [|m3|m3] eqn:E3; try lia.
  destruct (ex + k1 + k2 <=? 971) eqn:Efin; [|exact I].
  simpl. simpl in Hvalid. unfold bounded, canonical_mantissa in Hvalid.
  apply andb_prop in Hvalid as [Hcan _]. apply Z.eqb_eq in Hcan.
  rewrite fexp64_eq in Hcan. unfold fexp64 in Hcan.
  set (e3 := ex + k1 + k2) in *.
  unfold le_scaled in *.
  destruct (Z_le_gt_dec e3 0) as [Hneg|Hpos].
  - assert (Hex : ex <= 0) by lia.
    rewrite (Z.max_r 0 (- e3)), (Z.max_l 0 e3), Z.pow_0_r, Z.mul_1_r by lia.
    rewrite (Z.max_r 0 (- ex)), (Z.max_l 0 ex), Z.pow_0_r, Z.mul_1_r in Hle by lia.
    apply Z.le_trans with (mx / 2 ^ (k1 + k2)); [|exact Hfloor].
    apply Z.div_le_lower_bound; [apply pow2_pos; lia|].
    replace (- ex) with ((k1 + k2) + (- e3)) in Hle by lia.
    rewrite Z.pow_add_r in Hle by lia. lia.
  - assert (Hd3 : Zpos (digits2_pos m3) = 53) by lia.
    pose proof (digits2_bounds m3) as [Hlo _]. rewrite Hd3 in Hlo.
    rewrite (Z.max_l 0 (- e3)), (Z.max_r 0 e3), Z.pow_0_r, Z.mul_1_r by lia.
    assert (2 ^ 1 <= 2 ^ e3) by (apply Z.pow_le_mono_r; lia).
    change (2 ^ 1) with 2 in *. change (2 ^ (53 - 1)) with 4503599627370496 in Hlo.
    change (2 ^ 53) with 9007199254740992 in Hv. nia.
Qed.

(** No overflow while the operands are small. *)
Lemma binary_round_aux_finite (mx ex : Z) (lx : location) :
  0 <= mx -> Zdigits2 mx <= 200 -> ex <= 200 ->
  match binary_round_aux prec emax false mx ex lx with
  | S754_infinity _ => False
  | _ => True
  end.
Proof.
  intros Hm Hd He.
  destruct (binary_round_aux_steps mx ex lx Hm) as (m2 & Hb & ->).
  set (k1 := gap mx ex) in *.
  assert (Hk1 : 0 <= k1) by apply gap_nonneg.
  assert (Hm1 : 0 <= mx / 2 ^ k1) by (apply Z.div_pos; [lia | apply pow2_pos; lia]).
  assert (Hm1' : mx / 2 ^ k1 <= mx).
  { apply Z.div_le_upper_bound; [apply pow2_pos; lia|].
    pose proof (pow2_pos k1 Hk1). nia. }
  pose proof (Zdigits2_lt_pow mx Hm) as Hlt.
  pose proof (Zdigits2_nonneg mx) as Hn.
  assert (Hd2 : Zdigits2 m2 <= Zdigits2 mx + 1).
  { apply Zdigits2_le; try lia. rewrite Z.pow_add_r, Z.pow_1_r by lia. lia. }
  pose proof (Zdigits2_nonneg m2) as Hn2.
  destruct (m2 / 2 ^ gap m2 (ex + k1)); try exact I.
  assert (Hle : ex + k1 + gap m2 (ex + k1) <= 971)
    by (unfold k1, gap, fexp64; lia).
  apply Z.leb_le in Hle. rewrite Hle. exact I.
Qed.

(** [le_scaled] with any common shift. *)
Lemma le_scaled_shift (v m e s : Z) :
  0 <= s -> 0 <= s + e ->
  (le_scaled v m e <-> v * 2 ^ s <= m * 2 ^ (s + e)).
Proof.
  intros Hs Hse. unfold le_scaled.
  set (a := Z.max 0 (- e)). set (b := Z.max 0 e).
  assert (Ha : 0 <= a <= s) by (unfold a; lia).
  assert (Hb : 0 <= b /\ s + e = b + (s - a)) by (unfold a, b; lia).
  destruct Hb as [Hb Hse']. rewrite Hse'.
  replace s with (a + (s - a)) at 1 by lia.
  rewrite !Z.pow_add_r by lia.
  pose proof (pow2_pos (s - a) ltac:(lia)) as Hp.
  split; intros H; nia.
Qed.

Lemma iter_xO (d m : positive) : Zpos (Pos.iter xO m d) = Zpos m * 2 ^ Zpos d.
Proof.
  induction d as [|d IH] using Pos.peano_ind.
  - simpl. lia.
  - rewrite Pos.iter_succ, (Pos2Z.inj_xO (Pos.iter xO m d)), IH, Pos2Z.inj_succ.
    rewrite Z.pow_succ_r by lia. ring.
Qed.

(** [shl_align] lowers the exponent and keeps the value. *)
Lemma shl_align_spec (mx : positive) (ex ex' : Z) :
  exists d, 0 <= d
    /\ Zpos (fst (shl_align mx ex ex')) = Zpos mx * 2 ^ d
    /\ snd (shl_align mx ex ex') = ex - d
    /\ (ex' < ex -> snd (shl_align mx ex ex') = ex')
    /\ (ex <= ex' -> d = 0).
Proof.
  unfold shl_align. destruct (ex' - ex) as [|p|p] eqn:E; simpl fst; simpl snd.
  - exists 0. rewrite Z.pow_0_r. repeat split; lia.
  - exists 0. rewrite Z.pow_0_r. repeat split; lia.
  - exists (Zpos p). rewrite iter_xO. repeat split; lia.
Qed.

Lemma le_scaled_shl (v m e d : Z) :
  0 <= d -> le_scaled v m e -> le_scaled v (m * 2 ^ d) (e - d).
Proof.
  intros Hd H.
  set (s := Z.max 0 (- e) + d).
  apply (le_scaled_shift v m e s) in H; [|unfold s; lia..].
  apply (le_scaled_shift v (m * 2 ^ d) (e - d) s); [unfold s; lia..|].
  replace (s + e) with (d + (s + (e - d))) in H by lia.
  rewrite Z.pow_add_r in H by (unfold s; lia). lia.
Qed.

Lemma Zdigits2_shl (m d : Z) : 0 < m -> 0 <= d -> Zdigits2 (m * 2 ^ d) <= Zdigits2 m + d.
Proof.
  intros Hm Hd. pose proof (pow2_pos d Hd). pose proof (Zdigits2_nonneg m).
  apply Zdigits2_le; try nia.
  rewrite Z.pow_add_r by lia. pose proof (Zdigits2_lt_pow m ltac:(lia)). nia.
Qed.

Lemma binary_round_nonneg (mx : positive) (ex : Z) :
  nonneg (binary_round prec emax false mx ex).
Proof.
  unfold binary_round.
  destruct (shl_align mx ex _) as [mz ez]. apply binary_round_aux_nonneg. lia.
Qed.

Lemma binary_round_at_least (v : Z) (mx : positive) (ex : Z) :
  1 <= v < 2 ^ 53 -> le_scaled v (Zpos mx) ex ->
  valid_binary (binary_round prec emax false mx ex) = true ->
  at_least v (binary_round prec emax false mx ex).
Proof.
  intros Hv Hle. unfold binary_round.
  destruct (shl_align_spec mx ex (fexp prec emax (Zpos (digits2_pos mx) + ex)))
    as (d & Hd & Hm & He & _).
  destruct (shl_align mx ex _) as [mz ez]. cbn [fst snd] in Hm, He.
  intros Hvalid. apply binary_round_aux_at_least; auto; try lia.
  rewrite Hm, He. now apply le_scaled_shl.
Qed.

Lemma binary_round_finite (mx : positive) (ex : Z) :
  Zpos (digits2_pos mx) <= 100 -> -100 <= ex <= 100 ->
  match binary_round prec emax false mx ex with
  | S754_infinity _ => False
  | _ => True
  end.
Proof.
  intros Hdig Hex. unfold binary_round.
  destruct (shl_align_spec mx ex (fexp prec emax (Zpos (digits2_pos mx) + ex)))
    as (d & Hd & Hm & He & Hlow & Hsame).
  rewrite fexp64_eq in *. unfold fexp64 in *.
  destruct (shl_align mx ex _) as [mz ez]. cbn [fst snd] in Hm, He, Hlow.
  assert (Hd' : d <= 53) by lia.
  apply binary_round_aux_finite; try lia.
  rewrite Hm. pose proof (Zdigits2_shl (Zpos mx) d ltac:(lia) Hd). simpl Zdigits2 in H at 2. lia.
Qed.

(** *** The operations *)

Lemma at_least_nonneg (v : Z) (f : spec_float) : at_least v f -> nonneg f.
Proof. destruct f as [s|[]| |[] m e]; simpl; auto. Qed.

Lemma at_least_weaken (v v' : Z) (f : spec_float) :
  v' <= v -> at_least v f -> at_least v' f.
Proof.
  intros Hv. destruct f as [s|[]| |[] m e]; simpl; auto.
  unfold le_scaled. intros H.
  pose proof (pow2_pos (Z.max 0 (- e)) ltac:(lia)). nia.
Qed.

(** The sum of two aligned positive mantissas. *)
Lemma SFadd_finite (mx my : positive) (ex ey : Z) :
  exists (mz : positive) (dx dy : Z),
    0 <= dx /\ 0 <= dy
    /\ Z.min ex ey = ex - dx /\ Z.min ex ey = ey - dy
    /\ Zpos mz = Zpos mx * 2 ^ dx + Zpos my * 2 ^ dy
    /\ SFadd prec emax (S754_finite false mx ex) (S754_finite false my ey)
       = binary_round prec emax false mz (Z.min ex ey).
Proof.
  unfold SFadd.
  destruct (shl_align_spec mx ex (Z.min ex ey)) as (dx & Hdx & Hmx & Hex & Hlx & Hsx).
  destruct (shl_align_spec my ey (Z.min ex ey)) as (dy & Hdy & Hmy & Hey & Hly & Hsy).
  destruct (shl_align mx ex (Z.min ex ey)) as [mx' ex'].
  destruct (shl_align my ey (Z.min ex ey)) as [my' ey'].
  cbn [fst snd] in *. unfold cond_Zopp.
  exists (mx' + my')%positive, dx, dy.
  split; [lia|]. split; [lia|]. split; [lia|]. split; [lia|].
  split; [rewrite Pos2Z.inj_add; lia | reflexivity].
Qed.

(** Sums: non-negative terms give a non-negative sum, and lower bounds add
    up. *)
Lemma SFadd_nonneg (x y : spec_float) :
  nonneg x -> nonneg y -> nonneg (SFadd prec emax x y).
Proof.
  intros Hx Hy.
  destruct x as [sx|[]| |[] mx ex]; simpl in Hx; try tauto;
    destruct y as [sy|[]| |[] my ey]; simpl in Hy; try tauto;
    try exact I.
  - destruct sx, sy; exact I.
  - destruct (SFadd_finite mx my ex ey) as (mz & dx & dy & _ & _ & _ & _ & _ & H).
    rewrite H. apply binary_round_nonneg.
Qed.

Lemma SFadd_at_least (a b : Z) (x y : spec_float) :
  1 <= a -> 0 <= b -> a + b < 2 ^ 53 ->
  at_least a x -> (b = 0 /\ nonneg y \/ at_least b y) ->
  valid_binary (SFadd prec emax x y) = true ->
  at_least (a + b) (SFadd prec emax x y).
Proof.
  intros Ha Hb Hab Hx Hy.
  assert (Hny : nonneg y) by (destruct Hy as [[_ H]|H]; [exact H | eapply at_least_nonneg, H]).
  destruct x as [sx|[]| |[] mx ex]; simpl in Hx; try tauto;
    destruct y as [sy|[]| |[] my ey]; simpl in Hny; try tauto;
    try (intros _; exact I).
  - intros _. destruct Hy as [[-> _]|H]; [|simpl in H; tauto].
    rewrite Z.add_0_r. exact Hx.
  - intros Hvalid.
    destruct (SFadd_finite mx my ex ey) as (mz & dx & dy & Hdx & Hdy & Hex & Hey & Hmz & H).
    rewrite H in *. apply binary_round_at_least; auto; try lia.
    set (ez := Z.min ex ey) in *.
    set (s := Z.max 0 (- ez)).
    apply (le_scaled_shift _ _ ez s); [unfold s; lia..|].
    apply (le_scaled_shl a (Zpos mx) ex dx Hdx) in Hx.
    replace (ex - dx) with ez in Hx by lia.
    apply (le_scaled_shift _ _ ez s) in Hx; [|unfold s; lia..].
    rewrite Hmz.
    destruct Hy as [[-> _]|Hy].
    + pose proof (pow2_pos dy Hdy). pose proof (pow2_pos (s + ez) ltac:(unfold s; lia)).
      nia.
    + simpl in Hy. apply (le_scaled_shl b (Zpos my) ey dy Hdy) in Hy.
      replace (ey - dy) with ez in Hy by lia.
      apply (le_scaled_shift _ _ ez s) in Hy; [|unfold s; lia..].
      nia.
Qed.

(** Products: lower bounds multiply. *)
Lemma le_scaled_mul (a b mx my ex ey : Z) :
  0 <= a -> 0 <= b -> 0 <= mx -> 0 <= my ->
  le_scaled a mx ex -> le_scaled b my ey -> le_scaled (a * b) (mx * my) (ex + ey).
Proof.
  intros Ha Hb Hmx Hmy Hx Hy.
  set (sx := Z.max 0 (- ex)). set (sy := Z.max 0 (- ey)).
  apply (le_scaled_shift _ _ ex sx) in Hx; [|unfold sx; lia..].
  apply (le_scaled_shift _ _ ey sy) in Hy; [|unfold sy; lia..].
  apply (le_scaled_shift _ _ (ex + ey) (sx + sy)); [unfold sx, sy; lia..|].
  replace (sx + sy + (ex + ey)) with ((sx + ex) + (sy + ey)) by lia.
  rewrite !Z.pow_add_r by (unfold sx, sy; lia).
  pose proof (pow2_pos sx ltac:(unfold sx; lia)).
  pose proof (pow2_pos sy ltac:(unfold sy; lia)).
  pose proof (pow2_pos (sx + ex) ltac:(unfold sx; lia)).
  pose proof (pow2_pos (sy + ey) ltac:(unfold sy; lia)).
  assert (0 <= a * 2 ^ sx) by nia. assert (0 <= b * 2 ^ sy) by nia.
  assert (a * 2 ^ sx * (b * 2 ^ sy) <= mx * 2 ^ (sx + ex) * (my * 2 ^ (sy + ey)))
    by (apply Z.mul_le_mono_nonneg; lia).
  lia.
Qed.

Lemma SFmul_at_least (a b : Z) (x y : spec_float) :
  1 <= a -> 1 <= b -> a * b < 2 ^ 53 ->
  at_least a x -> at_least b y ->
  valid_binary (SFmul prec emax x y) = true ->
  at_least (a * b) (SFmul prec emax x y).
Proof.
  intros Ha Hb Hab Hx Hy.
  destruct x as [sx|[]| |[] mx ex]; simpl in Hx; try tauto;
    destruct y as [sy|[]| |[] my ey]; simpl in Hy; try tauto;
    try (intros _; exact I).
  intros Hvalid. simpl SFmul in *.
  apply binary_round_aux_at_least; auto; try lia.
  rewrite Pos2Z.inj_mul. apply le_scaled_mul; auto; lia.
Qed.

Lemma SFmul_nonneg (x : spec_float) (my : positive) (ey : Z) :
  nonneg x -> nonneg (SFmul prec emax x (S754_finite false my ey)).
Proof.
  destruct x as [sx|[]| |[] mx ex]; simpl; try tauto; intros _.
  apply binary_round_aux_nonneg. lia.
Qed.

(** Quotients by a positive finite number keep the sign. *)
Lemma SFdiv_nonneg (x : spec_float) (my : positive) (ey : Z) :
  nonneg x -> nonneg (SFdiv prec emax x (S754_finite false my ey)).
Proof.
  destruct x as [sx|[]| |[] mx ex]; simpl; try tauto; intros _.
  unfold SFdiv_core_binary.
  set (m' := match _ with Zpos _ => Z.shiftl (Zpos mx) _ | Z0 => Zpos mx | Zneg _ => 0 end).
  assert (Hm' : 0 <= m').
  { unfold m'. destruct (_ - _ - _) as [|p|p]; try lia. apply Z.shiftl_nonneg. lia. }
  pose proof (Z_div_mod m' (Zpos my) ltac:(lia)) as Hdiv.
  destruct (Z.div_eucl m' (Zpos my)) as [q r].
  apply binary_round_aux_nonneg. nia.
Qed.

(** *** Primitive floats *)

Lemma valid_add (x y : float) : valid_binary (SFadd prec emax (Prim2SF x) (Prim2SF y)) = true.
Proof. rewrite <- FloatAxioms.add_spec. apply Prim2SF_valid. Qed.

Lemma valid_mul (x y : float) : valid_binary (SFmul prec emax (Prim2SF x) (Prim2SF y)) = true.
Proof. rewrite <- FloatAxioms.mul_spec. apply Prim2SF_valid. Qed.

(** The float of a positive integer below [2 ^ 63] is finite and at least 1. *)
Lemma of_uint63_at_least_1 (z : Z) :
  1 <= z < 2 ^ 63 ->
  exists m e, Prim2SF (of_uint63 (Uint63.of_Z z)) = S754_finite false m e
              /\ le_scaled 1 (Zpos m) e.
Proof.
  intros Hz.
  pose proof (Prim2SF_valid (of_uint63 (Uint63.of_Z z))) as Hvalid.
  assert (Hspec : Prim2SF (of_uint63 (Uint63.of_Z z)) = binary_normalize prec emax z 0 false).
  { rewrite FloatAxioms.of_uint63_spec, Uint63.of_Z_spec, Z.mod_small; [reflexivity|].
    change wB with (2 ^ 63). lia. }
  rewrite Hspec in *. clear Hspec.
  destruct z as [|p|p]; try lia. simpl binary_normalize in *.
  assert (Hle : le_scaled 1 (Zpos p) 0).
  { unfold le_scaled. change (1 * 2 ^ 0 <= Zpos p * 2 ^ 0). rewrite Z.pow_0_r. lia. }
  assert (Hone : 1 <= 1 < 2 ^ 53) by (split; [lia | reflexivity]).
  pose proof (binary_round_at_least 1 p 0 Hone Hle Hvalid) as Hal.
  assert (Hdig : Zpos (digits2_pos p) <= 100).
  { pose proof (Zdigits2_le (Zpos p) 63 ltac:(lia) ltac:(lia) ltac:(lia)) as H.
    change (Zdigits2 (Zpos p)) with (Zpos (digits2_pos p)) in H. lia. }
  pose proof (binary_round_finite p 0 Hdig ltac:(lia)) as Hfin.
  destruct (binary_round prec emax false p 0) as [s|s| |s m e];
    simpl in Hal, Hfin; try tauto.
  destruct s; [tauto|]. exists m, e. split; [reflexivity | exact Hal].
Qed.

(** Comparison with a normal number [mc * 2 ^ ec] that is the integer [v]. *)
Lemma SFleb_at_least (v : Z) (mc : positive) (ec : Z) (f : spec_float) :
  ec <= 0 -> Zpos mc = v * 2 ^ (- ec) -> 2 ^ 52 <= Zpos mc ->
  at_least v f -> valid_binary f = true ->
  SFleb (S754_finite false mc ec) f = true.
Proof.
  intros Hec Hmc Hnorm Hal Hvalid.
  destruct f as [s|[]| |[] m e]; simpl in Hal; try tauto; try reflexivity.
  unfold SFleb, SFcompare.
  simpl in Hvalid. unfold bounded, canonical_mantissa in Hvalid.
  apply andb_prop in Hvalid as [Hcan _]. apply Z.eqb_eq in Hcan.
  rewrite fexp64_eq in Hcan. unfold fexp64 in Hcan.
  unfold le_scaled in Hal.
  destruct (Z.compare_spec ec e) as [Heq|Hlt|Hgt]; [|reflexivity|].
  - subst e. rewrite (Z.max_r 0 (- ec)), (Z.max_l 0 ec), Z.pow_0_r, Z.mul_1_r in Hal by lia.
    rewrite <- Hmc in Hal.
    change (Pos.compare_cont Eq mc m) with (Pos.compare mc m).
    destruct (Pos.compare_spec mc m); try reflexivity. lia.
  - exfalso.
    rewrite (Z.max_r 0 (- e)), (Z.max_l 0 e), Z.pow_0_r, Z.mul_1_r in Hal by lia.
    pose proof (digits2_bounds m) as [_ Hup].
    assert (Hd : Zpos (digits2_pos m) <= 53) by lia.
    assert (2 ^ Zpos (digits2_pos m) <= 2 ^ 53) by (apply Z.pow_le_mono_r; lia).
    replace (- e) with (1 + (- ec) + (- e + ec - 1)) in Hal by lia.
    rewrite !Z.pow_add_r, Z.pow_1_r in Hal by lia.
    pose proof (pow2_pos (- e + ec - 1) ltac:(lia)).
    change (2 ^ 52) with 4503599627370496 in *.
    change (2 ^ 53) with 9007199254740992 in *.
    assert (0 < v) by (pose proof (pow2_pos (- ec) ltac:(lia)); nia).
    nia.
Qed.

(** A non-negative double is not NaN. *)
Lemma SFeqb_refl (f : spec_float) : nonneg f -> SFeqb f f = true.
Proof.
  destruct f as [s|[]| |[] m e]; simpl; try tauto; intros _; try reflexivity.
  unfold SFeqb, SFcompare. rewrite Z.compare_refl.
  change (Pos.compare_cont Eq m m) with (Pos.compare m m).
  now rewrite Pos.compare_refl.
Qed.

Lemma is_nan_nonneg (x : float) : nonneg (Prim2SF x) -> is_nan x = false.
Proof.
  intros H. unfold is_nan. rewrite FloatAxioms.eqb_spec, SFeqb_refl by exact H. reflexivity.
Qed.

Lemma SFltb_at_least (v : Z) (mc : positive) (ec : Z) (f : spec_float) :
  ec <= 0 -> Zpos mc = v * 2 ^ (- ec) -> 2 ^ 52 <= Zpos mc ->
  at_least v f -> valid_binary f = true ->
  SFltb f (S754_finite false mc ec) = false.
Proof.
  intros Hec Hmc Hnorm Hal Hvalid.
  destruct f as [s|[]| |[] m e]; simpl in Hal; try tauto; try reflexivity.
  unfold SFltb, SFcompare.
  simpl in Hvalid. unfold bounded, canonical_mantissa in Hvalid.
  apply andb_prop in Hvalid as [Hcan _]. apply Z.eqb_eq in Hcan.
  rewrite fexp64_eq in Hcan. unfold fexp64 in Hcan.
  unfold le_scaled in Hal.
  destruct (Z.compare_spec e ec) as [Heq|Hlt|Hgt]; [| |reflexivity].
  - subst e. rewrite (Z.max_r 0 (- ec)), (Z.max_l 0 ec), Z.pow_0_r, Z.mul_1_r in Hal by lia.
    rewrite <- Hmc in Hal.
    change (Pos.compare_cont Eq m mc) with (Pos.compare m mc).
    destruct (Pos.compare_spec m mc); try reflexivity. lia.
  - exfalso.
    rewrite (Z.max_r 0 (- e)), (Z.max_l 0 e), Z.pow_0_r, Z.mul_1_r in Hal by lia.
    pose proof (digits2_bounds m) as [_ Hup].
    assert (Hd : Zpos (digits2_pos m) <= 53) by lia.
    assert (2 ^ Zpos (digits2_pos m) <= 2 ^ 53) by (apply Z.pow_le_mono_r; lia).
    replace (- e) with (1 + (- ec) + (- e + ec - 1)) in Hal by lia.
    rewrite !Z.pow_add_r, Z.pow_1_r in Hal by lia.
    pose proof (pow2_pos (- e + ec - 1) ltac:(lia)).
    change (2 ^ 52) with 4503599627370496 in *.
    change (2 ^ 53) with 9007199254740992 in *.
    assert (0 < v) by (pose proof (pow2_pos (- ec) ltac:(lia)); nia).
    nia.
Qed.

(** The sum of weights that are at least 0. *)
Lemma leb_zero_nonneg (x : float) : (0 <=? x)%float = true -> nonneg (Prim2SF x).
Proof.
  rewrite FloatAxioms.leb_spec. change (Prim2SF 0) with (S754_zero false).
  destruct (Prim2SF x) as [s|[]| |[] m e]; simpl; auto; discriminate.
Qed.

Lemma sum_nonneg_float (ws : list float) (acc : float) :
  nonneg (Prim2SF acc) ->
  (forall x, In x ws -> (0 <=? x)%float = true) ->
  nonneg (Prim2SF (fold_left PrimFloat.add ws acc)).
Proof.
  revert acc. induction ws as [|x ws IH]; intros acc Hacc Hws; simpl; [exact Hacc|].
  apply IH.
  - rewrite FloatAxioms.add_spec. apply SFadd_nonneg; [exact Hacc|].
    apply leb_zero_nonneg, Hws. now left.
  - intros y Hy. apply Hws. now right.
Qed.

(** The confidence formula on doubles, before the cap at 95: with [len]
    matched patterns and a non-negative sum of weights it is at least 65. *)
Lemma confidence_floor_float (sum : float) (len : Z) :
  1 <= len < 2 ^ 63 ->
  nonneg (Prim2SF sum) ->
  let n := of_uint63 (Uint63.of_Z len) in
  let c := (50 + n * 15 + sum / n * 20)%float in
  at_least 65 (Prim2SF c).
Proof.
  intros Hlen Hsum n c.
  destruct (of_uint63_at_least_1 len Hlen) as (mn & en & Hn & Hn1). fold n in Hn.
  assert (Havg : nonneg (Prim2SF (sum / n))).
  { rewrite FloatAxioms.div_spec, Hn. now apply SFdiv_nonneg. }
  assert (Ht : nonneg (Prim2SF (sum / n * 20))).
  { rewrite FloatAxioms.mul_spec.
    change (Prim2SF 20) with (S754_finite false 5629499534213120 (-48)).
    now apply SFmul_nonneg. }
  assert (Hu : at_least 15 (Prim2SF (n * 15))).
  { rewrite FloatAxioms.mul_spec.
    apply (SFmul_at_least 1 15 _ _ ltac:(lia) ltac:(lia) ltac:(reflexivity)).
    - rewrite Hn. exact Hn1.
    - change (Prim2SF 15) with (S754_finite false 8444249301319680 (-49)).
      vm_compute. intros H; discriminate H.
    - apply valid_mul. }
  assert (Hs : at_least 65 (Prim2SF (50 + n * 15))).
  { rewrite FloatAxioms.add_spec.
    apply (SFadd_at_least 50 15 _ _ ltac:(lia) ltac:(lia) ltac:(reflexivity)).
    - change (Prim2SF 50) with (S754_finite false 7036874417766400 (-47)).
      vm_compute. intros H; discriminate H.
    - now right.
    - apply valid_add. }
  unfold c. rewrite FloatAxioms.add_spec.
  apply (SFadd_at_least 65 0 _ _ ltac:(lia) ltac:(lia) ltac:(reflexivity)).
  - exact Hs.
  - now left.
  - apply valid_add.
Qed.

End Binary64.

Import Binary64.

(** *** The scorer on doubles *)

(** [Math.min(95, c)] is at least 65 when [c] is. *)
Lemma float_min_95_at_least (c : float) :
  at_least 65 (Prim2SF c) ->
  (65 <=? float_min 95 c)%float = true /\ (float_min 95 c <? 65)%float = false.
Proof.
  intros Hc.
  assert (Hleb : (65 <=? c)%float = true /\ (c <? 65)%float = false).
  { rewrite FloatAxioms.leb_spec, FloatAxioms.ltb_spec.
    change (Prim2SF 65) with (S754_finite false 4573968371548160 (-46)).
    split; [apply (SFleb_at_least 65) | apply (SFltb_at_least 65)];
      try exact Hc; try apply Prim2SF_valid; try reflexivity;
      vm_compute; intros H; discriminate H. }
  unfold float_min.
  rewrite (is_nan_nonneg c) by (eapply at_least_nonneg, Hc).
  change (is_nan 95) with false. cbn [orb].
  destruct (95 <? c)%float; [split; reflexivity|].
  destruct (c <? 95)%float; [exact Hleb|].
  change (get_sign 95) with false. exact Hleb.
Qed.

Lemma float_of_Z_pos (z : Z) : 0 < z -> float_of_Z z = of_uint63 (Uint63.of_Z z).
Proof. destruct z; intros H; try lia. reflexivity. Qed.

(** A non-negative double lies above a positive one, below it, or is it. *)
Lemma SF_trichotomy (f : spec_float) (mc : positive) (ec : Z) :
  nonneg f ->
  SFltb (S754_finite false mc ec) f = true
  \/ SFltb f (S754_finite false mc ec) = true
  \/ f = S754_finite false mc ec.
Proof.
  destruct f as [s|[]| |[] m e]; cbn [nonneg]; intros Hn; try contradiction.
  - right. left. reflexivity.
  - left. reflexivity.
  - unfold SFltb, SFcompare.
    destruct (Z.compare_spec ec e) as [Heq|Hlt|Hgt].
    + subst e. rewrite Z.compare_refl.
      change (Pos.compare_cont Eq mc m) with (Pos.compare mc m).
      change (Pos.compare_cont Eq m mc) with (Pos.compare m mc).
      destruct (Pos.compare_spec mc m) as [Hm|Hm|Hm].
      * subst m. right. right. reflexivity.
      * left. reflexivity.
      * right. left. apply Pos.compare_lt_iff in Hm. now rewrite Hm.
    + left. reflexivity.
    + right. left. apply Z.compare_lt_iff in Hgt. now rewrite Hgt.
Qed.

(** Of two doubles, a positive one and another, one at most is below the
    other. *)
Lemma SFltb_asym (f : spec_float) (mc : positive) (ec : Z) :
  SFltb (S754_finite false mc ec) f = true ->
  SFltb f (S754_finite false mc ec) = false.
Proof.
  destruct f as [s|[]| |[] m e]; try reflexivity; try discriminate.
  unfold SFltb, SFcompare.
  destruct (Z.compare_spec ec e) as [Heq|Hlt|Hgt]; try discriminate.
  - subst e. rewrite Z.compare_refl.
    change (Pos.compare_cont Eq mc m) with (Pos.compare mc m).
    change (Pos.compare_cont Eq m mc) with (Pos.compare m mc).
    destruct (Pos.compare_spec mc m) as [Hm|Hm|Hm]; try discriminate.
    intros _. apply Pos.compare_gt_iff in Hm. now rewrite Hm.
  - intros _. apply Z.compare_gt_iff in Hlt. now rewrite Hlt.
Qed.

(** [Math.min(95, c)] for a [c] that is not negative: [c] when it is below
    95, and 95 otherwise. *)
Lemma float_min_95_cases (c : float) :
  nonneg (Prim2SF c) ->
  float_min 95 c = if (c <? 95)%float then c else 95%float.
Proof.
  intros Hc. unfold float_min. rewrite (is_nan_nonneg c Hc).
  change (is_nan 95) with false. cbn [orb].
  destruct (95 <? c)%float eqn:E1.
  - rewrite FloatAxioms.ltb_spec in E1. rewrite FloatAxioms.ltb_spec.
    change (Prim2SF 95) with (S754_finite false 6685030696878080 (-46)) in *.
    now rewrite (SFltb_asym _ _ _ E1).
  - destruct (c <? 95)%float eqn:E2; [reflexivity|].
    change (get_sign 95) with false. cbv iota.
    rewrite FloatAxioms.ltb_spec in E1, E2.
    change (Prim2SF 95) with (S754_finite false 6685030696878080 (-46)) in E1, E2.
    destruct (SF_trichotomy (Prim2SF c) 6685030696878080 (-46) Hc) as [H|[H|H]];
      try congruence.
    apply Prim2SF_inj. rewrite H. reflexivity.
Qed.

Section ScorerOnDoubles.
Context {str : JSStringOps}.

(** C10.  On the engine's doubles: with a match and weights in [0,1] the
    confidence is at least 65 - so never strictly between 0 and 65 - and the
    severity is not [safe].  The matched patterns are a JavaScript array, of
    fewer than [2 ^ 32] elements. *)
Theorem matched_scan_confidence_floor (content sourceType : string) (w : World float) :
  faulty w T_threat_patterns = false ->
  matched_patterns content w <> [] ->
  Z.of_nat (length (matched_patterns content w)) < 2 ^ 32 ->
  (forall p, In p (matched_patterns content w) ->
             (0 <=? severity_weight p)%float = true
             /\ (severity_weight p <=? 1)%float = true) ->
  let a := fst (analyzeThreatWithNLP content sourceType w) in
  (65 <=? confidenceScore a)%float = true
  /\ (confidenceScore a <? 65)%float = false
  /\ severityLevel a <> safe.
Proof.
  intros Hf Hm Hlen Hw a. subst a.
  destruct (matched_patterns content w) as [|p ps] eqn:E; [contradiction|].
  rewrite (analyze_match content sourceType w p ps Hf E).
  cbn [fst confidenceScore severityLevel]. apply and_assoc. split.
  - unfold mean. rewrite length_map.
    set (ws := map severity_weight (p :: ps)).
    set (sum := fold_left PrimFloat.add ws 0%float).
    set (len := Z.of_nat (length (p :: ps))) in *.
    assert (Hsum : nonneg (Prim2SF sum)).
    { apply sum_nonneg_float; [exact I|].
      intros x Hx. apply in_map_iff in Hx as (q & <- & Hq). now apply Hw. }
    assert (Hlen' : 1 <= len < 2 ^ 63).
    { split; [unfold len; simpl length; lia|].
      apply Z.lt_trans with (2 ^ 32); [exact Hlen | reflexivity]. }
    pose proof (confidence_floor_float sum len Hlen' Hsum) as Hc. cbv zeta in Hc.
    rewrite <- (float_of_Z_pos len) in Hc by lia.
    apply float_min_95_at_least in Hc.
    assert (Hlit : num_lit (N:=float) 95 = 95%float /\ num_lit (N:=float) 50 = 50%float
                   /\ num_lit (N:=float) 15 = 15%float /\ num_lit (N:=float) 20 = 20%float
                   /\ num_lit (N:=float) 0 = 0%float)
      by (vm_compute; repeat split).
    destruct Hlit as (-> & -> & -> & -> & ->). exact Hc.
  - repeat match goal with |- context [if ?c then _ else _] => destruct c end; discriminate.
Qed.

(** C1, as the code has it.  The scorer computes on doubles.  With a
    match, weights in [0,1] and fewer than [2 ^ 32] matched patterns (they
    are a JavaScript array), the confidence is
    [50 + count * 15 + avg_weight * 20] when that double is below 95, and 95
    otherwise, where [avg_weight] is the double got by adding the matched
    weights from the left onto 0 and dividing by their number; the severity
    is the first rung that this double reaches of 0.9 (the double
    [0x1.ccccccccccccdp-1] that the literal denotes), 0.75 and 0.5,
    inclusively, and [low] below.  The ladder reads the double, not the
    exact mean of the weights. *)
Theorem scorer_confidence_and_severity_on_doubles
    (content sourceType : string) (w : World float) :
  faulty w T_threat_patterns = false ->
  matched_patterns content w <> [] ->
  Z.of_nat (length (matched_patterns content w)) < 2 ^ 32 ->
  (forall p, In p (matched_patterns content w) ->
             (0 <=? severity_weight p)%float = true
             /\ (severity_weight p <=? 1)%float = true) ->
  let a := fst (analyzeThreatWithNLP content sourceType w) in
  let count := of_uint63 (Uint63.of_Z (Z.of_nat (length (matched_patterns content w)))) in
  let total_weight :=
    fold_left PrimFloat.add (map severity_weight (matched_patterns content w)) 0%float in
  let avg_weight := (total_weight / count)%float in
  let raw := (50 + count * 15 + avg_weight * 20)%float in
  confidenceScore a = (if (raw <? 95)%float then raw else 95%float)
  /\ severityLevel a
     = (if (0x1.ccccccccccccdp-1 <=? avg_weight)%float then critical
        else if (0.75 <=? avg_weight)%float then high
        else if (0.5 <=? avg_weight)%float then medium
        else low).
Proof.
  intros Hf Hm Hlen Hw a count total_weight avg_weight raw.
  subst a count total_weight avg_weight raw.
  destruct (matched_patterns content w) as [|p ps] eqn:E; [contradiction|].
  rewrite (analyze_match content sourceType w p ps Hf E).
  cbn [fst confidenceScore severityLevel]. unfold mean. rewrite length_map.
  set (ws := map severity_weight (p :: ps)).
  set (sum := fold_left PrimFloat.add ws 0%float).
  set (len := Z.of_nat (length (p :: ps))) in *.
  assert (Hsum : nonneg (Prim2SF sum)).
  { apply sum_nonneg_float; [exact I|].
    intros x Hx. apply in_map_iff in Hx as (q & <- & Hq). now apply Hw. }
  assert (Hlen' : 1 <= len < 2 ^ 63).
  { split; [unfold len; simpl length; lia|].
    apply Z.lt_trans with (2 ^ 32); [exact Hlen | reflexivity]. }
  pose proof (confidence_floor_float sum len Hlen' Hsum) as Hc. cbv zeta in Hc.
  apply at_least_nonneg, float_min_95_cases in Hc.
  assert (Hcount : num_of_nat (length (p :: ps)) = of_uint63 (Uint63.of_Z len))
    by (apply float_of_Z_pos; lia).
  rewrite Hcount.
  assert (Hlit : num_lit (N:=float) 95 = 95%float /\ num_lit (N:=float) 50 = 50%float
                 /\ num_lit (N:=float) 15 = 15%float /\ num_lit (N:=float) 20 = 20%float
                 /\ num_lit (N:=float) 0 = 0%float
                 /\ num_lit (N:=float) 0.9 = 0x1.ccccccccccccdp-1%float
                 /\ num_lit (N:=float) 0.75 = 0.75%float
                 /\ num_lit (N:=float) 0.5 = 0.5%float)
    by (vm_compute; repeat split).
  destruct Hlit as (-> & -> & -> & -> & -> & -> & -> & ->).
  split; [exact Hc | reflexivity].
Qed.

End ScorerOnDoubles.

(** ** The daily counters *)

Section StatsFacts.
Context {N : Type}.


Lemma zero_counts_lookup (k : string) : default 0 (zero_counts !! k) = 0.
Proof.
  unfold zero_counts.
  repeat (rewrite lookup_insert; case_decide; [reflexivity|]).
  now rewrite lookup_empty.
Qed.


Lemma stats_rows_map (f : DetectionStats -> DetectionStats) (u d : string)
    (rows : list DetectionStats) :
  (forall x, stats_user_id (f x) = stats_user_id x /\ date (f x) = date x) ->
  stats_rows u d (map f rows) = map f (stats_rows u d rows).
Proof.
  intros Hf. unfold stats_rows. induction rows as [|x rows IH]; simpl; [reflexivity|].
  destruct (Hf x) as [-> ->]. rewrite IH.
  now destruct (String.eqb (stats_user_id x) u && String.eqb (date x) d).
Qed.

Lemma stats_rows_app (u d : string) (rows rows' : list DetectionStats) :
  stats_rows u d (rows ++ rows') = (stats_rows u d rows ++ stats_rows u d rows')%list.
Proof. apply List.filter_app. Qed.

End StatsFacts.

Section AggregatorFacts.
Context {N : Type}.

Lemma stats_rows_member (u d : string) (rows : list DetectionStats) (r : DetectionStats) :
  In r (stats_rows u d rows) -> stats_user_id r = u /\ date r = d.
Proof.
  unfold stats_rows. rewrite filter_In. intros [_ H].
  apply andb_prop in H as [Hu Hd].
  now apply String.eqb_eq in Hu, Hd.
Qed.

Lemma updateUserStats_creates (u s : string) (w : World N) :
  faulty w T_detection_stats = false ->
  stats_rows u (split_head "T" (now w)) (detection_stats w) = [] ->
  detection_stats (snd (updateUserStats u s w))
  = (detection_stats w
       ++ [created_row (fresh_uuid (next_uuid w)) u (split_head "T" (now w)) s])%list.
Proof.
  intros Hf Hrows.
  unfold updateUserStats, select_detection_stats, insert_detection_stats,
    set_detection_stats, toISOString_now, bind, ret, issue, is_faulty, read.
  simpl. rewrite Hf. simpl. rewrite Hrows. simpl. rewrite Hf. simpl.
  rewrite Hrows. reflexivity.
Qed.

Lemma updateUserStats_updates (u s : string) (w : World N) (r : DetectionStats) :
  faulty w T_detection_stats = false ->
  stats_rows u (split_head "T" (now w)) (detection_stats w) = [r] ->
  detection_stats (snd (updateUserStats u s w))
  = map (fun x => if String.eqb (stats_id x) (stats_id r)
                  then {| stats_id := stats_id x; stats_user_id := stats_user_id x;
                          date := date x;
                          total_scanned := total_scanned r + 1;
                          threats_detected :=
                            threats_detected r
                            + (if String.eqb s "safe" then 0 else 1);
                          false_positives := false_positives x;
                          threats_by_severity :=
                            <[s := default 0 (threats_by_severity r !! s) + 1]>
                              (threats_by_severity r) |}
                  else x)
        (detection_stats w).
Proof.
  intros Hf Hrows.
  unfold updateUserStats, select_detection_stats, update_detection_stats,
    set_detection_stats, toISOString_now, bind, ret, issue, is_faulty, read.
  simpl. rewrite Hf. simpl. rewrite Hrows. simpl. rewrite Hf. reflexivity.
Qed.

(** The aggregator touches nothing but [detection_stats], the identifier
    counter and the trace, on which it only adds requests on that table. *)
Lemma updateUserStats_frame (u s : string) (w : World N) :
  let w' := snd (updateUserStats u s w) in
  faulty w' = faulty w /\ now w' = now w
  /\ threat_patterns w' = threat_patterns w
  /\ threat_detections w' = threat_detections w
  /\ console w' = console w
  /\ exists op, requests w'
                = (requests w ++ [Select T_detection_stats; op T_detection_stats])%list.
Proof.
  unfold updateUserStats, select_detection_stats, update_detection_stats,
    insert_detection_stats, set_detection_stats, toISOString_now,
    bind, ret, issue, is_faulty, read.
  simpl. destruct (faulty w T_detection_stats) eqn:Hf; simpl.
  - rewrite Hf. simpl. repeat split; try reflexivity.
    exists Insert. now rewrite <- app_assoc.
  - destruct (maybeSingle _) as [r|]; simpl; rewrite Hf; simpl.
    + repeat split; try reflexivity. exists Update. now rewrite <- app_assoc.
    + destruct (stats_rows _ _ _); simpl; repeat split; try reflexivity;
        exists Insert; now rewrite <- app_assoc.
Qed.

Lemma record_scan_faulty (u : string) (ev : string * string) (w : World N) :
  faulty (record_scan u ev w) = faulty w.
Proof.
  unfold record_scan.
  destruct (updateUserStats_frame u (snd ev) (at_clock (fst ev) w)) as (H & _).
  exact H.
Qed.

Lemma record_scan_first (u d : string) (ev : string * string) (w : World N) :
  faulty w T_detection_stats = false ->
  stats_rows u d (detection_stats w) = [] ->
  split_head "T" (fst ev) = d ->
  stats_rows u d (detection_stats (record_scan u ev w))
  = [created_row (fresh_uuid (next_uuid w)) u d (snd ev)].
Proof.
  intros Hf Hrows Hd. unfold record_scan.
  rewrite updateUserStats_creates; simpl; rewrite ?Hd; auto.
  rewrite stats_rows_app, Hrows. simpl.
  unfold stats_rows. simpl. now rewrite !String.eqb_refl.
Qed.

Lemma record_scan_next (u d : string) (ev : string * string) (w : World N)
    (r : DetectionStats) :
  faulty w T_detection_stats = false ->
  stats_rows u d (detection_stats w) = [r] ->
  split_head "T" (fst ev) = d ->
  stats_rows u d (detection_stats (record_scan u ev w)) = [bumped_row (snd ev) r].
Proof.
  intros Hf Hrows Hd. unfold record_scan.
  rewrite (updateUserStats_updates u (snd ev) (at_clock (fst ev) w) r);
    simpl; rewrite ?Hd; auto.
  rewrite stats_rows_map.
  - rewrite Hrows. simpl. now rewrite String.eqb_refl.
  - intros x. now destruct (String.eqb (stats_id x) (stats_id r)).
Qed.




Lemma in_take {A} (x : A) (k : nat) (l : list A) : In x (take k l) -> In x l.
Proof.
  revert k. induction l as [|y l IH]; intros [|k]; simpl; try tauto.
  intros [->|H]; [now left | right; eauto].
Qed.



End AggregatorFacts.

(** ** The scan orchestrator and the status updates *)

Section OrchestratorFacts.
Context {N : Type} {num : JSNumber N} {str : JSStringOps}.

(** The analysis leaves the world as it found it, the catalog request logged. *)
Lemma analyze_world (content sourceType : string) (w : World N) :
  snd (analyzeThreatWithNLP content sourceType w) = logged (Select T_threat_patterns) w.
Proof.
  destruct (faulty w T_threat_patterns) eqn:Hf.
  - now rewrite analyze_unavailable.
  - destruct (matched_patterns content w) as [|p ps] eqn:E.
    + now rewrite analyze_no_match.
    + now rewrite (analyze_match content sourceType w p ps Hf E).
Qed.

Lemma scan_unfold (userId content sourceType : string) (w : World N) :
  scanCommunication userId content sourceType w
  = (let (response, w2) :=
       insert_threat_detection (scan_row userId content sourceType w)
         (logged (Select T_threat_patterns) w) in
     match error response with
     | Some _ =>
         (None, snd (console_error "Error saving threat detection:" w2))
     | None =>
         (data response,
          snd (updateUserStats userId
                 (severity_name (severityLevel
                    (fst (analyzeThreatWithNLP content sourceType w)))) w2))
     end).
Proof.
  unfold scanCommunication, bind at 1. unfold scan_row.
  rewrite <- (analyze_world content sourceType w).
  destruct (analyzeThreatWithNLP content sourceType w) as [analysis w1]. simpl.
  unfold bind at 1.
  destruct (insert_threat_detection _ w1) as [response w2].
  destruct (error response); unfold bind, ret; simpl.
  - reflexivity.
  - match goal with |- context [updateUserStats ?u ?s w2] =>
      now destruct (updateUserStats u s w2)
    end.
Qed.

(** C8.  When the store refuses the record, the scan answers [null] and the
    aggregator is not called: no request on [detection_stats] is issued and
    the table is as it was. *)
Theorem scan_persistence_failure (userId content sourceType : string) (w : World N) :
  faulty w T_threat_detections = true ->
  let result := scanCommunication userId content sourceType w in
  fst result = None
  /\ requests (snd result)
     = (requests w ++ [Select T_threat_patterns; Insert T_threat_detections])%list
  /\ detection_stats (snd result) = detection_stats w
  /\ threat_detections (snd result) = threat_detections w
  /\ console (snd result) = (console w ++ ["Error saving threat detection:"])%list.
Proof.
  intros Hf result. subst result. rewrite scan_unfold.
  unfold insert_threat_detection, logged, console_error, bind, ret, issue, is_faulty.
  simpl. rewrite Hf. simpl. repeat split; try reflexivity.
  now rewrite <- app_assoc.
Qed.

(** C7, as the code has it.  The scan checks neither its content nor its
    source type: whatever they are it queries the catalog and sends the
    record to the store, which keeps both verbatim.  Blank content is stopped
    one level up, by the scanner form, which then returns without a word and
    without a request; the form's source type is one of the four by its
    type. *)
Theorem scan_validates_nothing (userId content sourceType : string) (st : SourceType)
    (w : World N) :
  let result := scanCommunication userId content sourceType w in
  (exists later, requests (snd result)
     = (requests w ++ [Select T_threat_patterns; Insert T_threat_detections] ++ later)%list)
  /\ (faulty w T_threat_detections = false ->
      exists r, fst result = Some r
        /\ user_id r = userId /\ source_type r = sourceType
        /\ source_content r = content /\ status r = status_new
        /\ threat_detections (snd result) = (threat_detections w ++ [r])%list)
  /\ (trim content = "" -> handleScan userId content st w = (tt, w))
  /\ (trim content <> "" ->
      handleScan userId content st w
      = (tt, snd (scanCommunication userId content (source_type_name st) w))).
Proof.
  intros result. subst result. split; [|split; [|split]].
  - rewrite scan_unfold.
    unfold insert_threat_detection, set_threat_detections, logged, console_error,
      bind, ret, issue, is_faulty, read.
    simpl. destruct (faulty w T_threat_detections); simpl.
    + exists []. now rewrite <- app_assoc.
    + match goal with |- context [updateUserStats ?u ?s ?w2] =>
        destruct (updateUserStats_frame u s w2) as (_ & _ & _ & _ & _ & op & Hreq)
      end.
      rewrite Hreq. simpl. exists [Select T_detection_stats; op T_detection_stats].
      now rewrite <- !app_assoc.
  - intros Hf. rewrite scan_unfold.
    unfold insert_threat_detection, set_threat_detections, logged,
      bind, ret, issue, is_faulty, read.
    simpl. rewrite Hf. simpl.
    match goal with |- context [updateUserStats ?u ?s ?w2] =>
      destruct (updateUserStats_frame u s w2) as (_ & _ & _ & Hdet & _)
    end.
    eexists. split; [reflexivity|]. rewrite Hdet. simpl. repeat split; reflexivity.
  - intros Hblank. unfold handleScan. now rewrite Hblank.
  - intros Hblank. unfold handleScan.
    destruct (String.eqb (trim content) "") eqn:E.
    + apply String.eqb_eq in E. contradiction.
    + unfold bind, ret. now destruct (scanCommunication _ _ _ w).
Qed.

Lemma lookup_map {A B} (f : A -> B) (l : list A) (i : nat) :
  map f l !! i = option_map f (l !! i).
Proof.
  revert i. induction l as [|x l IH]; intros [|i]; simpl; try reflexivity. apply IH.
Qed.

(** C5, as the code has it.  The status updates do not look at the current
    status.  On a record in any status, acknowledge sets [acknowledged] and
    leaves [resolved_at] as it was, resolve sets [resolved] and stamps
    [resolved_at] with the clock; other records stay.  The gate is the threat
    card, which offers acknowledge for [new] records only and resolve for
    [new] and [acknowledged] ones only. *)
Theorem status_updates_are_unconditional (threatId : string) (w : World N) :
  faulty w T_threat_detections = false ->
  let acked := threat_detections (snd (markThreatAcknowledged threatId w)) in
  let settled := threat_detections (snd (markThreatResolved threatId w)) in
  (forall i r, threat_detections w !! i = Some r -> threat_id r = threatId ->
     (exists r', acked !! i = Some r'
        /\ status r' = acknowledged /\ resolved_at r' = resolved_at r)
     /\ (exists r', settled !! i = Some r'
        /\ status r' = resolved /\ resolved_at r' = Some (now w)))
  /\ (forall i r, threat_detections w !! i = Some r -> threat_id r <> threatId ->
     acked !! i = Some r /\ settled !! i = Some r)
  /\ (forall s, In Acknowledge (cardActions s) <-> s = status_new)
  /\ (forall s, In Resolve (cardActions s) <-> s = status_new \/ s = acknowledged).
Proof.
  intros Hf acked settled. subst acked settled.
  unfold markThreatAcknowledged, markThreatResolved, update_threat_detection,
    set_threat_detections, toISOString_now, bind, ret, issue, is_faulty, read.
  simpl. rewrite Hf. simpl. split; [|split; [|split]].
  - intros i r Hi Hid. rewrite !lookup_map, Hi. simpl.
    apply String.eqb_eq in Hid. rewrite Hid. split; eexists; repeat split; reflexivity.
  - intros i r Hi Hid. rewrite !lookup_map, Hi. simpl.
    apply String.eqb_neq in Hid. rewrite Hid. split; reflexivity.
  - intros s. destruct s; simpl; intuition discriminate.
  - intros s. destruct s; simpl; intuition discriminate.
Qed.

End OrchestratorFacts.

(** ** Worked examples, on IEEE doubles *)

Example urgent_mail_scenario :
  threatType urgent_analysis = "urgency_manipulation"
  /\ severityLevel urgent_analysis = high
  /\ confidenceScore urgent_analysis = 95%float
  /\ detectedPatterns urgent_analysis = ["Urgent Action Required"; "Suspicious Links"].
Proof. vm_compute. repeat split. Qed.

(** The thresholds are inclusive: a lone pattern weighted 0.90 rates
    critical, one weighted 0.75 high, and one weighted 0.70 medium. *)
Example thresholds_are_inclusive :
  matched_patterns "see bit.ly/xyz" store = [suspicious_links]
  /\ severityLevel (fst (analyzeThreatWithNLP "see bit.ly/xyz" "link" store)) = critical
  /\ matched_patterns "act now" store = [urgent_action]
  /\ severityLevel (fst (analyzeThreatWithNLP "act now" "message" store)) = high
  /\ matched_patterns "need help" store = [emotional_manipulation]
  /\ severityLevel (fst (analyzeThreatWithNLP "need help" "other" store)) = medium
  /\ confidenceScore (fst (analyzeThreatWithNLP "need help" "other" store)) = 79%float.
Proof. vm_compute. repeat split. Qed.

(** C1, as stated, fails on the seeded catalog.  The message meets the
    patterns weighted 0.85 and 0.95, whose mean is 0.90: at the threshold,
    so [critical] by the statement, and so it is in exact arithmetic.  The
    engine adds and halves doubles, gets 0.8999999999999999, which is below
    the double of 0.9, and rates [high]. *)
Lemma decimal_mean_on_a_threshold_rates_high :
  matched_patterns notice_mail store = [authority_impersonation; financial_request]
  /\ map severity_weight (matched_patterns (N:=Q) notice_mail fresh_world)
     = [0.85%Q; 0.95%Q]
  /\ Qeq_bool (mean (N:=Q) [0.85%Q; 0.95%Q]) 0.9%Q = true
  /\ severityLevel (fst (analyzeThreatWithNLP (N:=Q) notice_mail "email" fresh_world))
     = critical
  /\ mean (map severity_weight (matched_patterns notice_mail store))
     = 0x1.cccccccccccccp-1%float
  /\ (0x1.ccccccccccccdp-1
      <=? mean (map severity_weight (matched_patterns notice_mail store)))%float = false
  /\ severityLevel (fst (analyzeThreatWithNLP notice_mail "email" store)) = high.
Proof. vm_compute. repeat split. Qed.

Lemma scorer_confidence_and_severity_on_doubles_witness :
  faulty store T_threat_patterns = false
  /\ matched_patterns urgent_mail store = [urgent_action; suspicious_links]
  /\ Z.of_nat (length (matched_patterns urgent_mail store)) < 2 ^ 32
  /\ confidenceScore urgent_analysis = 95%float
  /\ severityLevel urgent_analysis = high.
Proof.
  assert (Hm : matched_patterns urgent_mail store = [urgent_action; suspicious_links])
    by (vm_compute; reflexivity).
  assert (Hne : matched_patterns urgent_mail store <> [])
    by (rewrite Hm; discriminate).
  assert (Hlen : Z.of_nat (length (matched_patterns urgent_mail store)) < 2 ^ 32)
    by (rewrite Hm; reflexivity).
  assert (Hw : forall p, In p (matched_patterns urgent_mail store) ->
                         (0 <=? severity_weight p)%float = true
                         /\ (severity_weight p <=? 1)%float = true)
    by (rewrite Hm; intros p [<-|[<-|[]]]; split; vm_compute; reflexivity).
  destruct (scorer_confidence_and_severity_on_doubles urgent_mail "email" store
              eq_refl Hne Hlen Hw) as [Hc Hs].
  split; [reflexivity|]. split; [exact Hm|]. split; [exact Hlen|]. split.
  - unfold urgent_analysis. rewrite Hc. vm_compute. reflexivity.
  - unfold urgent_analysis. rewrite Hs. vm_compute. reflexivity.
Defined.

Lemma safe_outcomes_witness :
  (faulty (without_table T_threat_patterns store) T_threat_patterns = true
   /\ severityLevel offline_analysis = safe
   /\ confidenceScore offline_analysis = 0%float
   /\ threatType offline_analysis = "none")
  /\ (faulty store T_threat_patterns = false
      /\ matched_patterns coffee_mail store = []
      /\ severityLevel coffee_analysis = safe
      /\ confidenceScore coffee_analysis = 95%float
      /\ threatType coffee_analysis = "none").
Proof.
  split.
  - destruct (safe_outcomes urgent_mail "email" (without_table T_threat_patterns store))
      as [H _].
    destruct (H eq_refl) as (Hs & Hc & Ht).
    split; [reflexivity|]. split; [exact Hs|]. split; [|exact Ht].
    unfold offline_analysis. rewrite Hc. vm_compute. reflexivity.
  - destruct (safe_outcomes coffee_mail "email" store) as [_ H].
    assert (Hm : matched_patterns coffee_mail store = []) by (vm_compute; reflexivity).
    destruct (H eq_refl Hm) as (Hs & Hc & Ht).
    split; [reflexivity|]. split; [exact Hm|]. split; [exact Hs|]. split; [|exact Ht].
    unfold coffee_analysis. rewrite Hc. vm_compute. reflexivity.
Defined.

Lemma threat_type_is_first_match_witness :
  faulty store T_threat_patterns = false
  /\ matched_patterns urgent_mail store = [urgent_action; suspicious_links]
  /\ PrimFloat.ltb (severity_weight (N:=float) urgent_action)
                   (severity_weight (N:=float) suspicious_links) = true
  /\ threatType urgent_analysis = "urgency_manipulation".
Proof.
  assert (Hm : matched_patterns urgent_mail store = [urgent_action; suspicious_links])
    by (vm_compute; reflexivity).
  split; [reflexivity|]. split; [exact Hm|]. split; [vm_compute; reflexivity|].
  unfold urgent_analysis.
  rewrite (threat_type_is_first_match urgent_mail "email" store
             urgent_action [suspicious_links] eq_refl Hm).
  reflexivity.
Defined.

Lemma matched_scan_confidence_floor_witness :
  faulty store T_threat_patterns = false
  /\ matched_patterns "need help" store = [emotional_manipulation]
  /\ Z.of_nat (length (matched_patterns "need help" store)) < 2 ^ 32
  /\ (0 <=? severity_weight (N:=float) emotional_manipulation)%float = true
  /\ (severity_weight (N:=float) emotional_manipulation <=? 1)%float = true
  /\ (65 <=? confidenceScore (fst (analyzeThreatWithNLP "need help" "email" store)))%float
     = true
  /\ severityLevel (fst (analyzeThreatWithNLP "need help" "email" store)) <> safe.
Proof.
  assert (Hm : matched_patterns "need help" store = [emotional_manipulation])
    by (vm_compute; reflexivity).
  assert (Hne : matched_patterns "need help" store <> [])
    by (rewrite Hm; discriminate).
  assert (Hlen : Z.of_nat (length (matched_patterns "need help" store)) < 2 ^ 32)
    by (rewrite Hm; reflexivity).
  assert (Hw : forall p, In p (matched_patterns "need help" store) ->
                         (0 <=? severity_weight p)%float = true
                         /\ (severity_weight p <=? 1)%float = true)
    by (rewrite Hm; intros p [<-|[]]; split; vm_compute; reflexivity).
  destruct (matched_scan_confidence_floor "need help" "email" store eq_refl Hne Hlen Hw)
    as (Hfloor & _ & Hsev).
  split; [reflexivity|]. split; [exact Hm|]. split; [exact Hlen|].
  split; [vm_compute; reflexivity|]. split; [vm_compute; reflexivity|].
  split; [exact Hfloor | exact Hsev].
Defined.

(** C9, as stated, fails on the scenario of the specification: the
    explanation of the coffee message is the fixed sentence, which neither
    begins with the summary of the table's [safe] entry nor contains that
    summary or its recommendation. *)
Lemma safe_scan_explanation_not_from_table :
  severityLevel coffee_analysis = safe
  /\ detectedPatterns coffee_analysis = []
  /\ nlpExplanation coffee_analysis
     = "Analysis complete: No social engineering indicators detected. This communication appears legitimate and safe."
  /\ fst (severityTable (severity_name safe)) = "Safe communication detected."
  /\ snd (severityTable (severity_name safe)) = "No immediate action required."
  /\ String.prefix (fst (severityTable (severity_name safe)))
                   (nlpExplanation coffee_analysis) = false
  /\ includes (nlpExplanation coffee_analysis)
              (fst (severityTable (severity_name safe))) = false
  /\ includes (nlpExplanation coffee_analysis)
              (snd (severityTable (severity_name safe))) = false.
Proof. vm_compute. repeat split. Qed.

Lemma no_match_explanation_is_fixed_text_witness :
  (faulty (without_table T_threat_patterns store) T_threat_patterns = true
   /\ nlpExplanation offline_analysis
      = "No threats detected. This communication appears safe.")
  /\ (faulty store T_threat_patterns = false
      /\ matched_patterns coffee_mail store = []
      /\ nlpExplanation coffee_analysis
         = "Analysis complete: No social engineering indicators detected. This communication appears legitimate and safe."
      /\ includes (nlpExplanation coffee_analysis) "DETECTED ATTACK PATTERNS" = false).
Proof.
  split.
  - destruct (no_match_explanation_is_fixed_text urgent_mail "email"
                (without_table T_threat_patterns store)) as (H & _).
    split; [reflexivity | exact (H eq_refl)].
  - destruct (no_match_explanation_is_fixed_text coffee_mail "email" store)
      as (_ & H & Hblock & _).
    assert (Hm : matched_patterns coffee_mail store = []) by (vm_compute; reflexivity).
    split; [reflexivity|]. split; [exact Hm|]. split; [exact (H eq_refl Hm)|].
    exact (proj1 (Hblock (or_intror Hm))).
Defined.

(** C5, as stated, fails: a resolved record is acknowledged all the same
    (keeping its [resolved_at]), and resolved again a day later, with a new
    stamp. *)
Lemma acknowledge_reopens_resolved_record :
  map status_view (threat_detections resolved_store)
  = [("uuid-0", resolved, Some "2025-11-03T10:19:26.000Z")]
  /\ map status_view
       (threat_detections (snd (markThreatAcknowledged "uuid-0" resolved_store)))
     = [("uuid-0", acknowledged, Some "2025-11-03T10:19:26.000Z")]
  /\ map status_view
       (threat_detections
          (snd (markThreatResolved "uuid-0"
                  (at_clock "2025-11-04T08:00:00.000Z" resolved_store))))
     = [("uuid-0", resolved, Some "2025-11-04T08:00:00.000Z")].
Proof. vm_compute. repeat split. Qed.

Lemma status_updates_are_unconditional_witness :
  faulty resolved_store T_threat_detections = false
  /\ option_map status (threat_detections resolved_store !! 0%nat) = Some resolved
  /\ (exists r', threat_detections (snd (markThreatAcknowledged "uuid-0" resolved_store))
                   !! 0%nat = Some r'
                 /\ status r' = acknowledged
                 /\ resolved_at r' = Some "2025-11-03T10:19:26.000Z")
  /\ (exists r', threat_detections (snd (markThreatResolved "uuid-0" resolved_store))
                   !! 0%nat = Some r'
                 /\ status r' = resolved
                 /\ resolved_at r' = Some "2025-11-03T10:19:26.000Z").
Proof.
  assert (Hf : faulty resolved_store T_threat_detections = false)
    by (vm_compute; reflexivity).
  destruct (status_updates_are_unconditional "uuid-0" resolved_store Hf) as (H & _).
  split; [exact Hf|]. split; [vm_compute; reflexivity|].
  match eval vm_compute in (threat_detections resolved_store !! 0%nat) with
  | Some ?r =>
      assert (Hr : threat_detections resolved_store !! 0%nat = Some r)
        by (vm_compute; reflexivity);
      destruct (H 0%nat r Hr eq_refl) as [(a & Ha & Hsa & Hra) (b & Hb & Hsb & Hrb)]
  end.
  split.
  - exists a. split; [exact Ha|]. split; [exact Hsa|]. rewrite Hra. reflexivity.
  - exists b. split; [exact Hb|]. split; [exact Hsb|]. rewrite Hrb. vm_compute. reflexivity.
Defined.


(** C7, as stated, fails: a scan of blank content under an unknown source
    type is analysed and stored like any other, and no error is raised. *)
Lemma blank_scan_reaches_store :
  trim "   " = ""
  /\ requests (snd (scanCommunication "u1" "   " "fax" store))
     = [Select T_threat_patterns; Insert T_threat_detections;
        Select T_detection_stats; Insert T_detection_stats]
  /\ option_map (fun r => (source_type r, source_content r, status r))
       (fst (scanCommunication "u1" "   " "fax" store))
     = Some ("fax", "   ", status_new)
  /\ length (threat_detections (snd (scanCommunication "u1" "   " "fax" store))) = 1%nat
  /\ console (snd (scanCommunication "u1" "   " "fax" store)) = [].
Proof. vm_compute. repeat split. Qed.

Lemma scan_validates_nothing_witness :
  (faulty store T_threat_detections = false
   /\ exists r, fst (scanCommunication "u1" "   " "fax" store) = Some r
                /\ source_type r = "fax" /\ source_content r = "   ")
  /\ (trim "   " = "" /\ handleScan "u1" "   " other store = (tt, store))
  /\ (trim urgent_mail <> ""
      /\ handleScan "u1" urgent_mail link store
         = (tt, snd (scanCommunication "u1" urgent_mail "link" store))).
Proof.
  split; [|split].
  - destruct (scan_validates_nothing "u1" "   " "fax" other store) as (_ & H & _).
    split; [reflexivity|].
    destruct (H eq_refl) as (r & Hr & _ & Hs & Hc & _).
    exists r. split; [exact Hr|]. split; [exact Hs | exact Hc].
  - destruct (scan_validates_nothing "u1" "   " "fax" other store) as (_ & _ & H & _).
    split; [reflexivity | exact (H eq_refl)].
  - destruct (scan_validates_nothing "u1" urgent_mail "link" link store) as (_ & _ & _ & H).
    assert (Hne : trim urgent_mail <> "") by (vm_compute; intros E; discriminate E).
    split; [exact Hne | exact (H Hne)].
Defined.

Lemma scan_persistence_failure_witness :
  faulty (without_table T_threat_detections store) T_threat_detections = true
  /\ fst (scanCommunication "u1" urgent_mail "email"
            (without_table T_threat_detections store)) = None
  /\ detection_stats (snd (scanCommunication "u1" urgent_mail "email"
                             (without_table T_threat_detections store))) = [].
Proof.
  destruct (scan_persistence_failure "u1" urgent_mail "email"
              (without_table T_threat_detections store) eq_refl)
    as (Hnone & _ & Hstats & _).
  split; [reflexivity|]. split; [exact Hnone | exact Hstats].
Defined.

(** ** The order of stamps *)

Lemma ascii_compare_lt_trans (a b c : ascii) :
  Ascii.compare a b = Lt -> Ascii.compare b c = Lt -> Ascii.compare a c = Lt.
Proof.
  unfold Ascii.compare. rewrite !N.compare_lt_iff. apply N.lt_trans.
Qed.

Lemma string_compare_lt_trans (a b c : string) :
  String.compare a b = Lt -> String.compare b c = Lt -> String.compare a c = Lt.
Proof.
  revert b c. induction a as [|x a IH]; intros [|y b] [|z c]; simpl; try congruence.
  destruct (Ascii.compare x y) eqn:Hxy; try discriminate;
    destruct (Ascii.compare y z) eqn:Hyz; try discriminate; intros H1 H2.
  - apply Ascii.compare_eq_iff in Hxy, Hyz. subst.
    assert (Hr : Ascii.compare z z = Eq) by (unfold Ascii.compare; apply N.compare_refl).
    rewrite Hr. eauto.
  - apply Ascii.compare_eq_iff in Hxy. subst. now rewrite Hyz.
  - apply Ascii.compare_eq_iff in Hyz. subst. now rewrite Hxy.
  - now rewrite (ascii_compare_lt_trans x y z).
Qed.

Lemma string_compare_refl (a : string) : String.compare a a = Eq.
Proof.
  induction a as [|x a IH]; simpl; [reflexivity|].
  assert (Hr : Ascii.compare x x = Eq) by (unfold Ascii.compare; apply N.compare_refl).
  now rewrite Hr.
Qed.

Lemma string_leb_trans (a b c : string) :
  String.leb a b = true -> String.leb b c = true -> String.leb a c = true.
Proof.
  unfold String.leb.
  destruct (String.compare a b) eqn:Hab; try discriminate;
    destruct (String.compare b c) eqn:Hbc; try discriminate; intros _ _.
  - apply String.compare_eq_iff in Hab, Hbc. subst. now rewrite string_compare_refl.
  - apply String.compare_eq_iff in Hab. subst. now rewrite Hbc.
  - apply String.compare_eq_iff in Hbc. subst. now rewrite Hab.
  - now rewrite (string_compare_lt_trans a b c).
Qed.

Lemma string_ltb_leb (a b : string) : String.ltb a b = true -> String.leb b a = false.
Proof.
  unfold String.ltb, String.leb. rewrite (String.compare_antisym a b).
  destruct (String.compare b a); simpl; congruence.
Qed.

(** ** The listing *)

Section ListingFacts.
Context {N : Type}.

#[local] Instance newer_first_trans : Transitive (@newer_first N).
Proof. intros a b c Hab Hbc. unfold newer_first in *. eapply string_leb_trans; eauto. Qed.

#[local] Instance newer_first_total : Total (@newer_first N).
Proof.
  intros a b. unfold newer_first.
  destruct (String.leb_total (detected_at a) (detected_at b)); auto.
Qed.

Lemma getUserThreats_served (userId : string) (w : World N) :
  faulty w T_threat_detections = false ->
  getUserThreats userId w
  = (take 50 (merge_sort newer_first (records_of userId w)),
     logged (Select T_threat_detections) w).
Proof.
  intros Hf. unfold getUserThreats, select_user_threats, bind, ret, issue, is_faulty, read.
  simpl. rewrite Hf. reflexivity.
Qed.

Lemma getUserThreats_refused (userId : string) (w : World N) :
  faulty w T_threat_detections = true ->
  getUserThreats userId w
  = ([], snd (console_error "Error fetching threats:" (logged (Select T_threat_detections) w))).
Proof.
  intros Hf. unfold getUserThreats, select_user_threats, bind, ret, issue, is_faulty, read.
  simpl. rewrite Hf. reflexivity.
Qed.

Lemma records_of_member (userId : string) (w : World N) (r : ThreatDetection N) :
  In r (records_of userId w) <-> In r (threat_detections w) /\ user_id r = userId.
Proof. unfold records_of. rewrite filter_In, String.eqb_eq. reflexivity. Qed.

Lemma sorted_records (userId : string) (w : World N) :
  merge_sort newer_first (records_of userId w) ≡ₚ records_of userId w.
Proof. apply merge_sort_Permutation. Qed.

(** X1.  The listing never holds more than 50 records; each is a record of
    the table that belongs to the user asked for; and listing changes
    nothing in the store: it only adds one select to the trace. *)
Theorem listing_is_bounded_and_own (userId : string) (w : World N) :
  let result := getUserThreats userId w in
  (length (fst result) <= 50)%nat
  /\ (forall r, In r (fst result) -> In r (threat_detections w) /\ user_id r = userId)
  /\ threat_detections (snd result) = threat_detections w
  /\ detection_stats (snd result) = detection_stats w
  /\ threat_patterns (snd result) = threat_patterns w
  /\ requests (snd result) = (requests w ++ [Select T_threat_detections])%list.
Proof.
  intros result. subst result. destruct (faulty w T_threat_detections) eqn:Hf.
  - rewrite getUserThreats_refused by exact Hf. simpl.
    repeat split; try reflexivity; try lia; contradiction.
  - rewrite getUserThreats_served by exact Hf. simpl.
    split; [rewrite length_take; lia|].
    split; [|repeat split; reflexivity].
    intros r Hr. apply in_take in Hr.
    apply records_of_member.
    eapply Permutation_in; [apply sorted_records | exact Hr].
Qed.

(** X2.  The listing is sorted, newest first; the records of the user that
    it leaves out are none of them newer than one it holds. *)
Theorem listing_is_newest_first (userId : string) (w : World N) :
  let listed := fst (getUserThreats userId w) in
  StronglySorted newer_first listed
  /\ exists omitted,
       (listed ++ omitted)%list ≡ₚ records_of userId w
       /\ forall x y, In x listed -> In y omitted -> newer_first x y.
Proof.
  intros listed. subst listed. destruct (faulty w T_threat_detections) eqn:Hf.
  - rewrite getUserThreats_refused by exact Hf. simpl. split; [constructor|].
    exists (records_of userId w). split; [reflexivity | contradiction].
  - rewrite getUserThreats_served by exact Hf. simpl.
    pose proof (StronglySorted_merge_sort newer_first (records_of userId w)) as Hs.
    set (sorted := merge_sort newer_first (records_of userId w)) in *.
    rewrite <- (take_drop 50 sorted) in Hs.
    apply StronglySorted_app in Hs as (Hcross & Hl & _).
    split; [exact Hl|]. exists (drop 50 sorted). split.
    + rewrite take_drop. apply sorted_records.
    + intros x y Hx Hy. apply Hcross; now apply list_elem_of_In.
Qed.

(** X3.  A user with at most 50 records gets every one of them; a user
    with more gets exactly 50. *)
Theorem listing_is_complete_up_to_the_limit (userId : string) (w : World N) :
  faulty w T_threat_detections = false ->
  let listed := fst (getUserThreats userId w) in
  ((length (records_of userId w) <= 50)%nat -> listed ≡ₚ records_of userId w)
  /\ ((50 < length (records_of userId w))%nat -> length listed = 50%nat).
Proof.
  intros Hf listed. subst listed. rewrite getUserThreats_served by exact Hf. simpl.
  pose proof (Permutation_length (sorted_records userId w)) as Hlen.
  split; intros H.
  - rewrite take_ge by lia. apply sorted_records.
  - rewrite length_take. lia.
Qed.

End ListingFacts.

(** ** The dashboard *)

Lemma status_eqb_eq (a b : Status) : status_eqb a b = true <-> a = b.
Proof. destruct a, b; simpl; split; congruence. Qed.

Lemma severity_eqb_eq (a b : SeverityLevel) : severity_eqb a b = true <-> a = b.
Proof. destruct a, b; simpl; split; congruence. Qed.

Lemma filter_length_pos {A} (f : A -> bool) (l : list A) (x : A) :
  In x l -> f x = true -> (0 < length (List.filter f l))%nat.
Proof.
  intros Hin Hf.
  assert (H : In x (List.filter f l)) by (apply filter_In; auto).
  destruct (List.filter f l); [contradiction | simpl; lia].
Qed.

Lemma filter_length_zero {A} (f : A -> bool) (l : list A) (x : A) :
  length (List.filter f l) = 0%nat -> In x l -> f x = false.
Proof.
  intros Hlen Hin. destruct (f x) eqn:Hf; [|reflexivity].
  pose proof (filter_length_pos f l x Hin Hf). lia.
Qed.

Section DashboardFacts.
Context {N : Type} {num : JSNumber N} {date : JSDate N}.

Lemma has_level (clock : string) (threats : list (ThreatDetection N)) (s : SeverityLevel) :
  existsb (fun t => severity_eqb (severity_level t) s)
    (List.filter (fun t => num_lt (hoursSinceDetection clock t) (num_lit 24)
                           && status_eqb (status t) status_new) threats) = true
  <-> exists t, In t threats /\ recent_and_new clock t /\ severity_level t = s.
Proof.
  rewrite existsb_exists. unfold recent_and_new.
  split.
  - intros (t & Hin & Hs). apply filter_In in Hin as [Hin Hr].
    apply andb_prop in Hr as [Hr Hn].
    apply status_eqb_eq in Hn. apply severity_eqb_eq in Hs. eauto 6.
  - intros (t & Hin & [Hr Hn] & Hs). exists t. split.
    + apply filter_In. split; [exact Hin|]. rewrite Hr. simpl. now apply status_eqb_eq.
    + now apply severity_eqb_eq.
Qed.

Lemma overall_status_unfold (clock : string) (threats : list (ThreatDetection N)) :
  getOverallStatus clock threats
  = let has s :=
      existsb (fun t => severity_eqb (severity_level t) s)
        (List.filter (fun t => num_lt (hoursSinceDetection clock t) (num_lit 24)
                               && status_eqb (status t) status_new) threats) in
    if has critical || has high then danger
    else if has medium then warning else overall_safe.
Proof. reflexivity. Qed.


(** X5.  The four counters of the dashboard never count a record twice:
    together they are at most the number of records listed. *)
Theorem dashboard_counters_are_disjoint (threats : list (ThreatDetection N)) :
  (stats_critical (stats threats) + stats_high (stats threats)
   + stats_medium (stats threats) + stats_resolved (stats threats)
   <= total (stats threats))%nat.
Proof.
  simpl. induction threats as [|t threats IH]; simpl; [lia|].
  destruct (severity_level t), (status t); simpl; lia.
Qed.

(** X6.  Indicator and counters agree one way round: a [danger] status
    comes with a critical or high record counted, a [warning] with a medium
    one, and when the three counters of open records are zero the status is
    [safe]; so it is when no record is [new]. *)
Theorem overall_status_agrees_with_counters
    (clock : string) (threats : list (ThreatDetection N)) :
  (getOverallStatus clock threats = danger ->
     (0 < stats_critical (stats threats) + stats_high (stats threats))%nat)
  /\ (getOverallStatus clock threats = warning ->
     (0 < stats_medium (stats threats))%nat)
  /\ ((stats_critical (stats threats) + stats_high (stats threats)
       + stats_medium (stats threats) = 0)%nat ->
     getOverallStatus clock threats = overall_safe)
  /\ ((forall t, In t threats -> status t <> status_new) ->
     getOverallStatus clock threats = overall_safe).
Proof.
  rewrite overall_status_unfold. cbv zeta.
  pose proof (has_level clock threats critical) as Hc.
  pose proof (has_level clock threats high) as Hh.
  pose proof (has_level clock threats medium) as Hm.
  assert (Hcount : forall s, (exists t, In t threats /\ recent_and_new clock t
                                        /\ severity_level t = s) ->
            (0 < length (List.filter (fun t => severity_eqb (severity_level t) s
                                     && status_eqb (status t) status_new) threats))%nat).
  { intros s (t & Hin & [_ Hn] & Hs). apply (filter_length_pos _ _ t Hin).
    rewrite Hs, Hn. now destruct s. }
  simpl. split; [|split; [|split]].
  - destruct (existsb _ _) eqn:Ec in Hc.
    + intros _. pose proof (Hcount critical (proj1 Hc eq_refl)). lia.
    + rewrite Ec. simpl. destruct (existsb _ _) eqn:Eh in Hh.
      * intros _. pose proof (Hcount high (proj1 Hh eq_refl)). lia.
      * rewrite Eh. simpl. intros H.
        repeat match type of H with context [if ?c then _ else _] => destruct c end;
          discriminate H.
  - destruct (existsb _ _) eqn:Em in Hm.
    + intros _. exact (Hcount medium (proj1 Hm eq_refl)).
    + rewrite Em. intros H.
      repeat match type of H with context [if ?c then _ else _] => destruct c end;
        discriminate H.
  - intros Hzero.
    destruct (existsb _ _) eqn:Ec in Hc;
      [pose proof (Hcount critical (proj1 Hc eq_refl)); lia|].
    destruct (existsb _ _) eqn:Eh in Hh;
      [pose proof (Hcount high (proj1 Hh eq_refl)); lia|].
    destruct (existsb _ _) eqn:Em in Hm;
      [pose proof (Hcount medium (proj1 Hm eq_refl)); lia|].
    now rewrite Ec, Eh, Em.
  - intros Hnone.
    assert (Hno : forall s, ~ exists t, In t threats /\ recent_and_new clock t
                                        /\ severity_level t = s).
    { intros s (t & Hin & [_ Hn] & _). exact (Hnone t Hin Hn). }
    destruct (existsb _ _) eqn:Ec in Hc; [destruct (Hno critical); now apply Hc|].
    destruct (existsb _ _) eqn:Eh in Hh; [destruct (Hno high); now apply Hh|].
    destruct (existsb _ _) eqn:Em in Hm; [destruct (Hno medium); now apply Hm|].
    now rewrite Ec, Eh, Em.
Qed.

(** X7.  When the listing is refused the error is logged and an empty
    list is returned, so that the dashboard built on it shows no record and
    the status [System Status: SECURE], whatever the table holds. *)
Theorem refused_listing_shows_secure (userId clock : string) (w : World N) :
  faulty w T_threat_detections = true ->
  let result := getUserThreats userId w in
  fst result = []
  /\ console (snd result) = (console w ++ ["Error fetching threats:"])%list
  /\ threat_detections (snd result) = threat_detections w
  /\ total (stats (fst result)) = 0%nat
  /\ getOverallStatus clock (fst result) = overall_safe
  /\ fst (configs (getOverallStatus clock (fst result))) = "System Status: SECURE".
Proof.
  intros Hf result. subst result. rewrite getUserThreats_refused by exact Hf.
  simpl. repeat split; reflexivity.
Qed.

End DashboardFacts.

(** ** The status updates, further *)

Section StatusFacts.
Context {N : Type} {num : JSNumber N} {str : JSStringOps}.

Lemma acknowledge_rows (threatId : string) (w : World N) :
  threat_detections (snd (markThreatAcknowledged threatId w))
  = if faulty w T_threat_detections then threat_detections w
    else map (fun r => if String.eqb (threat_id r) threatId then acknowledged_as r else r)
           (threat_detections w).
Proof.
  unfold markThreatAcknowledged, update_threat_detection, set_threat_detections,
    bind, ret, issue, is_faulty, read.
  simpl. now destruct (faulty w T_threat_detections).
Qed.

Lemma resolve_rows (threatId : string) (w : World N) :
  threat_detections (snd (markThreatResolved threatId w))
  = if faulty w T_threat_detections then threat_detections w
    else map (fun r => if String.eqb (threat_id r) threatId then resolved_as (now w) r else r)
           (threat_detections w).
Proof.
  unfold markThreatResolved, update_threat_detection, set_threat_detections,
    toISOString_now, bind, ret, issue, is_faulty, read.
  simpl. now destruct (faulty w T_threat_detections).
Qed.

(** What a status update leaves of the world. *)
Lemma acknowledge_frame (threatId : string) (w : World N) :
  let w' := snd (markThreatAcknowledged threatId w) in
  faulty w' = faulty w /\ now w' = now w
  /\ detection_stats w' = detection_stats w /\ threat_patterns w' = threat_patterns w
  /\ console w' = console w
  /\ requests w' = (requests w ++ [Update T_threat_detections])%list.
Proof.
  unfold markThreatAcknowledged, update_threat_detection, set_threat_detections,
    bind, ret, issue, is_faulty, read.
  simpl. destruct (faulty w T_threat_detections); simpl; repeat split; reflexivity.
Qed.

Lemma resolve_frame (threatId : string) (w : World N) :
  let w' := snd (markThreatResolved threatId w) in
  faulty w' = faulty w /\ now w' = now w
  /\ detection_stats w' = detection_stats w /\ threat_patterns w' = threat_patterns w
  /\ console w' = console w
  /\ requests w' = (requests w ++ [Update T_threat_detections])%list.
Proof.
  unfold markThreatResolved, update_threat_detection, set_threat_detections,
    toISOString_now, bind, ret, issue, is_faulty, read.
  simpl. destruct (faulty w T_threat_detections); simpl; repeat split; reflexivity.
Qed.

Lemma patched_rows_keep (patch : ThreatDetection N -> ThreatDetection N) (threatId : string)
    (rows : list (ThreatDetection N)) :
  (forall r, same_detection r (patch r)) ->
  length (map (fun r => if String.eqb (threat_id r) threatId then patch r else r) rows)
  = length rows
  /\ forall i r, rows !! i = Some r ->
       exists r', map (fun r => if String.eqb (threat_id r) threatId then patch r else r) rows
                    !! i = Some r'
                  /\ same_detection r r'.
Proof.
  intros Hpatch. split; [apply length_map|].
  intros i r Hi. rewrite lookup_map, Hi. simpl. eexists. split; [reflexivity|].
  destruct (String.eqb (threat_id r) threatId); [apply Hpatch|].
  repeat split; reflexivity.
Qed.

(** X8.  Acknowledging or resolving never adds, removes or reorders
    records, and changes no field of a record but [status] and
    [resolved_at]: identifier, owner, verdict, content and detection stamp
    stay.  Neither touches the daily counters or the catalog, and neither
    writes to the console; each sends one update. *)
Theorem status_updates_keep_the_rest (threatId : string) (w : World N) :
  let kept w' :=
    length (threat_detections w') = length (threat_detections w)
    /\ (forall i r, threat_detections w !! i = Some r ->
          exists r', threat_detections w' !! i = Some r' /\ same_detection r r')
    /\ detection_stats w' = detection_stats w
    /\ threat_patterns w' = threat_patterns w
    /\ console w' = console w
    /\ requests w' = (requests w ++ [Update T_threat_detections])%list in
  kept (snd (markThreatAcknowledged threatId w))
  /\ kept (snd (markThreatResolved threatId w)).
Proof.
  intros kept. subst kept. cbv beta.
  assert (Hsame : forall r : ThreatDetection N, same_detection r r)
    by (intros r; repeat split; reflexivity).
  split.
  - destruct (acknowledge_frame threatId w) as (_ & _ & Hs & Hp & Hc & Hr).
    rewrite acknowledge_rows, Hs, Hp, Hc, Hr.
    destruct (faulty w T_threat_detections).
    + repeat split; try reflexivity. intros i r Hi. eauto.
    + destruct (patched_rows_keep acknowledged_as threatId (threat_detections w)) as [Hl Hk].
      { intros r. repeat split; reflexivity. }
      repeat split; try reflexivity; assumption.
  - destruct (resolve_frame threatId w) as (_ & _ & Hs & Hp & Hc & Hr).
    rewrite resolve_rows, Hs, Hp, Hc, Hr.
    destruct (faulty w T_threat_detections).
    + repeat split; try reflexivity. intros i r Hi. eauto.
    + destruct (patched_rows_keep (resolved_as (now w)) threatId (threat_detections w))
        as [Hl Hk].
      { intros r. repeat split; reflexivity. }
      repeat split; try reflexivity; assumption.
Qed.

Lemma map_unmatched {A} (f g : A -> A) (test : A -> bool) (l : list A) :
  (forall x, In x l -> test x = false) ->
  map (fun x => if test x then f x else x) l = l.
Proof.
  intros H. induction l as [|x l IH]; simpl; [reflexivity|].
  rewrite (H x) by now left. rewrite IH; [reflexivity|].
  intros y Hy. apply H. now right.
Qed.

(** X9.  A status update that finds no record under the identifier, or
    that the store refuses, changes no record and reports nothing: the
    console stays as it was. *)
Theorem status_update_without_effect (threatId : string) (w : World N) :
  faulty w T_threat_detections = true
  \/ (forall r, In r (threat_detections w) -> threat_id r <> threatId) ->
  threat_detections (snd (markThreatAcknowledged threatId w)) = threat_detections w
  /\ threat_detections (snd (markThreatResolved threatId w)) = threat_detections w
  /\ console (snd (markThreatAcknowledged threatId w)) = console w
  /\ console (snd (markThreatResolved threatId w)) = console w.
Proof.
  intros H.
  destruct (acknowledge_frame threatId w) as (_ & _ & _ & _ & Hca & _).
  destruct (resolve_frame threatId w) as (_ & _ & _ & _ & Hcr & _).
  rewrite acknowledge_rows, resolve_rows, Hca, Hcr.
  destruct (faulty w T_threat_detections) eqn:Hf; [repeat split; reflexivity|].
  destruct H as [H|H]; [discriminate|].
  assert (Hno : forall r, In r (threat_detections w) -> String.eqb (threat_id r) threatId = false)
    by (intros r Hr; apply String.eqb_neq; auto).
  rewrite !(map_unmatched _ (fun x => x)) by exact Hno. repeat split; reflexivity.
Qed.

(** X10.  Resolving absorbs acknowledging: a record acknowledged and then
    resolved is as if it had been resolved at once; acknowledging twice is
    acknowledging once, and so is resolving twice at one instant. *)
Theorem resolve_absorbs_acknowledge (threatId : string) (w : World N) :
  threat_detections (snd (markThreatResolved threatId (snd (markThreatAcknowledged threatId w))))
  = threat_detections (snd (markThreatResolved threatId w))
  /\ threat_detections
       (snd (markThreatAcknowledged threatId (snd (markThreatAcknowledged threatId w))))
     = threat_detections (snd (markThreatAcknowledged threatId w))
  /\ threat_detections (snd (markThreatResolved threatId (snd (markThreatResolved threatId w))))
     = threat_detections (snd (markThreatResolved threatId w)).
Proof.
  destruct (acknowledge_frame threatId w) as (Hfa & Hna & _).
  destruct (resolve_frame threatId w) as (Hfr & Hnr & _).
  rewrite !resolve_rows, !acknowledge_rows, ?Hfa, ?Hfr, ?Hna, ?Hnr.
  destruct (faulty w T_threat_detections); [repeat split; reflexivity|].
  rewrite !map_map.
  repeat split; apply map_ext; intros r;
    destruct (String.eqb (threat_id r) threatId) eqn:E; simpl; rewrite E; reflexivity.
Qed.


End StatusFacts.

(** ** The scan, further *)

Section ScanFacts.
Context {N : Type} {num : JSNumber N} {str : JSStringOps}.

Lemma safe_name (level : SeverityLevel) :
  String.eqb (severity_name level) "safe" = severity_eqb level safe.
Proof. now destruct level. Qed.

(** An accepted scan: the record is filed, then the counters are updated. *)
Lemma scan_accepted (userId content sourceType : string) (w : World N) :
  faulty w T_threat_detections = false ->
  scanCommunication userId content sourceType w
  = (Some (stored_record userId content sourceType w),
     snd (updateUserStats userId
            (severity_name (severityLevel (fst (analyzeThreatWithNLP content sourceType w))))
            (filed (stored_record userId content sourceType w) w))).
Proof.
  intros Hf. rewrite scan_unfold.
  unfold insert_threat_detection, set_threat_detections, logged, filed,
    bind, ret, issue, is_faulty, read.
  simpl. rewrite Hf. simpl. rewrite <- app_assoc. reflexivity.
Qed.

Lemma scan_rows (userId content sourceType : string) (w : World N) :
  threat_detections (snd (scanCommunication userId content sourceType w))
  = if faulty w T_threat_detections then threat_detections w
    else (threat_detections w ++ [stored_record userId content sourceType w])%list.
Proof.
  destruct (faulty w T_threat_detections) eqn:Hf.
  - rewrite scan_unfold.
    unfold insert_threat_detection, logged, console_error, bind, ret, issue, is_faulty.
    simpl. rewrite Hf. reflexivity.
  - rewrite scan_accepted by exact Hf. simpl.
    match goal with |- context [updateUserStats ?u ?s ?w2] =>
      destruct (updateUserStats_frame u s w2) as (_ & _ & _ & Hdet & _)
    end.
    rewrite Hdet. reflexivity.
Qed.

Lemma scan_frame (userId content sourceType : string) (w : World N) :
  let w' := snd (scanCommunication userId content sourceType w) in
  faulty w' = faulty w /\ now w' = now w /\ threat_patterns w' = threat_patterns w.
Proof.
  destruct (faulty w T_threat_detections) eqn:Hf.
  - rewrite scan_unfold.
    unfold insert_threat_detection, logged, console_error, bind, ret, issue, is_faulty.
    simpl. rewrite Hf. simpl. repeat split; reflexivity.
  - rewrite scan_accepted by exact Hf. simpl.
    match goal with |- context [updateUserStats ?u ?s ?w2] =>
      destruct (updateUserStats_frame u s w2) as (H1 & H2 & H3 & _)
    end.
    rewrite H1, H2, H3. repeat split; reflexivity.
Qed.

(** X12.  What the store keeps of an accepted scan is the verdict of the
    analysis of that content: type, severity, pattern names, confidence and
    explanation are those [analyzeThreatWithNLP] gives, the record is [new]
    and carries no resolution stamp; it is the record returned, and the last
    of the table. *)
Theorem scan_stores_the_analysis (userId content sourceType : string) (w : World N) :
  faulty w T_threat_detections = false ->
  let analysis := fst (analyzeThreatWithNLP content sourceType w) in
  let result := scanCommunication userId content sourceType w in
  exists r, fst result = Some r
    /\ threat_detections (snd result) = (threat_detections w ++ [r])%list
    /\ threat_type r = threatType analysis
    /\ severity_level r = severityLevel analysis
    /\ detected_patterns r = detectedPatterns analysis
    /\ confidence_score r = confidenceScore analysis
    /\ nlp_explanation r = nlpExplanation analysis
    /\ status r = status_new
    /\ resolved_at r = None.
Proof.
  intros Hf analysis result. subst analysis result.
  exists (stored_record userId content sourceType w).
  split; [now rewrite scan_accepted|].
  split; [now rewrite scan_rows, Hf|].
  repeat split; reflexivity.
Qed.

Lemma stats_rows_created (u s : string) (w : World N) :
  faulty w T_detection_stats = false ->
  stats_rows u (split_head "T" (now w)) (detection_stats w) = [] ->
  stats_rows u (split_head "T" (now w)) (detection_stats (snd (updateUserStats u s w)))
  = [created_row (fresh_uuid (next_uuid w)) u (split_head "T" (now w)) s].
Proof.
  intros Hf Hrows.
  rewrite updateUserStats_creates by assumption.
  rewrite stats_rows_app, Hrows. unfold stats_rows. simpl.
  now rewrite !String.eqb_refl.
Qed.

Lemma stats_rows_bumped (u s : string) (w : World N) (r : DetectionStats) :
  faulty w T_detection_stats = false ->
  stats_rows u (split_head "T" (now w)) (detection_stats w) = [r] ->
  stats_rows u (split_head "T" (now w)) (detection_stats (snd (updateUserStats u s w)))
  = [bumped_row s r].
Proof.
  intros Hf Hrows.
  rewrite (updateUserStats_updates u s w r) by assumption.
  rewrite stats_rows_map.
  - rewrite Hrows. simpl. now rewrite String.eqb_refl.
  - intros x. now destruct (String.eqb (stats_id x) (stats_id r)).
Qed.

Lemma stats_row_created (u s : string) (w : World N) :
  faulty w T_detection_stats = false ->
  stats_rows u (split_head "T" (now w)) (detection_stats w) = [] ->
  stats_row u (split_head "T" (now w)) (snd (updateUserStats u s w))
  = Some (created_row (fresh_uuid (next_uuid w)) u (split_head "T" (now w)) s).
Proof. intros Hf Hrows. unfold stats_row. now rewrite stats_rows_created. Qed.

Lemma stats_row_bumped (u s : string) (w : World N) (r : DetectionStats) :
  faulty w T_detection_stats = false ->
  stats_rows u (split_head "T" (now w)) (detection_stats w) = [r] ->
  stats_row u (split_head "T" (now w)) (snd (updateUserStats u s w))
  = Some (bumped_row s r).
Proof. intros Hf Hrows. unfold stats_row. now rewrite (stats_rows_bumped u s w r). Qed.

(** X13.  While [detection_stats] is within reach, an accepted scan is
    counted once in the row of its user and day, under the severity stored
    with the record: when the day has no row the scan creates it with a
    total of 1, when it has one the scan adds 1 to the total and to the
    count of that severity; [threats_detected] moves exactly when the
    severity is not [safe].  (Out of reach, the scan is not counted: see
    [counter_failure_is_silent].) *)
Theorem scan_is_counted_once (userId content sourceType : string) (w : World N) :
  faulty w T_threat_detections = false ->
  faulty w T_detection_stats = false ->
  let day := split_head "T" (now w) in
  let level := severityLevel (fst (analyzeThreatWithNLP content sourceType w)) in
  let w' := snd (scanCommunication userId content sourceType w) in
  (stats_rows userId day (detection_stats w) = [] ->
     exists r', stats_row userId day w' = Some r'
       /\ total_scanned r' = 1
       /\ threats_detected r' = (if severity_eqb level safe then 0 else 1)
       /\ threats_by_severity r' !! severity_name level = Some 1
       /\ false_positives r' = 0)
  /\ (forall r, stats_rows userId day (detection_stats w) = [r] ->
     exists r', stats_row userId day w' = Some r'
       /\ total_scanned r' = total_scanned r + 1
       /\ threats_detected r'
          = threats_detected r + (if severity_eqb level safe then 0 else 1)
       /\ threats_by_severity r' !! severity_name level
          = Some (default 0 (threats_by_severity r !! severity_name level) + 1)
       /\ false_positives r' = false_positives r).
Proof.
  intros Hd Hs day level w'. subst day level w'.
  rewrite scan_accepted by exact Hd. simpl snd.
  set (r0 := stored_record userId content sourceType w).
  change (now w) with (now (filed r0 w)).
  change (detection_stats w) with (detection_stats (filed r0 w)).
  split.
  - intros Hrows. rewrite stats_row_created by assumption.
    eexists. split; [reflexivity|]. simpl. rewrite safe_name, lookup_insert_eq.
    repeat split; reflexivity.
  - intros r Hrows. rewrite (stats_row_bumped _ _ _ r) by assumption.
    eexists. split; [reflexivity|]. simpl. rewrite safe_name, lookup_insert_eq.
    repeat split; reflexivity.
Qed.

(** X14.  A failure of the counters neither fails the scan nor is it
    reported: with [detection_stats] out of reach the record is stored and
    returned all the same, the counters stay as they were and nothing is
    written to the console. *)
Theorem counter_failure_is_silent (userId content sourceType : string) (w : World N) :
  faulty w T_threat_detections = false ->
  faulty w T_detection_stats = true ->
  let result := scanCommunication userId content sourceType w in
  fst result = Some (stored_record userId content sourceType w)
  /\ threat_detections (snd result)
     = (threat_detections w ++ [stored_record userId content sourceType w])%list
  /\ detection_stats (snd result) = detection_stats w
  /\ console (snd result) = console w
  /\ requests (snd result)
     = (requests w ++ [Select T_threat_patterns; Insert T_threat_detections;
                       Select T_detection_stats; Insert T_detection_stats])%list.
Proof.
  intros Hd Hs result. subst result. rewrite scan_accepted by exact Hd.
  unfold updateUserStats, select_detection_stats, insert_detection_stats, filed,
    toISOString_now, bind, ret, issue, is_faulty, read.
  simpl. rewrite Hs. simpl. rewrite Hs. simpl.
  repeat split; try reflexivity. now rewrite <- !app_assoc.
Qed.

(** X15.  When the catalog cannot be read the scan does not fail: whatever
    the content, it files a record rated [safe] with confidence 0 and no
    pattern.  While [detection_stats] is within reach it counts the scan as
    one without a threat: a row created for the day has a total of 1 and no
    threat, a row found has its total and its count of [safe] raised by 1
    and its [threats_detected] left as it was. *)
Theorem scan_without_catalog_files_safe (userId content sourceType : string) (w : World N) :
  faulty w T_threat_patterns = true ->
  faulty w T_threat_detections = false ->
  let result := scanCommunication userId content sourceType w in
  exists r, fst result = Some r
    /\ threat_detections (snd result) = (threat_detections w ++ [r])%list
    /\ source_content r = content
    /\ severity_level r = safe
    /\ confidence_score r = num_lit 0
    /\ threat_type r = "none"
    /\ detected_patterns r = []
    /\ nlp_explanation r = "No threats detected. This communication appears safe."
    /\ (faulty w T_detection_stats = false ->
        stats_rows userId (split_head "T" (now w)) (detection_stats w) = [] ->
        exists row, stats_row userId (split_head "T" (now w)) (snd result) = Some row
                    /\ total_scanned row = 1 /\ threats_detected row = 0
                    /\ threats_by_severity row !! "safe" = Some 1)
    /\ (faulty w T_detection_stats = false ->
        forall found,
          stats_rows userId (split_head "T" (now w)) (detection_stats w) = [found] ->
          exists row, stats_row userId (split_head "T" (now w)) (snd result) = Some row
                      /\ total_scanned row = total_scanned found + 1
                      /\ threats_detected row = threats_detected found
                      /\ threats_by_severity row !! "safe"
                         = Some (default 0 (threats_by_severity found !! "safe") + 1)).
Proof.
  intros Hp Hd result. subst result.
  exists (stored_record userId content sourceType w).
  split; [now rewrite scan_accepted|].
  split; [now rewrite scan_rows, Hd|].
  unfold stored_record.
  rewrite scan_accepted by exact Hd.
  rewrite (analyze_unavailable content sourceType w Hp). simpl.
  match goal with |- context [filed ?r w] => set (r0 := r) end.
  repeat (split; [reflexivity|]). split.
  - intros Hs Hrows.
    change (now w) with (now (filed r0 w)).
    change (detection_stats w) with (detection_stats (filed r0 w)) in Hrows.
    rewrite stats_row_created by assumption.
    eexists. split; [reflexivity|]. simpl. rewrite lookup_insert_eq.
    repeat split; reflexivity.
  - intros Hs found Hrows.
    change (now w) with (now (filed r0 w)).
    change (detection_stats w) with (detection_stats (filed r0 w)) in Hrows.
    rewrite (stats_row_bumped _ _ _ found) by assumption.
    eexists. split; [reflexivity|]. simpl. rewrite lookup_insert_eq.
    split; [reflexivity|]. split; [|reflexivity].
    generalize (threats_detected found). clear. intros z. lia.
Qed.

Lemma records_of_scan (userId content sourceType : string) (w : World N) :
  faulty w T_threat_detections = false ->
  records_of userId (snd (scanCommunication userId content sourceType w))
  = (records_of userId w ++ [stored_record userId content sourceType w])%list.
Proof.
  intros Hf. unfold records_of. rewrite scan_rows, Hf, List.filter_app. simpl.
  now rewrite String.eqb_refl.
Qed.

Lemma newest_is_head (l s : list (ThreatDetection N)) (r : ThreatDetection N) :
  s ≡ₚ (l ++ [r])%list ->
  StronglySorted newer_first s ->
  (forall x, In x l -> String.ltb (detected_at x) (detected_at r) = true) ->
  exists rest, s = r :: rest.
Proof.
  intros Hperm Hsorted Hold. destruct s as [|h t].
  - apply Permutation_length in Hperm. rewrite length_app in Hperm. simpl in Hperm. lia.
  - apply StronglySorted_inv in Hsorted as [_ Hall].
    assert (Hh : In h (l ++ [r])%list) by (eapply Permutation_in; [exact Hperm | now left]).
    assert (Hr : In r (h :: t)).
    { eapply Permutation_in; [symmetry; exact Hperm|]. apply in_or_app. right. now left. }
    destruct Hr as [->|Hr]; [eauto|].
    apply in_app_or in Hh as [Hh|[->|[]]]; [|eauto].
    exfalso. rewrite List.Forall_forall in Hall. specialize (Hall r Hr).
    unfold newer_first in Hall.
    rewrite (string_ltb_leb _ _ (Hold h Hh)) in Hall. discriminate.
Qed.

(** X16.  A scan made when the clock is past the stamps of the user's
    records puts its record at the head of the user's listing. *)
Theorem new_scan_heads_the_listing (userId content sourceType : string) (w : World N) :
  faulty w T_threat_detections = false ->
  (forall r, In r (records_of userId w) -> String.ltb (detected_at r) (now w) = true) ->
  let scanned := scanCommunication userId content sourceType w in
  exists r rest,
    fst scanned = Some r
    /\ fst (getUserThreats userId (snd scanned)) = r :: rest.
Proof.
  intros Hf Hold scanned. subst scanned.
  set (r := stored_record userId content sourceType w).
  destruct (scan_frame userId content sourceType w) as (Hfaulty & _).
  assert (Hf' : faulty (snd (scanCommunication userId content sourceType w))
                  T_threat_detections = false) by now rewrite Hfaulty.
  rewrite (getUserThreats_served _ _ Hf'). simpl.
  rewrite records_of_scan by exact Hf. fold r.
  destruct (newest_is_head (records_of userId w)
              (merge_sort newer_first (records_of userId w ++ [r])%list) r) as [rest Hrest].
  - apply merge_sort_Permutation.
  - apply StronglySorted_merge_sort.
    + intros a b c Hab Hbc. unfold newer_first in *. eapply string_leb_trans; eauto.
    + intros a b. unfold newer_first.
      destruct (String.leb_total (detected_at a) (detected_at b)); auto.
  - exact Hold.
  - exists r, (take 49 rest). split; [now rewrite scan_accepted|].
    rewrite Hrest. reflexivity.
Qed.

(** X17.  No operation of the service marks a record a false positive: a
    record that has this status after a scan, an acknowledgement or a
    resolution had it before, and is unchanged. *)
Theorem false_positive_is_never_set
    (userId content sourceType threatId : string) (w : World N) :
  let untouched w' :=
    forall i r', threat_detections w' !! i = Some r' -> status r' = false_positive ->
                 threat_detections w !! i = Some r' in
  untouched (snd (scanCommunication userId content sourceType w))
  /\ untouched (snd (markThreatAcknowledged threatId w))
  /\ untouched (snd (markThreatResolved threatId w)).
Proof.
  intros untouched. subst untouched. cbv beta. split; [|split]; intros i r'.
  - rewrite scan_rows. destruct (faulty w T_threat_detections); [tauto|].
    intros Hi Hs. apply lookup_app_Some in Hi as [Hi|[_ Hi]]; [exact Hi|].
    apply list_lookup_singleton_Some in Hi as [_ <-]. discriminate Hs.
  - rewrite acknowledge_rows. destruct (faulty w T_threat_detections); [tauto|].
    rewrite lookup_map. destruct (threat_detections w !! i) as [r|]; simpl; [|discriminate].
    intros Hi Hs. inversion Hi as [Hr]. rewrite <- Hr in Hs.
    destruct (String.eqb (threat_id r) threatId); [discriminate Hs | reflexivity].
  - rewrite resolve_rows. destruct (faulty w T_threat_detections); [tauto|].
    rewrite lookup_map. destruct (threat_detections w !! i) as [r|]; simpl; [|discriminate].
    intros Hi Hs. inversion Hi as [Hr]. rewrite <- Hr in Hs.
    destruct (String.eqb (threat_id r) threatId); [discriminate Hs | reflexivity].
Qed.

(** Records and counters of one user and day agree, or there is neither
    record nor row. *)
Lemma scan_at_agrees (u d : string) (ev : string * string * string) (w : World N) :
  faulty w T_threat_detections = false ->
  faulty w T_detection_stats = false ->
  split_head "T" (fst (fst ev)) = d ->
  (stats_rows u d (detection_stats w) = [] /\ records_of u w = []
   \/ exists row, stats_rows u d (detection_stats w) = [row]
        /\ total_scanned row = Z.of_nat (length (records_of u w))
        /\ threats_detected row = Z.of_nat (length (threats_of u w))
        /\ false_positives row = 0) ->
  let w' := scan_at u w ev in
  faulty w' T_threat_detections = false
  /\ faulty w' T_detection_stats = false
  /\ length (records_of u w') = S (length (records_of u w))
  /\ exists row, stats_rows u d (detection_stats w') = [row]
       /\ total_scanned row = Z.of_nat (length (records_of u w'))
       /\ threats_detected row = Z.of_nat (length (threats_of u w'))
       /\ false_positives row = 0.
Proof.
  intros Hd Hs Hday Hagree w'. subst w'. unfold scan_at.
  destruct ev as [[t content] sourceType]. simpl in *.
  set (w0 := at_clock t w).
  assert (Hd0 : faulty w0 T_threat_detections = false) by exact Hd.
  assert (Hs0 : faulty w0 T_detection_stats = false) by exact Hs.
  assert (Hday0 : split_head "T" (now w0) = d) by exact Hday.
  destruct (scan_frame u content sourceType w0) as (Hfaulty & _).
  rewrite Hfaulty. split; [exact Hd0|]. split; [exact Hs0|].
  assert (Hrec : records_of u (snd (scanCommunication u content sourceType w0))
                 = (records_of u w ++ [stored_record u content sourceType w0])%list)
    by (now rewrite records_of_scan).
  assert (Hthr : length (threats_of u (snd (scanCommunication u content sourceType w0)))
                 = (length (threats_of u w)
                    + (if severity_eqb
                            (severityLevel (fst (analyzeThreatWithNLP content sourceType w0)))
                            safe then 0 else 1))%nat).
  { unfold threats_of. rewrite Hrec, List.filter_app, length_app. simpl.
    now destruct (severity_eqb _ safe). }
  rewrite Hrec, length_app. simpl length. split; [lia|].
  rewrite Hthr. rewrite scan_accepted by exact Hd0. simpl snd.
  set (r0 := stored_record u content sourceType w0).
  set (level := severityLevel (fst (analyzeThreatWithNLP content sourceType w0))).
  assert (Hsf : faulty (filed r0 w0) T_detection_stats = false) by exact Hs.
  assert (Hdayf : split_head "T" (now (filed r0 w0)) = d) by exact Hday.
  destruct Hagree as [[Hrows Hnone]|(row & Hrows & Ht & Hth & Hfp)].
  - assert (Hrowsf : stats_rows u (split_head "T" (now (filed r0 w0)))
                       (detection_stats (filed r0 w0)) = [])
      by (rewrite Hdayf; exact Hrows).
    pose proof (stats_rows_created u (severity_name level) (filed r0 w0) Hsf Hrowsf) as Hc.
    rewrite Hdayf in Hc. rewrite Hc. eexists. split; [reflexivity|].
    unfold threats_of. rewrite Hnone. simpl. rewrite safe_name.
    destruct (severity_eqb level safe); repeat split; reflexivity.
  - assert (Hrowsf : stats_rows u (split_head "T" (now (filed r0 w0)))
                       (detection_stats (filed r0 w0)) = [row])
      by (rewrite Hdayf; exact Hrows).
    pose proof (stats_rows_bumped u (severity_name level) (filed r0 w0) row Hsf Hrowsf) as Hc.
    rewrite Hdayf in Hc. rewrite Hc. eexists. split; [reflexivity|].
    simpl. rewrite safe_name, Ht, Hth.
    split; [|split; [|exact Hfp]].
    + generalize (length (records_of u w)). clear. intros n. lia.
    + generalize (length (threats_of u w)). clear. intros n.
      destruct (severity_eqb level safe); lia.
Qed.

Lemma scan_all_agrees (u d : string) (evs : list (string * string * string)) (w : World N) :
  faulty w T_threat_detections = false ->
  faulty w T_detection_stats = false ->
  (forall ev, In ev evs -> split_head "T" (fst (fst ev)) = d) ->
  (exists row, stats_rows u d (detection_stats w) = [row]
     /\ total_scanned row = Z.of_nat (length (records_of u w))
     /\ threats_detected row = Z.of_nat (length (threats_of u w))
     /\ false_positives row = 0) ->
  let w' := scan_all u evs w in
  length (records_of u w') = (length (records_of u w) + length evs)%nat
  /\ exists row, stats_rows u d (detection_stats w') = [row]
       /\ total_scanned row = Z.of_nat (length (records_of u w'))
       /\ threats_detected row = Z.of_nat (length (threats_of u w'))
       /\ false_positives row = 0.
Proof.
  unfold scan_all.
  revert w. induction evs as [|ev evs IH]; intros w Hd Hs Hday Hagree; simpl.
  - split; [lia | exact Hagree].
  - destruct (scan_at_agrees u d ev w Hd Hs (Hday ev (or_introl eq_refl)) (or_intror Hagree))
      as (Hd' & Hs' & Hlen & Hagree').
    destruct (IH (scan_at u w ev) Hd' Hs' (fun e He => Hday e (or_intror He)) Hagree')
      as [Hlen' Hrow].
    split; [|exact Hrow]. rewrite Hlen', Hlen. lia.
Qed.

(** X18.  Records and counters agree.  For a user without records and
    without a row for the day, after any number of accepted scans on that
    day the row's [total_scanned] is the number of the user's records, its
    [threats_detected] the number of those not rated [safe], and its
    [false_positives] is 0. *)
Theorem counters_agree_with_records (u d : string)
    (first : string * string * string) (later : list (string * string * string))
    (w : World N) :
  faulty w T_threat_detections = false ->
  faulty w T_detection_stats = false ->
  records_of u w = [] ->
  stats_rows u d (detection_stats w) = [] ->
  (forall ev, In ev (first :: later) -> split_head "T" (fst (fst ev)) = d) ->
  let w' := scan_all u (first :: later) w in
  length (records_of u w') = S (length later)
  /\ exists row, stats_row u d w' = Some row
       /\ total_scanned row = Z.of_nat (length (records_of u w'))
       /\ threats_detected row = Z.of_nat (length (threats_of u w'))
       /\ false_positives row = 0.
Proof.
  intros Hd Hs Hnone Hrows Hday w'. subst w'. unfold scan_all. simpl.
  destruct (scan_at_agrees u d first w Hd Hs (Hday first (or_introl eq_refl))
              (or_introl (conj Hrows Hnone)))
    as (Hd' & Hs' & Hlen & Hagree').
  destruct (scan_all_agrees u d later (scan_at u w first) Hd' Hs'
              (fun e He => Hday e (or_intror He)) Hagree')
    as [Hlen' (row & Hrow & Hrest)].
  split.
  - unfold scan_all in Hlen'. rewrite Hlen', Hlen, Hnone. simpl. lia.
  - exists row. split; [|exact Hrest]. unfold stats_row.
    unfold scan_all in Hrow. now rewrite Hrow.
Qed.

End ScanFacts.

(** ** The daily counters, further *)

Section CounterFacts.
Context {N : Type} {num : JSNumber N} {str : JSStringOps}.

Lemma updateUserStats_leaves_rows (u s : string) (w : World N) :
  faulty w T_detection_stats = true
  \/ (exists a b rest,
        stats_rows u (split_head "T" (now w)) (detection_stats w) = a :: b :: rest) ->
  detection_stats (snd (updateUserStats u s w)) = detection_stats w.
Proof.
  intros H.
  unfold updateUserStats, select_detection_stats, insert_detection_stats,
    set_detection_stats, toISOString_now, bind, ret, issue, is_faulty, read.
  simpl. destruct (faulty w T_detection_stats) eqn:Hf; simpl.
  - rewrite Hf. reflexivity.
  - destruct H as [H|(a & b & rest & Hrows)]; [discriminate|].
    rewrite Hrows. simpl. rewrite Hf. simpl. rewrite Hrows. reflexivity.
Qed.

Lemma unique_id (rows : list DetectionStats) (x y : DetectionStats) :
  List.NoDup (map stats_id rows) -> In x rows -> In y rows -> stats_id x = stats_id y -> x = y.
Proof.
  induction rows as [|z rows IH]; simpl; [tauto|].
  intros Hnd Hx Hy Hid. inversion Hnd as [|? ? Hnotin Hnd']. subst.
  destruct Hx as [->|Hx], Hy as [->|Hy]; auto.
  - exfalso. apply Hnotin. rewrite Hid. now apply in_map.
  - exfalso. apply Hnotin. rewrite <- Hid. now apply in_map.
Qed.

Lemma updateUserStats_others (u s u' d' : string) (w : World N) :
  List.NoDup (map stats_id (detection_stats w)) ->
  u' <> u \/ d' <> split_head "T" (now w) ->
  stats_rows u' d' (detection_stats (snd (updateUserStats u s w)))
  = stats_rows u' d' (detection_stats w).
Proof.
  intros Hnd Hother.
  destruct (faulty w T_detection_stats) eqn:Hf;
    [now rewrite updateUserStats_leaves_rows by auto|].
  destruct (stats_rows u (split_head "T" (now w)) (detection_stats w))
    as [|r [|b rest]] eqn:Hrows.
  - rewrite updateUserStats_creates by assumption.
    rewrite stats_rows_app. unfold stats_rows at 2. simpl.
    destruct (String.eqb u u') eqn:Eu, (String.eqb (split_head "T" (now w)) d') eqn:Ed;
      simpl; try now rewrite app_nil_r.
    apply String.eqb_eq in Eu, Ed. destruct Hother; congruence.
  - rewrite (updateUserStats_updates u s w r) by assumption.
    rewrite stats_rows_map
      by (intros x; now destruct (String.eqb (stats_id x) (stats_id r))).
    assert (Hr : In r (stats_rows u (split_head "T" (now w)) (detection_stats w)))
      by (rewrite Hrows; now left).
    assert (Hrin : In r (detection_stats w))
      by (unfold stats_rows in Hr; now apply filter_In in Hr).
    apply stats_rows_member in Hr as [Hru Hrd].
    rewrite <- (map_id (stats_rows u' d' (detection_stats w))) at 2.
    apply map_ext_in. intros x Hx.
    destruct (String.eqb (stats_id x) (stats_id r)) eqn:E; [|reflexivity].
    exfalso. apply String.eqb_eq in E.
    assert (Hxin : In x (detection_stats w))
      by (unfold stats_rows in Hx; now apply filter_In in Hx).
    apply stats_rows_member in Hx as [Hxu Hxd].
    assert (x = r) by (eapply unique_id; eauto). subst x.
    destruct Hother; congruence.
  - now rewrite updateUserStats_leaves_rows by eauto 6.
Qed.

(** X19.  A scan moves the counters of its own user and day only: with
    identifiers that are unique, the rows of every other user, and of the
    same user on every other day, are after the scan what they were. *)
Theorem scan_leaves_other_counters (userId content sourceType u' d' : string)
    (w : World N) :
  List.NoDup (map stats_id (detection_stats w)) ->
  u' <> userId \/ d' <> split_head "T" (now w) ->
  stats_rows u' d' (detection_stats (snd (scanCommunication userId content sourceType w)))
  = stats_rows u' d' (detection_stats w).
Proof.
  intros Hnd Hother. destruct (faulty w T_threat_detections) eqn:Hf.
  - rewrite scan_unfold.
    unfold insert_threat_detection, logged, console_error, bind, ret, issue, is_faulty.
    simpl. rewrite Hf. reflexivity.
  - rewrite scan_accepted by exact Hf. simpl snd.
    match goal with |- context [filed ?r w] => set (r0 := r) end.
    change (detection_stats w) with (detection_stats (filed r0 w)).
    now apply updateUserStats_others.
Qed.

Lemma record_scans_row_invariant (P : DetectionStats -> Prop) (u d : string)
    (evs : list (string * string)) (w : World N) (r : DetectionStats) :
  (forall s x, P x -> P (bumped_row s x)) ->
  faulty w T_detection_stats = false ->
  stats_rows u d (detection_stats w) = [r] -> P r ->
  (forall ev, In ev evs -> split_head "T" (fst ev) = d) ->
  exists r', stats_rows u d (detection_stats (record_scans u evs w)) = [r'] /\ P r'.
Proof.
  intros Hstep. revert w r. induction evs as [|ev evs IH]; intros w r Hf Hrows Hr Hd.
  - exists r. auto.
  - apply (IH (record_scan u ev w) (bumped_row (snd ev) r)).
    + now rewrite record_scan_faulty.
    + apply record_scan_next; auto. apply Hd. now left.
    + now apply Hstep.
    + intros ev' H. apply Hd. now right.
Qed.

Lemma safe_count_bumped (s : string) (r : DetectionStats) :
  default 0 (threats_by_severity (bumped_row s r) !! "safe")
  = default 0 (threats_by_severity r !! "safe") + (if String.eqb s "safe" then 1 else 0).
Proof.
  simpl. destruct (String.eqb s "safe") eqn:E.
  - apply String.eqb_eq in E. subst s. rewrite lookup_insert_eq. reflexivity.
  - apply String.eqb_neq in E. rewrite lookup_insert_ne by exact E.
    generalize (default 0 (threats_by_severity r !! "safe")). clear. intros z. lia.
Qed.

Lemma safe_count_created (id u d s : string) :
  default 0 (threats_by_severity (created_row id u d s) !! "safe")
  = (if String.eqb s "safe" then 1 else 0).
Proof.
  simpl. destruct (String.eqb s "safe") eqn:E.
  - apply String.eqb_eq in E. subst s. rewrite lookup_insert_eq. reflexivity.
  - apply String.eqb_neq in E. rewrite lookup_insert_ne by exact E.
    apply zero_counts_lookup.
Qed.

(** X20.  In the row of a user and day, [threats_detected] is the total
    less the scans counted under [safe], after every call of a day that
    began without a row; so it lies between 0 and [total_scanned]. *)
Theorem threats_detected_is_total_less_safe (u d : string)
    (first : string * string) (later : list (string * string)) (w : World N) :
  faulty w T_detection_stats = false ->
  stats_rows u d (detection_stats w) = [] ->
  (forall ev, In ev (first :: later) -> split_head "T" (fst ev) = d) ->
  exists r, stats_row u d (record_scans u (first :: later) w) = Some r
    /\ threats_detected r = total_scanned r - default 0 (threats_by_severity r !! "safe")
    /\ 0 <= threats_detected r <= total_scanned r.
Proof.
  intros Hf Hnone Hd.
  set (P := fun x : DetectionStats =>
              threats_detected x + default 0 (threats_by_severity x !! "safe")
              = total_scanned x
              /\ 0 <= threats_detected x
              /\ 0 <= default 0 (threats_by_severity x !! "safe")).
  destruct (record_scans_row_invariant P u d later (record_scan u first w)
              (created_row (fresh_uuid (next_uuid w)) u d (snd first)))
    as (r & Hr & Hsum & H0 & Hsafe).
  - intros s x (Hx & Hx0 & Hxs). unfold P. rewrite safe_count_bumped.
    simpl threats_detected. simpl total_scanned.
    revert Hx Hx0 Hxs. generalize (default 0 (threats_by_severity x !! "safe")).
    generalize (threats_detected x). generalize (total_scanned x). clear.
    intros t th sf. destruct (String.eqb s "safe"); lia.
  - now rewrite record_scan_faulty.
  - apply record_scan_first; auto. apply Hd. now left.
  - unfold P. rewrite safe_count_created. simpl.
    destruct (String.eqb (snd first) "safe"); lia.
  - intros ev H. apply Hd. now right.
  - exists r. unfold stats_row. simpl record_scans.
    fold (record_scans u later (record_scan u first w)).
    rewrite Hr. simpl. split; [reflexivity|]. revert Hsum H0 Hsafe.
    generalize (default 0 (threats_by_severity r !! "safe")).
    generalize (threats_detected r). generalize (total_scanned r). clear.
    intros t th sf. lia.
Qed.

End CounterFacts.

(** ** The analysis, further *)

Lemma string_app_assoc (a b c : string) : (a +:+ b) +:+ c = a +:+ (b +:+ c).
Proof.
  induction a as [|x a IH]; [reflexivity|]. rewrite !app_cons. now rewrite IH.
Qed.



Section AnalysisFacts.
Context {N : Type} {num : JSNumber N} {str : JSStringOps}.

Lemma analysis_names (content sourceType : string) (w : World N) :
  detectedPatterns (fst (analyzeThreatWithNLP content sourceType w))
  = if faulty w T_threat_patterns then []
    else map pattern_name (matched_patterns content w).
Proof.
  destruct (faulty w T_threat_patterns) eqn:Hf.
  - now rewrite analyze_unavailable.
  - destruct (matched_patterns content w) as [|p ps] eqn:E.
    + now rewrite analyze_no_match.
    + now rewrite (analyze_match content sourceType w p ps Hf E).
Qed.

Lemma analysis_safe_iff (content sourceType : string) (w : World N) :
  faulty w T_threat_patterns = false ->
  severityLevel (fst (analyzeThreatWithNLP content sourceType w)) = safe
  <-> matched_patterns content w = [].
Proof.
  intros Hf. destruct (matched_patterns content w) as [|p ps] eqn:E.
  - rewrite analyze_no_match by assumption. simpl. tauto.
  - rewrite (analyze_match content sourceType w p ps Hf E). simpl.
    split; [|discriminate].
    repeat match goal with |- context [if ?c then _ else _] => destruct c end; discriminate.
Qed.

Lemma matched_patterns_member (content : string) (w : World N) (p : ThreatPattern N) :
  In p (matched_patterns content w)
  <-> In p (threat_patterns w) /\ is_active p = true
      /\ exists i, In i (indicators p) /\ occurs_in content i.
Proof.
  unfold matched_patterns, active_patterns. rewrite !filter_In, matched_iff. tauto.
Qed.

(** X21.  The pattern names an analysis reports are those of catalog rows
    that are active and of which an indicator occurs in the content, and of
    no other: a deactivated row is never reported, and no more names are
    reported than the catalog has rows. *)
Theorem reported_patterns_are_active_matches (content sourceType : string) (w : World N) :
  let a := fst (analyzeThreatWithNLP content sourceType w) in
  (forall n, In n (detectedPatterns a) <->
     faulty w T_threat_patterns = false
     /\ exists p, In p (threat_patterns w) /\ is_active p = true
                  /\ (exists i, In i (indicators p) /\ occurs_in content i)
                  /\ pattern_name p = n)
  /\ (length (detectedPatterns a) <= length (threat_patterns w))%nat.
Proof.
  intros a. subst a. rewrite analysis_names.
  destruct (faulty w T_threat_patterns).
  - split; [|simpl; lia]. intros n. simpl. split; [tauto | intros [H _]; discriminate H].
  - split.
    + intros n. rewrite in_map_iff. split.
      * intros (p & Hn & Hp). apply matched_patterns_member in Hp as (H1 & H2 & H3).
        split; [reflexivity|]. exists p. auto.
      * intros (_ & p & H1 & H2 & H3 & Hn). exists p. split; [exact Hn|].
        apply matched_patterns_member. auto.
    + rewrite length_map. unfold matched_patterns, active_patterns.
      etransitivity; [apply List.filter_length_le|]. apply List.filter_length_le.
Qed.

Lemma occurs_in_context (before content after indicator : string) :
  toLowerCase (before +:+ content +:+ after)
  = toLowerCase before +:+ toLowerCase content +:+ toLowerCase after ->
  occurs_in content indicator ->
  occurs_in (before +:+ content +:+ after) indicator.
Proof.
  intros Hlower (x & y & H). unfold occurs_in.
  exists (toLowerCase before +:+ x), (y +:+ toLowerCase after).
  rewrite Hlower, H, !string_app_assoc. reflexivity.
Qed.

(** X22.  Text added around a message hides no match, where the three
    parts lower-case apart: when the lower-casing of the whole text is that
    of the text before, of the message and of the text after, put together
    (as it is for texts that lower-case letter by letter; the builtin may
    lower-case a letter otherwise next to another text), every pattern
    reported for the message is reported for the whole, and a message that
    is not rated [safe] is not rated [safe] once embedded. *)
Theorem surrounding_text_keeps_matches
    (before content after sourceType : string) (w : World N) :
  toLowerCase (before +:+ content +:+ after)
  = toLowerCase before +:+ toLowerCase content +:+ toLowerCase after ->
  faulty w T_threat_patterns = false ->
  let inner := fst (analyzeThreatWithNLP content sourceType w) in
  let outer := fst (analyzeThreatWithNLP (before +:+ content +:+ after) sourceType w) in
  (forall n, In n (detectedPatterns inner) -> In n (detectedPatterns outer))
  /\ (severityLevel inner <> safe -> severityLevel outer <> safe).
Proof.
  intros Hlower Hf inner outer. subst inner outer.
  assert (Hsub : forall p, In p (matched_patterns content w) ->
                           In p (matched_patterns (before +:+ content +:+ after) w)).
  { intros p Hp. apply matched_patterns_member in Hp as (H1 & H2 & i & Hi & Ho).
    apply matched_patterns_member. split; [exact H1|]. split; [exact H2|].
    exists i. split; [exact Hi|]. now apply occurs_in_context. }
  split.
  - intros n. rewrite !analysis_names, Hf, !in_map_iff.
    intros (p & Hn & Hp). exists p. auto.
  - rewrite !analysis_safe_iff by exact Hf. intros Hne Hnil.
    destruct (matched_patterns content w) as [|p ps] eqn:E; [contradiction|].
    specialize (Hsub p (or_introl eq_refl)). rewrite Hnil in Hsub. contradiction.
Qed.


End AnalysisFacts.

(** ** The explanation *)

Lemma string_app_empty_r (a : string) : a +:+ "" = a.
Proof. induction a as [|x a IH]; [reflexivity|]. rewrite app_cons. now rewrite IH. Qed.

Lemma includes_refl (a : string) : includes a a = true.
Proof.
  apply includes_true_iff. exists "", "". now rewrite app_empty, string_app_empty_r.
Qed.

Lemma includes_prefix (a b : string) : includes (a +:+ b) a = true.
Proof. apply includes_true_iff. exists "", b. now rewrite app_empty. Qed.

Lemma includes_trans (a b c : string) :
  includes a b = true -> includes b c = true -> includes a c = true.
Proof.
  rewrite !includes_true_iff. intros (x & y & ->) (x' & y' & ->).
  exists (x +:+ x'), (y' +:+ y). now rewrite !string_app_assoc.
Qed.

Lemma join_includes (sep : string) (xs : list string) (x : string) :
  In x xs -> includes (join sep xs) x = true.
Proof.
  unfold join. induction xs as [|y xs IH]; [contradiction|].
  intros Hin. destruct xs as [|z zs].
  - destruct Hin as [->|[]]. apply includes_refl.
  - change (String.concat sep (y :: z :: zs))
      with (y +:+ sep +:+ String.concat sep (z :: zs)).
    destruct Hin as [->|Hin]; [apply includes_prefix|].
    apply includes_true_iff. apply IH, includes_true_iff in Hin as (b & a & ->).
    exists (y +:+ sep +:+ b), a. now rewrite !string_app_assoc.
Qed.

Section ExplanationFacts.
Context {N : Type} {num : JSNumber N} {str : JSStringOps}.

Lemma explanation_lines (detected : list (MatchResult N)) (severity sourceType line : string) :
  In line [ fst (severityTable severity);
            "📊 SOURCE TYPE: " +:+ toUpperCase sourceType;
            join nl (map patternDescription detected);
            snd (severityTable severity) ] ->
  includes (generateNLPExplanation detected severity sourceType) line = true.
Proof.
  intros Hin. unfold generateNLPExplanation.
  destruct (severityTable severity) as [description recommendation].
  apply join_includes. simpl in Hin. simpl. tauto.
Qed.

Lemma description_names_the_pattern (r : MatchResult N) :
  includes (patternDescription r) ("• " +:+ pattern_name (pattern r) +:+ ": Detected ") = true.
Proof.
  apply includes_true_iff. exists "". eexists.
  unfold patternDescription. rewrite app_empty, !string_app_assoc. reflexivity.
Qed.

(** X24.  The explanation of a scan with a match covers its verdict: it
    holds a line for every pattern reported, the source type in upper case,
    and the description and the recommendation that the severity table
    gives for the severity returned. *)
Theorem explanation_covers_the_verdict (content sourceType : string) (w : World N) :
  faulty w T_threat_patterns = false ->
  matched_patterns content w <> [] ->
  let a := fst (analyzeThreatWithNLP content sourceType w) in
  (forall n, In n (detectedPatterns a) ->
     includes (nlpExplanation a) ("• " +:+ n +:+ ": Detected ") = true)
  /\ includes (nlpExplanation a) ("📊 SOURCE TYPE: " +:+ toUpperCase sourceType) = true
  /\ includes (nlpExplanation a) (fst (severityTable (severity_name (severityLevel a)))) = true
  /\ includes (nlpExplanation a) (snd (severityTable (severity_name (severityLevel a)))) = true.
Proof.
  intros Hf Hm a. subst a.
  destruct (matched_patterns content w) as [|p ps] eqn:E; [contradiction|].
  rewrite (analyze_match content sourceType w p ps Hf E).
  cbn [fst nlpExplanation detectedPatterns severityLevel].
  split; [|split; [|split]]; try (apply explanation_lines; simpl; tauto).
  intros n Hn. apply in_map_iff in Hn as (q & <- & Hq).
  eapply includes_trans.
  - apply explanation_lines. right. right. left. reflexivity.
  - eapply includes_trans.
    + apply join_includes. apply in_map.
      rewrite detected_of_matched, E. apply in_map. exact Hq.
    + apply description_names_the_pattern.
Qed.

End ExplanationFacts.

(** ** The confidence on doubles, further *)

Lemma SFltb_SFleb (f g : spec_float) : SFltb f g = true -> SFleb f g = true.
Proof. unfold SFltb, SFleb. destruct (SFcompare f g) as [[]|]; congruence. Qed.

Lemma nonneg_leb_zero (x : float) : nonneg (Prim2SF x) -> (0 <=? x)%float = true.
Proof.
  rewrite FloatAxioms.leb_spec. change (Prim2SF 0) with (S754_zero false).
  destruct (Prim2SF x) as [s|[]| |[] m e]; simpl; tauto || reflexivity.
Qed.

(** [Math.min(95, c)] lies between 0 and 95 when [c] is not negative. *)
Lemma float_min_95_range (c : float) :
  nonneg (Prim2SF c) ->
  (0 <=? float_min 95 c)%float = true /\ (float_min 95 c <=? 95)%float = true.
Proof.
  intros Hc. unfold float_min. rewrite (is_nan_nonneg c Hc).
  change (is_nan 95) with false. cbn [orb].
  destruct (95 <? c)%float eqn:E1; [split; reflexivity|].
  destruct (c <? 95)%float eqn:E2.
  - split; [now apply nonneg_leb_zero|].
    rewrite FloatAxioms.leb_spec. apply SFltb_SFleb.
    rewrite <- FloatAxioms.ltb_spec. exact E2.
  - change (get_sign 95) with false. cbv iota.
    split; [now apply nonneg_leb_zero|].
    rewrite FloatAxioms.ltb_spec in E1, E2.
    change (Prim2SF 95) with (S754_finite false 6685030696878080 (-46)) in E1, E2.
    destruct (SF_trichotomy (Prim2SF c) 6685030696878080 (-46) Hc) as [H|[H|H]];
      try congruence.
    rewrite FloatAxioms.leb_spec, H. reflexivity.
Qed.

(** [Math.min(95, c)] is 95 when [c] is at least 95. *)
Lemma float_min_95_full (c : float) :
  at_least 95 (Prim2SF c) -> float_min 95 c = 95%float.
Proof.
  intros Hc. pose proof (at_least_nonneg 95 _ Hc) as Hn.
  unfold float_min. rewrite (is_nan_nonneg c Hn).
  change (is_nan 95) with false. cbn [orb].
  destruct (95 <? c)%float eqn:E1; [reflexivity|].
  assert (E2 : (c <? 95)%float = false).
  { rewrite FloatAxioms.ltb_spec.
    change (Prim2SF 95) with (S754_finite false 6685030696878080 (-46)).
    apply (SFltb_at_least 95); try exact Hc; try apply Prim2SF_valid; try reflexivity;
      vm_compute; intros H; discriminate H. }
  rewrite E2. change (get_sign 95) with false. cbv iota.
  rewrite FloatAxioms.ltb_spec in E1, E2.
  change (Prim2SF 95) with (S754_finite false 6685030696878080 (-46)) in E1, E2.
  destruct (SF_trichotomy (Prim2SF c) 6685030696878080 (-46) Hn) as [H|[H|H]];
    try congruence.
  apply Prim2SF_inj. rewrite H. reflexivity.
Qed.

(** [Math.min(95, c)] is at least 80 when [c] is. *)
Lemma float_min_95_at_least_80 (c : float) :
  at_least 80 (Prim2SF c) -> (80 <=? float_min 95 c)%float = true.
Proof.
  intros Hc.
  assert (Hleb : (80 <=? c)%float = true).
  { rewrite FloatAxioms.leb_spec.
    change (Prim2SF 80) with (S754_finite false 5629499534213120 (-46)).
    apply (SFleb_at_least 80); try exact Hc; try apply Prim2SF_valid; try reflexivity;
      vm_compute; intros H; discriminate H. }
  unfold float_min. rewrite (is_nan_nonneg c) by (eapply at_least_nonneg, Hc).
  change (is_nan 95) with false. cbn [orb].
  destruct (95 <? c)%float; [reflexivity|].
  destruct (c <? 95)%float; [exact Hleb|].
  change (get_sign 95) with false. exact Hleb.
Qed.

(** The float of an integer below [2 ^ 63] is finite and at least any
    integer of up to 53 bits that the integer reaches. *)
Lemma of_uint63_at_least (k z : Z) :
  1 <= k <= z -> z < 2 ^ 63 -> k < 2 ^ 53 ->
  exists m e, Prim2SF (of_uint63 (Uint63.of_Z z)) = S754_finite false m e
              /\ le_scaled k (Zpos m) e.
Proof.
  intros Hk Hz Hk53.
  pose proof (Prim2SF_valid (of_uint63 (Uint63.of_Z z))) as Hvalid.
  assert (Hspec : Prim2SF (of_uint63 (Uint63.of_Z z)) = binary_normalize prec emax z 0 false).
  { rewrite FloatAxioms.of_uint63_spec, Uint63.of_Z_spec, Z.mod_small; [reflexivity|].
    change wB with (2 ^ 63). lia. }
  rewrite Hspec in *. clear Hspec.
  destruct z as [|p|p]; try lia. simpl binary_normalize in *.
  assert (Hle : le_scaled k (Zpos p) 0).
  { unfold le_scaled. change (k * 2 ^ 0 <= Zpos p * 2 ^ 0). rewrite Z.pow_0_r. lia. }
  pose proof (binary_round_at_least k p 0 ltac:(lia) Hle Hvalid) as Hal.
  assert (Hdig : Zpos (digits2_pos p) <= 100).
  { pose proof (Zdigits2_le (Zpos p) 63 ltac:(lia) ltac:(lia) ltac:(lia)) as H.
    change (Zdigits2 (Zpos p)) with (Zpos (digits2_pos p)) in H. lia. }
  pose proof (binary_round_finite p 0 Hdig ltac:(lia)) as Hfin.
  destruct (binary_round prec emax false p 0) as [s|s| |s m e];
    simpl in Hal, Hfin; try tauto.
  destruct s; [tauto|]. exists m, e. split; [reflexivity | exact Hal].
Qed.

(** The confidence formula before the cap, with at least [k] matched
    patterns, for [k] up to 3: it is at least [50 + k * 15]. *)
Lemma confidence_at_least (sum : float) (len k : Z) :
  1 <= k <= 3 -> k <= len < 2 ^ 63 ->
  nonneg (Prim2SF sum) ->
  let n := of_uint63 (Uint63.of_Z len) in
  let c := (50 + n * 15 + sum / n * 20)%float in
  at_least (50 + k * 15) (Prim2SF c).
Proof.
  intros Hk Hlen Hsum n c.
  destruct (of_uint63_at_least k len ltac:(lia) ltac:(lia)) as (mn & en & Hn & Hn1).
  { apply Z.le_lt_trans with 3; [lia | reflexivity]. }
  fold n in Hn.
  assert (Havg : nonneg (Prim2SF (sum / n))).
  { rewrite FloatAxioms.div_spec, Hn. now apply SFdiv_nonneg. }
  assert (Ht : nonneg (Prim2SF (sum / n * 20))).
  { rewrite FloatAxioms.mul_spec.
    change (Prim2SF 20) with (S754_finite false 5629499534213120 (-48)).
    now apply SFmul_nonneg. }
  assert (Hsmall : forall j, 0 <= j <= 100 -> j < 2 ^ 53).
  { intros j Hj. apply Z.le_lt_trans with 100; [lia | reflexivity]. }
  assert (Hu : at_least (k * 15) (Prim2SF (n * 15))).
  { rewrite FloatAxioms.mul_spec.
    apply (SFmul_at_least k 15 _ _ ltac:(lia) ltac:(lia) ltac:(apply Hsmall; lia)).
    - rewrite Hn. exact Hn1.
    - change (Prim2SF 15) with (S754_finite false 8444249301319680 (-49)).
      vm_compute. intros H; discriminate H.
    - apply valid_mul. }
  assert (Hs : at_least (50 + k * 15) (Prim2SF (50 + n * 15))).
  { rewrite FloatAxioms.add_spec.
    apply (SFadd_at_least 50 (k * 15) _ _ ltac:(lia) ltac:(lia) ltac:(apply Hsmall; lia)).
    - change (Prim2SF 50) with (S754_finite false 7036874417766400 (-47)).
      vm_compute. intros H; discriminate H.
    - now right.
    - apply valid_add. }
  unfold c. rewrite FloatAxioms.add_spec.
  replace (50 + k * 15) with ((50 + k * 15) + 0) by lia.
  apply (SFadd_at_least (50 + k * 15) 0 _ _ ltac:(lia) ltac:(lia)
           ltac:(apply Hsmall; lia)).
  - exact Hs.
  - now left.
  - apply valid_add.
Qed.

Section ConfidenceOnDoubles.
Context {str : JSStringOps}.

(** With a match and weights that are not negative, the confidence is the
    cap applied to a double that is at least [50 + k * 15] for every [k] up
    to 3 that the number of matched patterns reaches. *)
Lemma matched_confidence (content sourceType : string) (w : World float)
    (p : ThreatPattern float) (ps : list (ThreatPattern float)) :
  faulty w T_threat_patterns = false ->
  matched_patterns content w = p :: ps ->
  Z.of_nat (length (p :: ps)) < 2 ^ 32 ->
  (forall q, In q (p :: ps) -> (0 <=? severity_weight q)%float = true) ->
  exists c, confidenceScore (fst (analyzeThreatWithNLP content sourceType w))
            = float_min 95 c
    /\ forall k, 1 <= k <= 3 -> k <= Z.of_nat (length (p :: ps)) ->
                 at_least (50 + k * 15) (Prim2SF c).
Proof.
  intros Hf E Hlen Hw.
  rewrite (analyze_match content sourceType w p ps Hf E).
  cbn [fst confidenceScore]. unfold mean. rewrite length_map.
  set (ws := map severity_weight (p :: ps)).
  set (sum := fold_left PrimFloat.add ws 0%float).
  set (len := Z.of_nat (length (p :: ps))) in *.
  assert (Hsum : nonneg (Prim2SF sum)).
  { apply sum_nonneg_float; [exact I|].
    intros x Hx. apply in_map_iff in Hx as (q & <- & Hq). now apply Hw. }
  assert (Hlen' : 1 <= len < 2 ^ 63).
  { split; [unfold len; simpl length; lia|].
    apply Z.lt_trans with (2 ^ 32); [exact Hlen | reflexivity]. }
  exists (50 + float_of_Z len * 15 + sum / float_of_Z len * 20)%float. split.
  - assert (Hlit : num_lit (N:=float) 95 = 95%float /\ num_lit (N:=float) 50 = 50%float
                   /\ num_lit (N:=float) 15 = 15%float /\ num_lit (N:=float) 20 = 20%float
                   /\ num_lit (N:=float) 0 = 0%float)
      by (vm_compute; repeat split).
    destruct Hlit as (-> & -> & -> & -> & ->). reflexivity.
  - intros k Hk Hkl. rewrite (float_of_Z_pos len) by lia.
    apply (confidence_at_least sum len k Hk); [lia | exact Hsum].
Qed.

(** X25.  On the engine's doubles the confidence is never below 0 nor above
    95, whatever the content and the state of the catalog, as long as no
    weight of a matched pattern is negative: it fits the range the table of
    records accepts. *)
Theorem confidence_is_between_0_and_95 (content sourceType : string) (w : World float) :
  Z.of_nat (length (matched_patterns content w)) < 2 ^ 32 ->
  (forall p, In p (matched_patterns content w) ->
             (0 <=? severity_weight p)%float = true) ->
  let a := fst (analyzeThreatWithNLP content sourceType w) in
  (0 <=? confidenceScore a)%float = true /\ (confidenceScore a <=? 95)%float = true.
Proof.
  intros Hlen Hw a. subst a. destruct (faulty w T_threat_patterns) eqn:Hf.
  - rewrite analyze_unavailable by exact Hf. split; vm_compute; reflexivity.
  - destruct (matched_patterns content w) as [|p ps] eqn:E.
    + rewrite analyze_no_match by assumption. split; vm_compute; reflexivity.
    + destruct (matched_confidence content sourceType w p ps Hf E Hlen Hw) as (c & -> & Hc).
      apply float_min_95_range.
      apply (at_least_nonneg 65). apply (Hc 1); [lia|]. simpl length. lia.
Qed.

(** X26.  On the engine's doubles, two matched patterns give a confidence
    of at least 80, and three or more give exactly 95, whatever their
    weights from 0 up. *)
Theorem more_matches_give_more_confidence (content sourceType : string) (w : World float) :
  faulty w T_threat_patterns = false ->
  Z.of_nat (length (matched_patterns content w)) < 2 ^ 32 ->
  (forall p, In p (matched_patterns content w) ->
             (0 <=? severity_weight p)%float = true) ->
  let a := fst (analyzeThreatWithNLP content sourceType w) in
  ((2 <= length (matched_patterns content w))%nat ->
     (80 <=? confidenceScore a)%float = true)
  /\ ((3 <= length (matched_patterns content w))%nat ->
     confidenceScore a = 95%float).
Proof.
  intros Hf Hlen Hw a. subst a.
  destruct (matched_patterns content w) as [|p ps] eqn:E.
  - split; simpl; lia.
  - destruct (matched_confidence content sourceType w p ps Hf E Hlen Hw) as (c & -> & Hc).
    split; intros Hn.
    + apply float_min_95_at_least_80. apply (Hc 2); lia.
    + apply float_min_95_full. apply (Hc 3); lia.
Qed.

End ConfidenceOnDoubles.

(** ** Worked examples of the further properties *)

(** A record that is [new] counts for the overall status until it is 24
    hours old, and no longer from then on. *)
Example a_day_later :
  map severity_level (fst (getUserThreats "u1" scanned_store)) = [medium]
  /\ getOverallStatus "2025-11-04T10:19:25.999Z" (fst (getUserThreats "u1" scanned_store))
     = warning
  /\ getOverallStatus "2025-11-04T10:19:26.000Z" (fst (getUserThreats "u1" scanned_store))
     = overall_safe
  /\ stats_medium (stats (fst (getUserThreats "u1" scanned_store))) = 1%nat.
Proof. vm_compute. repeat split. Qed.

(** More text hides no match, but it may lower the severity: a link alone
    rates critical, the same link in an urgent message rates high. *)
Example added_text_can_lower_the_severity :
  severityLevel (fst (analyzeThreatWithNLP "see bit.ly/xyz" "link" store)) = critical
  /\ severityLevel
       (fst (analyzeThreatWithNLP ("urgent: " +:+ "see bit.ly/xyz" +:+ "") "link" store))
     = high.
Proof. vm_compute. repeat split. Qed.

Lemma string_map_app (f : ascii -> ascii) (a b : string) :
  string_map f (a +:+ b) = string_map f a +:+ string_map f b.
Proof.
  induction a as [|x a IH]; [reflexivity|]. rewrite app_cons. simpl.
  rewrite IH. now rewrite app_cons.
Qed.

(** Under the ASCII instance every three texts lower-case apart. *)
Lemma ascii_texts_lower_case_apart (before content after : string) :
  toLowerCase (before +:+ content +:+ after)
  = toLowerCase before +:+ toLowerCase content +:+ toLowerCase after.
Proof. unfold toLowerCase. simpl. now rewrite !string_map_app. Qed.

Lemma listing_is_complete_up_to_the_limit_witness :
  faulty evening_store T_threat_detections = false
  /\ length (records_of "u1" evening_store) = 2%nat
  /\ fst (getUserThreats "u1" evening_store) ≡ₚ records_of "u1" evening_store.
Proof.
  split; [reflexivity|]. split; [reflexivity|].
  apply (proj1 (listing_is_complete_up_to_the_limit "u1" evening_store eq_refl)).
  vm_compute. lia.
Defined.

Lemma refused_listing_shows_secure_witness :
  faulty (without_table T_threat_detections evening_store) T_threat_detections = true
  /\ map severity_level (threat_detections (without_table T_threat_detections evening_store))
     = [medium; high]
  /\ fst (getUserThreats "u1" (without_table T_threat_detections evening_store)) = []
  /\ getOverallStatus "2025-11-03T19:00:00.000Z"
       (fst (getUserThreats "u1" (without_table T_threat_detections evening_store)))
     = overall_safe
  /\ getOverallStatus "2025-11-03T19:00:00.000Z" (fst (getUserThreats "u1" evening_store))
     = danger.
Proof.
  destruct (refused_listing_shows_secure "u1" "2025-11-03T19:00:00.000Z"
              (without_table T_threat_detections evening_store) eq_refl)
    as (Hnil & _ & _ & _ & Hsafe & _).
  split; [reflexivity|]. split; [vm_compute; reflexivity|].
  split; [exact Hnil|]. split; [exact Hsafe|]. vm_compute. reflexivity.
Defined.

Lemma status_update_without_effect_witness :
  map threat_id (threat_detections scanned_store) = ["uuid-0"]
  /\ threat_detections (snd (markThreatAcknowledged "uuid-9" scanned_store))
     = threat_detections scanned_store
  /\ threat_detections (snd (markThreatResolved "uuid-9" scanned_store))
     = threat_detections scanned_store
  /\ console (snd (markThreatResolved "uuid-9" scanned_store)) = [].
Proof.
  assert (Hids : map threat_id (threat_detections scanned_store) = ["uuid-0"])
    by (vm_compute; reflexivity).
  assert (Hno : forall r, In r (threat_detections scanned_store) -> threat_id r <> "uuid-9").
  { intros r Hr. apply (in_map threat_id) in Hr. rewrite Hids in Hr.
    destruct Hr as [<-|[]]. discriminate. }
  destruct (status_update_without_effect "uuid-9" scanned_store (or_intror Hno))
    as (Ha & Hr & _ & Hc).
  split; [exact Hids|]. split; [exact Ha|]. split; [exact Hr|].
  rewrite Hc. reflexivity.
Defined.


Lemma scan_stores_the_analysis_witness :
  faulty store T_threat_detections = false
  /\ exists r, fst (scanCommunication "u1" urgent_mail "email" store) = Some r
       /\ threat_type r = "urgency_manipulation"
       /\ severity_level r = high
       /\ detected_patterns r = ["Urgent Action Required"; "Suspicious Links"]
       /\ confidence_score r = 95%float
       /\ status r = status_new.
Proof.
  split; [reflexivity|].
  destruct (scan_stores_the_analysis "u1" urgent_mail "email" store eq_refl)
    as (r & Hr & _ & Ht & Hs & Hp & Hc & _ & Hn & _).
  exists r. split; [exact Hr|].
  split; [rewrite Ht; vm_compute; reflexivity|].
  split; [rewrite Hs; vm_compute; reflexivity|].
  split; [rewrite Hp; vm_compute; reflexivity|].
  split; [rewrite Hc; vm_compute; reflexivity | exact Hn].
Defined.

Lemma scan_is_counted_once_witness :
  faulty store T_threat_detections = false
  /\ faulty store T_detection_stats = false
  /\ stats_rows "u1" "2025-11-03" (detection_stats store) = []
  /\ exists r', stats_row "u1" "2025-11-03"
                  (snd (scanCommunication "u1" coffee_mail "email" store)) = Some r'
       /\ total_scanned r' = 1
       /\ threats_detected r' = 0
       /\ threats_by_severity r' !! "safe" = Some 1.
Proof.
  split; [reflexivity|]. split; [reflexivity|]. split; [reflexivity|].
  destruct (scan_is_counted_once "u1" coffee_mail "email" store eq_refl eq_refl) as [H _].
  destruct (H eq_refl) as (r' & Hr' & Ht & Hth & Hby & _).
  exists r'. split; [exact Hr'|]. split; [exact Ht|].
  split; [rewrite Hth; vm_compute; reflexivity|].
  rewrite <- Hby. vm_compute (severity_name _). reflexivity.
Defined.

Lemma counter_failure_is_silent_witness :
  faulty (without_table T_detection_stats store) T_threat_detections = false
  /\ faulty (without_table T_detection_stats store) T_detection_stats = true
  /\ length (threat_detections
               (snd (scanCommunication "u1" urgent_mail "email"
                       (without_table T_detection_stats store)))) = 1%nat
  /\ detection_stats (snd (scanCommunication "u1" urgent_mail "email"
                             (without_table T_detection_stats store))) = []
  /\ console (snd (scanCommunication "u1" urgent_mail "email"
                     (without_table T_detection_stats store))) = [].
Proof.
  destruct (counter_failure_is_silent "u1" urgent_mail "email"
              (without_table T_detection_stats store) eq_refl eq_refl)
    as (_ & Hrows & Hstats & Hconsole & _).
  split; [reflexivity|]. split; [reflexivity|].
  split; [rewrite Hrows; reflexivity|]. split; [exact Hstats | exact Hconsole].
Defined.

Lemma scan_without_catalog_files_safe_witness :
  faulty (without_table T_threat_patterns store) T_threat_patterns = true
  /\ faulty (without_table T_threat_patterns store) T_threat_detections = false
  /\ matched_patterns urgent_mail store <> []
  /\ exists r, fst (scanCommunication "u1" urgent_mail "email"
                      (without_table T_threat_patterns store)) = Some r
       /\ source_content r = urgent_mail
       /\ severity_level r = safe
       /\ confidence_score r = 0%float.
Proof.
  split; [reflexivity|]. split; [reflexivity|].
  split; [vm_compute; intros H; discriminate H|].
  destruct (scan_without_catalog_files_safe "u1" urgent_mail "email"
              (without_table T_threat_patterns store) eq_refl eq_refl)
    as (r & Hr & _ & Hc & Hs & Hconf & _).
  exists r. split; [exact Hr|]. split; [exact Hc|]. split; [exact Hs|].
  rewrite Hconf. vm_compute. reflexivity.
Defined.

Lemma new_scan_heads_the_listing_witness :
  faulty (at_clock "2025-11-03T18:30:00.000Z" scanned_store) T_threat_detections = false
  /\ map detected_at (records_of "u1" scanned_store) = ["2025-11-03T10:19:26.000Z"]
  /\ exists r rest,
       fst (scanCommunication "u1" urgent_mail "email"
              (at_clock "2025-11-03T18:30:00.000Z" scanned_store)) = Some r
       /\ fst (getUserThreats "u1" evening_store) = r :: rest.
Proof.
  assert (Hstamps : map detected_at (records_of "u1" scanned_store)
                    = ["2025-11-03T10:19:26.000Z"]) by (vm_compute; reflexivity).
  assert (Hold : forall r,
            In r (records_of "u1" (at_clock "2025-11-03T18:30:00.000Z" scanned_store)) ->
            String.ltb (detected_at r)
              (now (at_clock "2025-11-03T18:30:00.000Z" scanned_store)) = true).
  { intros r Hr. apply (in_map detected_at) in Hr.
    change (records_of "u1" (at_clock "2025-11-03T18:30:00.000Z" scanned_store))
      with (records_of "u1" scanned_store) in Hr.
    rewrite Hstamps in Hr. destruct Hr as [<-|[]]. vm_compute. reflexivity. }
  split; [reflexivity|]. split; [exact Hstamps|].
  exact (new_scan_heads_the_listing "u1" urgent_mail "email"
           (at_clock "2025-11-03T18:30:00.000Z" scanned_store) eq_refl Hold).
Defined.

Lemma counters_agree_with_records_witness :
  faulty store T_threat_detections = false
  /\ faulty store T_detection_stats = false
  /\ records_of "u1" store = []
  /\ stats_rows "u1" "2025-11-03" (detection_stats store) = []
  /\ length (records_of "u1" (scan_all "u1" [morning_event; evening_event] store)) = 2%nat
  /\ exists row, stats_row "u1" "2025-11-03"
                   (scan_all "u1" [morning_event; evening_event] store) = Some row
       /\ total_scanned row = 2
       /\ threats_detected row = 1.
Proof.
  assert (Hday : forall ev, In ev [morning_event; evening_event] ->
                            split_head "T" (fst (fst ev)) = "2025-11-03")
    by (intros ev [<-|[<-|[]]]; reflexivity).
  destruct (counters_agree_with_records "u1" "2025-11-03" morning_event [evening_event]
              store eq_refl eq_refl eq_refl eq_refl Hday)
    as (Hlen & row & Hrow & Ht & Hth & _).
  split; [reflexivity|]. split; [reflexivity|]. split; [reflexivity|].
  split; [reflexivity|]. split; [exact Hlen|].
  exists row. split; [exact Hrow|].
  split; [rewrite Ht, Hlen; reflexivity|].
  rewrite Hth. vm_compute. reflexivity.
Defined.

Lemma scan_leaves_other_counters_witness :
  List.NoDup (map stats_id (detection_stats next_day_store))
  /\ "2025-11-03" <> split_head "T" (now next_day_store)
  /\ length (stats_rows "u1" "2025-11-03" (detection_stats next_day_store)) = 1%nat
  /\ stats_rows "u1" "2025-11-03"
       (detection_stats (snd (scanCommunication "u1" urgent_mail "email" next_day_store)))
     = stats_rows "u1" "2025-11-03" (detection_stats next_day_store)
  /\ length (detection_stats (snd (scanCommunication "u1" urgent_mail "email" next_day_store)))
     = 2%nat.
Proof.
  assert (Hnd : List.NoDup (map stats_id (detection_stats next_day_store))).
  { assert (Hids : map stats_id (detection_stats next_day_store) = ["uuid-1"])
      by (vm_compute; reflexivity).
    rewrite Hids. constructor; [intros [] | constructor]. }
  assert (Hday : "2025-11-03" <> split_head "T" (now next_day_store))
    by (vm_compute; intros H; discriminate H).
  split; [exact Hnd|]. split; [exact Hday|]. split; [vm_compute; reflexivity|].
  split; [|vm_compute; reflexivity].
  exact (scan_leaves_other_counters "u1" urgent_mail "email" "u1" "2025-11-03"
           next_day_store Hnd (or_intror Hday)).
Defined.

Lemma threats_detected_is_total_less_safe_witness :
  faulty store T_detection_stats = false
  /\ stats_rows "u1" "2025-11-03" (detection_stats store) = []
  /\ exists r, stats_row "u1" "2025-11-03"
                 (record_scans "u1" [morning_scan; evening_scan] store) = Some r
       /\ threats_detected r
          = total_scanned r - default 0 (threats_by_severity r !! "safe")
       /\ 0 <= threats_detected r <= total_scanned r.
Proof.
  split; [reflexivity|]. split; [reflexivity|].
  refine (threats_detected_is_total_less_safe "u1" "2025-11-03"
            morning_scan [evening_scan] store eq_refl eq_refl _).
  intros ev [<-|[<-|[]]]; reflexivity.
Defined.

Lemma surrounding_text_keeps_matches_witness :
  toLowerCase ("Hello, " +:+ "act now" +:+ " please")
  = toLowerCase "Hello, " +:+ toLowerCase "act now" +:+ toLowerCase " please"
  /\ faulty store T_threat_patterns = false
  /\ detectedPatterns (fst (analyzeThreatWithNLP "act now" "email" store))
     = ["Urgent Action Required"]
  /\ In "Urgent Action Required"
       (detectedPatterns
          (fst (analyzeThreatWithNLP ("Hello, " +:+ "act now" +:+ " please") "email" store)))
  /\ severityLevel
       (fst (analyzeThreatWithNLP ("Hello, " +:+ "act now" +:+ " please") "email" store))
     <> safe.
Proof.
  assert (Hlower : toLowerCase ("Hello, " +:+ "act now" +:+ " please")
                   = toLowerCase "Hello, " +:+ toLowerCase "act now" +:+ toLowerCase " please")
    by apply ascii_texts_lower_case_apart.
  destruct (surrounding_text_keeps_matches "Hello, " "act now" " please" "email" store
              Hlower eq_refl) as [Hin Hsafe].
  split; [exact Hlower|]. split; [reflexivity|]. split; [vm_compute; reflexivity|]. split.
  - apply Hin. vm_compute. left. reflexivity.
  - apply Hsafe. vm_compute. intros H. discriminate H.
Defined.


Lemma confidence_is_between_0_and_95_witness :
  matched_patterns urgent_mail store = [urgent_action; suspicious_links]
  /\ (0 <=? confidenceScore urgent_analysis)%float = true
  /\ (confidenceScore urgent_analysis <=? 95)%float = true.
Proof.
  assert (Hm : matched_patterns urgent_mail store = [urgent_action; suspicious_links])
    by (vm_compute; reflexivity).
  assert (Hlen : Z.of_nat (length (matched_patterns urgent_mail store)) < 2 ^ 32)
    by (rewrite Hm; reflexivity).
  assert (Hw : forall p, In p (matched_patterns urgent_mail store) ->
                         (0 <=? severity_weight p)%float = true)
    by (rewrite Hm; intros p [<-|[<-|[]]]; vm_compute; reflexivity).
  split; [exact Hm|].
  exact (confidence_is_between_0_and_95 urgent_mail "email" store Hlen Hw).
Defined.

Lemma more_matches_give_more_confidence_witness :
  faulty store T_threat_patterns = false
  /\ matched_patterns alarm_mail store
     = [urgent_action; authority_impersonation; suspicious_links; financial_request]
  /\ confidenceScore (fst (analyzeThreatWithNLP alarm_mail "email" store)) = 95%float.
Proof.
  assert (Hm : matched_patterns alarm_mail store
               = [urgent_action; authority_impersonation; suspicious_links;
                  financial_request]) by (vm_compute; reflexivity).
  assert (Hlen : Z.of_nat (length (matched_patterns alarm_mail store)) < 2 ^ 32)
    by (rewrite Hm; reflexivity).
  assert (Hw : forall p, In p (matched_patterns alarm_mail store) ->
                         (0 <=? severity_weight p)%float = true)
    by (rewrite Hm; intros p [<-|[<-|[<-|[<-|[]]]]]; vm_compute; reflexivity).
  destruct (more_matches_give_more_confidence alarm_mail "email" store eq_refl Hlen Hw)
    as [_ H].
  split; [reflexivity|]. split; [exact Hm|].
  apply H. rewrite Hm. simpl. lia.
Defined.

Lemma explanation_covers_the_verdict_witness :
  faulty store T_threat_patterns = false
  /\ detectedPatterns urgent_analysis = ["Urgent Action Required"; "Suspicious Links"]
  /\ includes (nlpExplanation urgent_analysis) "• Suspicious Links: Detected " = true
  /\ includes (nlpExplanation urgent_analysis) "📊 SOURCE TYPE: EMAIL" = true
  /\ includes (nlpExplanation urgent_analysis) "HIGH RISK - " = true.
Proof.
  assert (Hm : matched_patterns urgent_mail store <> [])
    by (vm_compute; intros H; discriminate H).
  destruct (explanation_covers_the_verdict urgent_mail "email" store eq_refl Hm)
    as (Hlines & Hsource & Hdescription & _).
  split; [reflexivity|]. split; [vm_compute; reflexivity|]. split; [|split].
  - apply (Hlines "Suspicious Links"). vm_compute. right. left. reflexivity.
  - exact Hsource.
  - eapply includes_trans; [exact Hdescription|]. vm_compute. reflexivity.
Defined.
